(** * Delivery calculator: pricing, formatting and route orchestration

    A shallow embedding of the two implementations of the Yandex.Maps
    [DeliveryCalculator] module found in the repository:

    - [ClassJs]  : [DeliveryCalculatorClass.js]  (tariff 0.80, minimum 1);
    - [Part000]  : [unnamed/part_000]            (tariff 20, minimum 500).

    JavaScript numbers are modelled as rationals extended with [NaN] and the
    two infinities; the negative zero is identified with zero (every divisor
    in the program is a positive literal, so the sign of zero is never
    observed).  The arithmetic comes in two forms.  [mul64] and [div64]
    round the product and the quotient to binary64 as the language does: the
    fallback duration at 40 km/h, [fmtMoney64] and [fmtSeconds64] compute
    with them, where the last bit decides a second, a cent or an hour.
    [num_mul] and [num_div] are the exact product and quotient, an
    idealisation that the pricing and orchestration results are stated
    over; [fmtMoney] and [fmtSeconds] are the formatters over it, and write
    what [fmtMoney64] writes away from the ties and what [fmtSeconds64]
    writes below [2^46] hours.  Numbers are written by [number_to_string] as
    [Number::toString] writes the binary64 value nearest to them. *)

From Stdlib Require Import ZArith QArith Qround Qabs Qminmax Qpower Lqa String Ascii List Lia DecimalString.
From stdpp Require Import base list gmap strings.

Local Open Scope Z_scope.

(** ** JavaScript numbers *)

Inductive number : Type :=
| NaN
| PosInf
| NegInf
| Finite (q : Q).

Definition isNaN (x : number) : bool :=
  match x with NaN => true | _ => false end.

(** [-1], [0] or [1]; only meaningful away from [NaN]. *)
Definition num_sign (x : number) : Z :=
  match x with
  | NaN => 0
  | PosInf => 1
  | NegInf => -1
  | Finite q => Z.sgn (Qnum q)
  end.

Definition infinity_of_sign (s : Z) : number :=
  if 0 <? s then PosInf else if s <? 0 then NegInf else NaN.

(** [x < y]; every comparison with [NaN] is false. *)
Definition num_ltb (x y : number) : bool :=
  match x, y with
  | NaN, _ | _, NaN => false
  | PosInf, _ => false
  | NegInf, NegInf => false
  | NegInf, _ => true
  | Finite _, NegInf => false
  | Finite _, PosInf => true
  | Finite a, Finite b => negb (Qle_bool b a)
  end.

(** [x <= y]. *)
Definition num_leb (x y : number) : bool :=
  match x, y with
  | NaN, _ | _, NaN => false
  | NegInf, _ => true
  | _, PosInf => true
  | PosInf, _ => false
  | Finite _, NegInf => false
  | Finite a, Finite b => Qle_bool a b
  end.

(** [x >= y]. *)
Definition num_geb (x y : number) : bool := num_leb y x.

(** [x * y]. *)
Definition num_mul (x y : number) : number :=
  match x, y with
  | NaN, _ | _, NaN => NaN
  | Finite a, Finite b => Finite (a * b)%Q
  | _, _ => infinity_of_sign (num_sign x * num_sign y)
  end.

(** [x / y]. *)
Definition num_div (x y : number) : number :=
  match x, y with
  | NaN, _ | _, NaN => NaN
  | Finite a, Finite b =>
      if Qeq_bool b 0 then infinity_of_sign (num_sign x) else Finite (a / b)%Q
  | Finite _, _ => Finite 0
  | _, Finite b => infinity_of_sign (num_sign x * (if Qle_bool 0 b then 1 else -1))
  | _, _ => NaN
  end.

(** Rounding toward zero, as the remainder operator uses it. *)
Definition Qtrunc (q : Q) : Z :=
  if Qle_bool 0 q then Qfloor q else Qceiling q.

(** [x % y]: the result takes the sign of the dividend. *)
Definition num_rem (x y : number) : number :=
  match x, y with
  | Finite a, Finite b =>
      if Qeq_bool b 0 then NaN else Finite (a - b * inject_Z (Qtrunc (a / b)))%Q
  | Finite a, PosInf | Finite a, NegInf => Finite a
  | _, _ => NaN
  end.

Definition Math_floor (x : number) : number :=
  match x with
  | Finite q => Finite (inject_Z (Qfloor q))
  | _ => x
  end.

(** [Math.round]: nearest integer, ties toward positive infinity. *)
Definition Math_round (x : number) : number :=
  match x with
  | Finite q => Finite (inject_Z (Qfloor (q + (1 # 2))%Q))
  | _ => x
  end.

Definition Math_max (x y : number) : number :=
  match x, y with
  | NaN, _ | _, NaN => NaN
  | _, _ => if num_ltb x y then y else x
  end.

(** Equality of numbers as values ([Qeq] on the finite ones). *)
Definition num_eq (x y : number) : Prop :=
  match x, y with
  | NaN, NaN | PosInf, PosInf | NegInf, NegInf => True
  | Finite a, Finite b => (a == b)%Q
  | _, _ => False
  end.

(** ** Binary64 *)

(** [floor (log2 |q|)], for [q] other than zero. *)
Definition floor_log2 (q : Q) : Z :=
  let d := Z.log2 (Z.abs (Qnum q)) - Z.log2 (Z.pos (Qden q)) in
  if Qle_bool (2 ^ d) (Qabs q) then d else d - 1.

(** The nearest integer, a tie going to the even one. *)
Definition round_half_even (x : Q) : Z :=
  let f := Qfloor x in
  match (x - inject_Z f ?= 1 # 2)%Q with
  | Lt => f
  | Gt => f + 1
  | Eq => if Z.even f then f else f + 1
  end.

(** The exponent of the last place of the binary64 values around [q]: 53
    significant bits, and no exponent below that of the subnormal values. *)
Definition last_place (q : Q) : Z := Z.max (floor_log2 q - 52) (-1074).

(** The binary64 value nearest to [q], a tie going to the even significand;
    an infinity from [2^1024 - 2^970] on. *)
Definition binary64 (q : Q) : number :=
  if Qeq_bool q 0 then Finite 0
  else
    let m := round_half_even (Qabs q / 2 ^ last_place q) in
    let r := (inject_Z m * 2 ^ last_place q)%Q in
    if Qle_bool (2 ^ 1024) r then (if Qle_bool 0 q then PosInf else NegInf)
    else Finite (Qred (if Qle_bool 0 q then r else - r)).

(** [q] is a binary64 value: a significand below [2^53] at an exponent
    that the format has. *)
Definition representable (q : Q) : Prop :=
  exists m e : Z, Z.abs m < 2 ^ 53 /\ -1074 <= e <= 971 /\ (q == inject_Z m * 2 ^ e)%Q.

Definition round64 (x : number) : number :=
  match x with
  | Finite q => binary64 q
  | _ => x
  end.

(** [x * y] and [x / y] as the language computes them. *)
Definition mul64 (x y : number) : number := round64 (num_mul x y).
Definition div64 (x y : number) : number := round64 (num_div x y).

(** [2^-53]: the relative error of one rounding. *)
Definition epsilon : Q := 1 # 9007199254740992.

(** [2^-1075]: half the least positive binary64 value. *)
Definition tiny : Q := 2 ^ (-1075).

(** ** Strings of numbers *)

Local Open Scope string_scope.

(** Signed decimal numeral of an integer. *)
Definition dec (z : Z) : string := NilZero.string_of_int (Z.to_int z).

Definition digit (d : Z) : ascii := ascii_of_nat (48 + Z.to_nat d).


Definition is_integer (q : Q) : bool := Qeq_bool q (inject_Z (Qfloor q)).

(** *** [Number::toString]

    The digits are the shortest that round to the number, and among those
    the nearest to it: [s] with [k] digits and an exponent, found by trying
    [k = 1, 2, ...] (seventeen digits tell any two binary64 values apart). *)

(** [floor (log10 x)], for a positive [x]. *)
Definition floor_log10 (x : Q) : Z :=
  let c := floor_log2 x * 30103 / 100000 in
  if Qle_bool (10 ^ (c + 1)) x then c + 1
  else if Qle_bool (10 ^ c) x then c else c - 1.

Definition rounds_to (y x : Q) : bool :=
  match binary64 y with
  | Finite r => Qeq_bool r x
  | _ => false
  end.

(** The digits [s] and the exponent [e] of [s * 10^e], from [k] digits on,
    for a positive [x] whose leading digit has the weight [10^L]. *)
Fixpoint shortest_from (fuel : nat) (k : Z) (x : Q) (L : Z) : Z * Z :=
  let e := L + 1 - k in
  let t := (x / 10 ^ e)%Q in
  let near := round_half_even t in
  let far := if (near =? Qfloor t)%Z then near + 1 else near - 1 in
  match fuel with
  | O => (near, e)
  | S fuel =>
      if rounds_to (inject_Z near * 10 ^ e) x then (near, e)
      else if rounds_to (inject_Z far * 10 ^ e) x then (far, e)
      else shortest_from fuel (k + 1) x L
  end.

Fixpoint strip_zeros (fuel : nat) (s e : Z) : Z * Z :=
  match fuel with
  | O => (s, e)
  | S fuel =>
      if ((s mod 10 =? 0) && negb (s =? 0))%Z then strip_zeros fuel (s / 10) (e + 1)
      else (s, e)
  end.

Definition shortest (x : Q) : Z * Z :=
  let '(s, e) := shortest_from 17 1 x (floor_log10 x) in strip_zeros 20 s e.

Fixpoint zeros (n : nat) : string :=
  match n with
  | O => ""
  | S n => String "0" (zeros n)
  end.

(** The notation of a positive binary64 value: [k] digits, the point after
    the first [n] of them; decimal for [-6 < n <= 21], and otherwise one
    digit before the point and the exponent [n - 1]. *)
Definition to_string_positive (x : Q) : string :=
  let '(s, e) := shortest x in
  let ds := dec s in
  let k := Z.of_nat (String.length ds) in
  let n := k + e in
  if ((k <=? n) && (n <=? 21))%Z then ds ++ zeros (Z.to_nat (n - k))
  else if ((0 <? n) && (n <=? 21))%Z
       then substring 0 (Z.to_nat n) ds ++ "." ++ substring (Z.to_nat n) (Z.to_nat (k - n)) ds
  else if ((-6 <? n) && (n <=? 0))%Z then "0." ++ zeros (Z.to_nat (- n)) ++ ds
  else
    let exponent := (if (0 <=? n - 1)%Z then "+" else "-") ++ dec (Z.abs (n - 1)) in
    if (k =? 1)%Z then ds ++ "e" ++ exponent
    else substring 0 1 ds ++ "." ++ substring 1 (Z.to_nat (k - 1)) ds ++ "e" ++ exponent.

Definition to_string64 (q : Q) : string :=
  match binary64 q with
  | Finite x =>
      if Qeq_bool x 0 then "0"
      else (if Qle_bool 0 x then "" else "-") ++ to_string_positive (Qabs x)
  | PosInf => "Infinity"
  | NegInf => "-Infinity"
  | NaN => "NaN"
  end.

(** [Number::toString].  An integer below [2^53] in magnitude is a binary64
    value whose shortest digits are its own, up to the zeros at its end: it
    is written in full. *)
Definition number_to_string (x : number) : string :=
  match x with
  | NaN => "NaN"
  | PosInf => "Infinity"
  | NegInf => "-Infinity"
  | Finite q =>
      if is_integer q && negb (Qle_bool (inject_Z (2 ^ 53)) (Qabs q))
      then dec (Qfloor q)
      else to_string64 q
  end.

(** [Number.prototype.toFixed] with two fraction digits: a value that is
    not finite or has magnitude at least [10^21] goes through
    [Number::toString]; otherwise the integer [n] nearest to [|x| * 100]
    (the larger one on a tie) is printed with a point before its last two
    digits. *)
Definition toFixed2 (x : number) : string :=
  match x with
  | Finite q =>
      if Qle_bool (inject_Z (10 ^ 21)) (Qabs q) then number_to_string x
      else
        let n := Qfloor (Qabs q * 100 + (1 # 2))%Q in
        (if negb (Qle_bool 0 q) then "-" else "")
          ++ dec (n / 100) ++ "."
          ++ String (digit (n mod 100 / 10)) (String (digit (n mod 10)) "")
  | _ => number_to_string x
  end.

(** The host environment of the module: what the program calls but does not
    define.  [StringToNumber] is the conversion of a string to a number;
    [formatter_distance] is [ymaps.formatter.distance]. *)
Class Host : Type := {
  StringToNumber : string -> number;
  formatter_distance : number -> string
}.

(** A formatter argument: [number | null | undefined], the type the sources
    document for [sec] and pass for [v]. *)
Inductive arg : Type :=
| ArgNull
| ArgUndefined
| ArgNum (x : number).

(** [v == null || isNaN(v)]. *)
Definition nullish_or_nan (v : arg) : bool :=
  match v with
  | ArgNull | ArgUndefined => true
  | ArgNum x => isNaN x
  end.

(** [ToNumber] on a formatter argument. *)
Definition ToNumber (v : arg) : number :=
  match v with
  | ArgNull => Finite 0
  | ArgUndefined => NaN
  | ArgNum x => x
  end.

(** [ToBoolean] on a formatter argument. *)
Definition arg_truthy (v : arg) : bool :=
  match v with
  | ArgNum NaN => false
  | ArgNum (Finite q) => negb (Qeq_bool q 0)
  | ArgNum _ => true
  | _ => false
  end.

(** [v === 0]. *)
Definition arg_is_zero (v : arg) : bool :=
  match v with
  | ArgNum (Finite q) => Qeq_bool q 0
  | _ => false
  end.

(** The em dash placeholder, U+2014. *)
Definition dash : string := "—".

(** ** Values returned by the routing provider *)

(** A JavaScript value as far as the program inspects one: its [typeof], its
    truthiness, and the data properties of a plain object. *)
#[warnings="-register-all"]
Inductive value : Type :=
| VUndefined
| VNull
| VBool (b : bool)
| VNum (x : number)
| VStr (s : string)
| VObj (fields : gmap string value).

(** [typeof v === 'number'], with the number. *)
Definition as_number (v : value) : option number :=
  match v with VNum x => Some x | _ => None end.

(** [ToBoolean]. *)
Definition truthy (v : value) : bool :=
  match v with
  | VUndefined | VNull => false
  | VBool b => b
  | VNum NaN => false
  | VNum (Finite q) => negb (Qeq_bool q 0)
  | VNum _ => true
  | VStr s => negb (String.eqb s "")
  | VObj _ => true
  end.

(** [v.k] for a truthy [v]: a primitive has neither a [value] nor a
    [duration] property. *)
Definition member (v : value) (k : string) : value :=
  match v with
  | VObj fields => default VUndefined (fields !! k)
  | _ => VUndefined
  end.

(** What a call does. *)
Inductive outcome (A : Type) : Type :=
| Returns (a : A)
| Throws.
Arguments Returns {A} a.
Arguments Throws {A}.

(** A JavaScript value of any type, as far as [v == null], [isNaN(v)] and
    [v * 100] inspect it.  An object is converted by its [valueOf] and
    [toString], which run again on each conversion: [first] and [second] are
    what the first and the second conversion to a number do. *)
Inductive operand : Type :=
| OpUndefined
| OpNull
| OpBoolean (b : bool)
| OpNumber (x : number)
| OpString (s : string)
| OpSymbol
| OpBigInt (z : Z)
| OpObject (first second : outcome number).

(** [v == null]. *)
Definition loosely_null (v : operand) : bool :=
  match v with
  | OpUndefined | OpNull => true
  | _ => false
  end.

(** [ToNumber]: a [TypeError] on a symbol and on a big integer. *)
Definition to_number {host : Host} (again : bool) (v : operand) : outcome number :=
  match v with
  | OpUndefined => Returns NaN
  | OpNull => Returns (Finite 0)
  | OpBoolean b => Returns (Finite (if b then 1 else 0))
  | OpNumber x => Returns x
  | OpString s => Returns (StringToNumber s)
  | OpSymbol | OpBigInt _ => Throws
  | OpObject first second => if again then second else first
  end.

Definition operand_of_arg (v : arg) : operand :=
  match v with
  | ArgNull => OpNull
  | ArgUndefined => OpUndefined
  | ArgNum x => OpNumber x
  end.

(** A property that the program tests with [typeof ... === 'function']
    before calling it without arguments (or with the one key ['duration']). *)
Inductive method : Type :=
| NotAFunction
| Function (call : outcome value).

(** The router object the provider resolves with.  [properties] is [None]
    when [router.properties] is falsy, and otherwise holds the [get] member
    of that object, whose call is [properties.get('duration')]. *)
Record router : Type := {
  getJamsTime : method;
  getTime : method;
  properties : option method;
  getLength : number;
  getPaths : nat
}.

(** A statement block: it returns from the enclosing function, falls through
    to the next statement, or throws. *)
Inductive block (A : Type) : Type :=
| Return (a : A)
| Next
| Throw.
Arguments Return {A} a.
Arguments Next {A}.
Arguments Throw {A}.

(** [s1; s2]. *)
Definition seq {A} (s1 s2 : block A) : block A :=
  match s1 with Next => s2 | _ => s1 end.

(** [try { s } catch (e) {}]. *)
Definition try_ {A} (s : block A) : block A :=
  match s with Throw => Next | _ => s end.

(** [s; return a]. *)
Definition or_return {A} (s : block A) (a : A) : A :=
  match s with Return b => b | _ => a end.

(** [if (typeof m === 'function') { var t = m(); if (typeof t === 'number' && t >= 0) return t; }] *)
Definition probe_accessor (m : method) : block number :=
  match m with
  | NotAFunction => Next
  | Function Throws => Throw
  | Function (Returns t) =>
      match as_number t with
      | Some x => if num_geb x (Finite 0) then Return x else Next
      | None => Next
      end
  end.

(** [if (dur && typeof dur.k === 'number') return dur.k;] *)
Definition probe_field (dur : value) (k : string) : block number :=
  if truthy dur then
    match as_number (member dur k) with
    | Some x => Return x
    | None => Next
    end
  else Next.

(** [if (router.properties && typeof router.properties.get === 'function') { ... }] *)
Definition probe_properties (p : option method) : block number :=
  match p with
  | None | Some NotAFunction => Next
  | Some (Function Throws) => Throw
  | Some (Function (Returns dur)) =>
      seq (probe_field dur "value") (probe_field dur "duration")
  end.

(** ** The calculator, the map and the page *)

(** [[lat, lon]]. *)
Definition coords : Type := Q * Q.

(** A placemark on the map, with the balloon that belongs to it. *)
Record placemark : Type := {
  geometry : coords;
  iconContent : string;
  balloonContentBody : option string;
  balloon_open : bool;
  balloon_pans : nat
}.

Definition new_Placemark (position : coords) (icon : string) : placemark :=
  {| geometry := position; iconContent := icon; balloonContentBody := None;
     balloon_open := false; balloon_pans := 0 |}.

Definition setCoordinates (position : coords) (pm : placemark) : placemark :=
  {| geometry := position; iconContent := iconContent pm;
     balloonContentBody := balloonContentBody pm;
     balloon_open := balloon_open pm; balloon_pans := balloon_pans pm |}.

Definition set_balloonContentBody (body : string) (pm : placemark) : placemark :=
  {| geometry := geometry pm; iconContent := iconContent pm;
     balloonContentBody := Some body;
     balloon_open := balloon_open pm; balloon_pans := balloon_pans pm |}.

Definition open_balloon (pm : placemark) : placemark :=
  {| geometry := geometry pm; iconContent := iconContent pm;
     balloonContentBody := balloonContentBody pm;
     balloon_open := true; balloon_pans := balloon_pans pm |}.

Definition autoPan_balloon (pm : placemark) : placemark :=
  {| geometry := geometry pm; iconContent := iconContent pm;
     balloonContentBody := balloonContentBody pm;
     balloon_open := balloon_open pm; balloon_pans := S (balloon_pans pm) |}.

Record route_style : Type := {
  strokeWidth : Z;
  strokeColor : string;
  opacity : Q
}.

(** The collection [router.getPaths()] returns, with its options. *)
Record route_object : Type := {
  paths : nat;
  options : option route_style
}.

(** A vow promise. *)
Inductive status : Type :=
| Pending
| Fulfilled
| Rejected.

(** A call of [ymaps.route([start, finish])] with what its two callbacks
    close over; [settled] once the provider has called one of them. *)
Record request : Type := {
  points : coords * coords;
  startBalloon : string;
  finishBalloon : string;
  deferred : nat;
  settled : bool
}.

Definition settle (rq : request) : request :=
  {| points := points rq; startBalloon := startBalloon rq;
     finishBalloon := finishBalloon rq; deferred := deferred rq; settled := true |}.

(** The fields of the calculator, then what it reaches: the deferreds of
    vow by address, the calls of [ymaps.route] in order, the routes on the
    map with the route the viewport is fitted to, and the text of the page's
    elements by id. *)
Record state : Type := {
  _startPoint : option placemark;
  _finishPoint : option placemark;
  _route : option route_object;
  _router : option router;
  _startPointBalloonContent : string;
  _finishPointBalloonContent : string;
  _deferred : option nat;
  deferreds : list status;
  requests : list request;
  geoObjects : list route_object;
  bounds : option nat;
  document : gmap string string
}.

Definition set_startPoint (v : option placemark) (s : state) : state :=
  {| _startPoint := v;
     _finishPoint := _finishPoint s;
     _route := _route s;
     _router := _router s;
     _startPointBalloonContent := _startPointBalloonContent s;
     _finishPointBalloonContent := _finishPointBalloonContent s;
     _deferred := _deferred s;
     deferreds := deferreds s;
     requests := requests s;
     geoObjects := geoObjects s;
     bounds := bounds s;
     document := document s |}.

Definition set_finishPoint (v : option placemark) (s : state) : state :=
  {| _startPoint := _startPoint s;
     _finishPoint := v;
     _route := _route s;
     _router := _router s;
     _startPointBalloonContent := _startPointBalloonContent s;
     _finishPointBalloonContent := _finishPointBalloonContent s;
     _deferred := _deferred s;
     deferreds := deferreds s;
     requests := requests s;
     geoObjects := geoObjects s;
     bounds := bounds s;
     document := document s |}.

Definition set_route (v : option route_object) (s : state) : state :=
  {| _startPoint := _startPoint s;
     _finishPoint := _finishPoint s;
     _route := v;
     _router := _router s;
     _startPointBalloonContent := _startPointBalloonContent s;
     _finishPointBalloonContent := _finishPointBalloonContent s;
     _deferred := _deferred s;
     deferreds := deferreds s;
     requests := requests s;
     geoObjects := geoObjects s;
     bounds := bounds s;
     document := document s |}.

Definition set_router (v : option router) (s : state) : state :=
  {| _startPoint := _startPoint s;
     _finishPoint := _finishPoint s;
     _route := _route s;
     _router := v;
     _startPointBalloonContent := _startPointBalloonContent s;
     _finishPointBalloonContent := _finishPointBalloonContent s;
     _deferred := _deferred s;
     deferreds := deferreds s;
     requests := requests s;
     geoObjects := geoObjects s;
     bounds := bounds s;
     document := document s |}.

Definition set_startPointBalloonContent (v : string) (s : state) : state :=
  {| _startPoint := _startPoint s;
     _finishPoint := _finishPoint s;
     _route := _route s;
     _router := _router s;
     _startPointBalloonContent := v;
     _finishPointBalloonContent := _finishPointBalloonContent s;
     _deferred := _deferred s;
     deferreds := deferreds s;
     requests := requests s;
     geoObjects := geoObjects s;
     bounds := bounds s;
     document := document s |}.

Definition set_finishPointBalloonContent (v : string) (s : state) : state :=
  {| _startPoint := _startPoint s;
     _finishPoint := _finishPoint s;
     _route := _route s;
     _router := _router s;
     _startPointBalloonContent := _startPointBalloonContent s;
     _finishPointBalloonContent := v;
     _deferred := _deferred s;
     deferreds := deferreds s;
     requests := requests s;
     geoObjects := geoObjects s;
     bounds := bounds s;
     document := document s |}.

Definition set_deferred (v : option nat) (s : state) : state :=
  {| _startPoint := _startPoint s;
     _finishPoint := _finishPoint s;
     _route := _route s;
     _router := _router s;
     _startPointBalloonContent := _startPointBalloonContent s;
     _finishPointBalloonContent := _finishPointBalloonContent s;
     _deferred := v;
     deferreds := deferreds s;
     requests := requests s;
     geoObjects := geoObjects s;
     bounds := bounds s;
     document := document s |}.

Definition set_deferreds (v : list status) (s : state) : state :=
  {| _startPoint := _startPoint s;
     _finishPoint := _finishPoint s;
     _route := _route s;
     _router := _router s;
     _startPointBalloonContent := _startPointBalloonContent s;
     _finishPointBalloonContent := _finishPointBalloonContent s;
     _deferred := _deferred s;
     deferreds := v;
     requests := requests s;
     geoObjects := geoObjects s;
     bounds := bounds s;
     document := document s |}.

Definition set_requests (v : list request) (s : state) : state :=
  {| _startPoint := _startPoint s;
     _finishPoint := _finishPoint s;
     _route := _route s;
     _router := _router s;
     _startPointBalloonContent := _startPointBalloonContent s;
     _finishPointBalloonContent := _finishPointBalloonContent s;
     _deferred := _deferred s;
     deferreds := deferreds s;
     requests := v;
     geoObjects := geoObjects s;
     bounds := bounds s;
     document := document s |}.

Definition set_geoObjects (v : list route_object) (s : state) : state :=
  {| _startPoint := _startPoint s;
     _finishPoint := _finishPoint s;
     _route := _route s;
     _router := _router s;
     _startPointBalloonContent := _startPointBalloonContent s;
     _finishPointBalloonContent := _finishPointBalloonContent s;
     _deferred := _deferred s;
     deferreds := deferreds s;
     requests := requests s;
     geoObjects := v;
     bounds := bounds s;
     document := document s |}.

Definition set_bounds (v : option nat) (s : state) : state :=
  {| _startPoint := _startPoint s;
     _finishPoint := _finishPoint s;
     _route := _route s;
     _router := _router s;
     _startPointBalloonContent := _startPointBalloonContent s;
     _finishPointBalloonContent := _finishPointBalloonContent s;
     _deferred := _deferred s;
     deferreds := deferreds s;
     requests := requests s;
     geoObjects := geoObjects s;
     bounds := v;
     document := document s |}.

Definition set_document (v : gmap string string) (s : state) : state :=
  {| _startPoint := _startPoint s;
     _finishPoint := _finishPoint s;
     _route := _route s;
     _router := _router s;
     _startPointBalloonContent := _startPointBalloonContent s;
     _finishPointBalloonContent := _finishPointBalloonContent s;
     _deferred := _deferred s;
     deferreds := deferreds s;
     requests := requests s;
     geoObjects := geoObjects s;
     bounds := bounds s;
     document := v |}.

(** ** Handlers: state and exceptions *)

(** The calls into the SDK and the page that the sources wrap in [try]. *)
Inductive sdk_call : Type :=
| GeoObjectsRemove
| PropertiesSet (isStart : bool)
| GetElementById (id : string)
| TextContent (id : string)
| SetBounds
| BalloonOpen
| BalloonAutoPan.

Inductive result (A : Type) : Type :=
| Done (a : A) (s : state)
| Raised (s : state).
Arguments Done {A} a s.
Arguments Raised {A} s.

Definition final {A} (r : result A) : state :=
  match r with Done _ s | Raised s => s end.

Definition M (A : Type) : Type := state -> result A.

#[export] Instance M_ret : MRet M := fun A a s => Done a s.

#[export] Instance M_bind : MBind M := fun A B k m s =>
  match m s with
  | Done a s' => k a s'
  | Raised s' => Raised s'
  end.

Definition get_state : M state := fun s => Done s s.

Definition modify (f : state -> state) : M unit := fun s => Done tt (f s).

(** [throw]. *)
Definition throw {A} : M A := fun s => Raised s.

(** [try { m } catch (e) {}]. *)
Definition try_catch (m : M unit) : M unit := fun s =>
  match m s with
  | Done a s' => Done a s'
  | Raised s' => Done tt s'
  end.

(** [if (b) m]. *)
Definition when_ (b : bool) (m : M unit) : M unit :=
  if b then m else mret tt.

Section Sdk.
(** Which of the guarded calls throw while a handler runs. *)
Variable fails : sdk_call -> bool.

Definition sdk (c : sdk_call) : M unit := fun s =>
  if fails c then Raised s else Done tt s.

(** A call [c] on [self._startPoint] or [self._finishPoint] that changes
    the placemark by [f]; a [TypeError] when the field is [null]. *)
Definition on_placemark (isStart : bool) (c : sdk_call) (f : placemark -> placemark)
  : M unit := fun s =>
  match (if isStart then _startPoint s else _finishPoint s) with
  | None => Raised s
  | Some pm =>
      if fails c then Raised s
      else Done tt ((if isStart then set_startPoint else set_finishPoint) (Some (f pm)) s)
  end.

(** [document.getElementById(id)]: whether the element exists. *)
Definition getElementById (id : string) : M bool :=
  sdk (GetElementById id);;
  s ← get_state;
  mret (bool_decide (is_Some (document s !! id))).

(** [el.textContent = text]. *)
Definition set_textContent (id : string) (text : string) : M unit :=
  sdk (TextContent id);;
  modify (fun s => set_document (<[id := text]> (document s)) s).
End Sdk.

(** *** vow *)

(** [vow.defer()]. *)
Definition vow_defer : M nat := fun s =>
  Done (length (deferreds s)) (set_deferreds (deferreds s ++ [Pending]) s).

(** [deferred.promise().isResolved()]: settled either way. *)
Definition isResolved (d : nat) : M bool := fun s =>
  Done (match deferreds s !! d with Some Pending => false | _ => true end) s.

Definition isRejected (d : nat) : M bool := fun s =>
  Done (match deferreds s !! d with Some Rejected => true | _ => false end) s.

(** A deferred changes only while pending. *)
Definition settle_deferred (d : nat) (to : status) : M unit := fun s =>
  match deferreds s !! d with
  | Some Pending => Done tt (set_deferreds (<[d := to]> (deferreds s)) s)
  | _ => Done tt s
  end.

Definition reject (d : nat) : M unit := settle_deferred d Rejected.
Definition resolve (d : nat) : M unit := settle_deferred d Fulfilled.

(** *** The map and the provider *)

Definition geoObjects_add (route : route_object) (s : state) : state :=
  set_geoObjects (geoObjects s ++ [route]) s.

Definition geoObjects_remove (route : route_object) (s : state) : state :=
  set_geoObjects (filter (fun o => paths o <> paths route) (geoObjects s)) s.

(** [ymaps.route([start, finish]).then(...)]: the request is with the provider. *)
Definition ymaps_route (rq : request) : M unit :=
  modify (fun s => set_requests (requests s ++ [rq]) s).

Definition mark_settled (i : nat) (s : state) : state :=
  set_requests (alter settle i (requests s)) s.

(** [s || '—']. *)
Definition or_dash (s : string) : string :=
  if String.eqb s "" then dash else s.

(** The double quote. *)
Definition dquote : string := String (ascii_of_nat 34) "".

(** A calculator fresh from its constructor, on a page with the elements [page]. *)
Definition init (page : gmap string string) : state :=
  {| _startPoint := None;
     _finishPoint := None;
     _route := None;
     _router := None;
     _startPointBalloonContent := "";
     _finishPointBalloonContent := "";
     _deferred := None;
     deferreds := [];
     requests := [];
     geoObjects := [];
     bounds := None;
     document := page |}.

(** What happens to a calculator: the user clicks the map or drops a
    placemark, the page calls the public methods, the provider calls back. *)
Inductive event : Type :=
| click (position : coords)
| dragend (isStart : bool) (position : coords)
| call_setPoint (which : string) (position : coords) (balloonContent : option string)
| call_setRoute (start finish : coords)
| call_clearRoute
| route_resolved (i : nat) (r : router)
| route_failed (i : nat).

(** ** DeliveryCalculatorClass.js: helpers *)

Module ClassJs.

Definition DELIVERY_TARIF : Q := 0.80%Q.
Definition MINIMUM_COST : Q := 1%Q.

Section Helpers.
Context {host : Host}.

(** [fmtMoney] on [number | null | undefined], with the exact product
    and quotient. *)
Definition fmtMoney (v : arg) : string :=
  if nullish_or_nan v then dash
  else toFixed2 (num_div (Math_round (num_mul (ToNumber v) (Finite 100))) (Finite 100)).

(** [fmtMoney] on a value of any type, with the product and the quotient
    rounded to binary64: [isNaN(v)] converts [v] to a number, and [v * 100]
    converts it once more. *)
Definition fmtMoney64 (v : operand) : outcome string :=
  if loosely_null v then Returns dash
  else
    match to_number false v with
    | Throws => Throws
    | Returns x =>
        if isNaN x then Returns dash
        else
          match to_number true v with
          | Throws => Throws
          | Returns y =>
              Returns (toFixed2 (div64 (Math_round (mul64 y (Finite 100)))
                                       (Finite 100)))
          end
    end.

(** [fmtSeconds], with the exact quotients.  [None] is JavaScript's
    [null]. *)
Definition fmtSeconds (sec : arg) : option string :=
  if nullish_or_nan sec then None
  else
    let sec := Math_max (Finite 0) (Math_floor (ToNumber sec)) in
    let h := Math_floor (num_div sec (Finite 3600)) in
    let m := Math_floor (num_div (num_rem sec (Finite 3600)) (Finite 60)) in
    Some ((if num_ltb (Finite 0) h then number_to_string h ++ " h " else "")
            ++ number_to_string m ++ " min").

(** [fmtSeconds] on a value of any type, with the quotients rounded to
    binary64: [isNaN(sec)] converts [sec] to a number, and
    [Math.floor(sec)] converts it once more.  [None] is JavaScript's
    [null]. *)
Definition fmtSeconds64 (sec : operand) : outcome (option string) :=
  if loosely_null sec then Returns None
  else
    match to_number false sec with
    | Throws => Throws
    | Returns x =>
        if isNaN x then Returns None
        else
          match to_number true sec with
          | Throws => Throws
          | Returns y =>
              let sec := Math_max (Finite 0) (Math_floor y) in
              let h := Math_floor (div64 sec (Finite 3600)) in
              let m := Math_floor (div64 (num_rem sec (Finite 3600)) (Finite 60)) in
              Returns (Some ((if num_ltb (Finite 0) h
                              then number_to_string h ++ " h " else "")
                               ++ number_to_string m ++ " min"))
          end
    end.

Definition getDurationSeconds (router : router) (lengthMeters : number) : number :=
  or_return
    (seq (try_ (seq (probe_accessor (getJamsTime router))
                    (probe_accessor (getTime router))))
         (try_ (probe_properties (properties router))))
    (* fallback 40 km/h *)
    (Math_round (mul64 (div64 (div64 lengthMeters (Finite 1000)) (Finite 40))
                       (Finite 3600))).

Definition priceForKm (kmRounded : number) : number :=
  Math_max (num_mul kmRounded (Finite DELIVERY_TARIF)) (Finite MINIMUM_COST).
End Helpers.

Section Calculator.
Context {host : Host}.
Variable fails : sdk_call -> bool.

Definition updatePanel (distanceText : string) (seconds price : arg) : M unit :=
  try_catch
    (d ← getElementById fails "distanceVal";
     t ← getElementById fails "timeVal";
     c ← getElementById fails "costVal";
     when_ d (set_textContent fails "distanceVal" (or_dash distanceText));;
     when_ t (set_textContent fails "timeVal"
                match seconds with
                | ArgNull | ArgUndefined => dash
                | _ => or_dash (default "" (fmtSeconds seconds))
                end);;
     when_ c (set_textContent fails "costVal"
                (match price with
                 | ArgNull | ArgUndefined => dash
                 | _ => fmtMoney price
                 end ++ " ₾"))).

Definition calculate (lenKm : number) : number := priceForKm lenKm.

(** The first callback of [ymaps.route(...).then], closed over the
    request [rq]. *)
Definition route_success (rq : request) (router : router) : M unit :=
  rejected ← isRejected (deferred rq);
  if rejected : bool then mret tt
  else
    (* remove previous route *)
    self ← get_state;
    match _route self with
    | Some route =>
        try_catch (sdk fails GeoObjectsRemove;; modify (geoObjects_remove route));;
        modify (set_route None)
    | None => mret tt
    end;;
    modify (set_router (Some router));;
    let lengthMeters := getLength router in
    let distanceText := formatter_distance lengthMeters in
    let kmRounded := Math_round (num_div lengthMeters (Finite 1000)) in
    let price := calculate kmRounded in
    let seconds := getDurationSeconds router lengthMeters in
    (* draw route *)
    let route :=
      {| paths := getPaths router;
         options := Some {| strokeWidth := 5; strokeColor := "0000ffff";
                            opacity := 0.5%Q |} |} in
    modify (set_route (Some route));;
    modify (geoObjects_add route);;
    (* balloons *)
    let msg :=
      "<span>Distance: " ++ distanceText ++ ".</span><br/>"
      ++ "<span style=" ++ dquote ++ "font-weight: bold; font-style: italic" ++ dquote
      ++ ">Cost of delivery: " ++ fmtMoney (ArgNum price) ++ " ₾</span>" in
    try_catch
      (on_placemark fails true (PropertiesSet true)
         (set_balloonContentBody (startBalloon rq ++ msg));;
       on_placemark fails false (PropertiesSet false)
         (set_balloonContentBody (finishBalloon rq ++ msg)));;
    (* panel *)
    updatePanel distanceText (ArgNum seconds) (ArgNum price);;
    (* fit bounds *)
    try_catch (sdk fails SetBounds;; modify (set_bounds (Some (paths route))));;
    (* open finish balloon; the pan runs once the balloon is open, and
       what it throws stays in its promise *)
    try_catch
      (on_placemark fails false BalloonOpen open_balloon;;
       try_catch (on_placemark fails false BalloonAutoPan autoPan_balloon));;
    resolve (deferred rq).

(** The second callback. *)
Definition route_failure : M unit :=
  try_catch
    (on_placemark fails false (PropertiesSet false)
       (set_balloonContentBody "Can't build route");;
     on_placemark fails false BalloonOpen open_balloon;;
     on_placemark fails false BalloonAutoPan autoPan_balloon).

Definition _setupRoute : M unit :=
  self ← get_state;
  match _startPoint self, _finishPoint self with
  | Some startPoint, Some finishPoint =>
      let start := geometry startPoint in
      let finish := geometry finishPoint in
      let startBalloon := _startPointBalloonContent self in
      let finishBalloon := _finishPointBalloonContent self in
      match _deferred self with
      | Some previous =>
          resolved ← isResolved previous;
          when_ (negb resolved) (reject previous)
      | None => mret tt
      end;;
      deferred ← vow_defer;
      modify (set_deferred (Some deferred));;
      ymaps_route {| points := (start, finish); startBalloon := startBalloon;
                     finishBalloon := finishBalloon; deferred := deferred;
                     settled := false |}
  | _, _ => mret tt
  end.

Definition setPoint (which : string) (position : coords)
    (balloonContent : option string) : M unit :=
  let isStart := String.eqb which "start" in
  self ← get_state;
  match (if isStart then _startPoint self else _finishPoint self) with
  | None =>
      let pm := new_Placemark position (if isStart then "A" else "B") in
      modify ((if isStart then set_startPoint else set_finishPoint) (Some pm))
  | Some pm =>
      modify ((if isStart then set_startPoint else set_finishPoint)
                (Some (setCoordinates position pm)))
  end;;
  match balloonContent with
  | Some text =>
      modify ((if isStart then set_startPointBalloonContent
               else set_finishPointBalloonContent) text)
  | None => mret tt
  end;;
  (* auto build route when we have both points *)
  self ← get_state;
  match _startPoint self, _finishPoint self with
  | Some _, Some _ => _setupRoute
  | _, _ => mret tt
  end.

Definition setRoute (start finish : coords) : M unit :=
  setPoint "start" start None;;
  setPoint "finish" finish None.

Definition _onClick (pos : coords) : M unit :=
  self ← get_state;
  match _startPoint self, _finishPoint self with
  | None, _ => setPoint "start" pos None
  | Some _, None => setPoint "finish" pos None
  | Some _, Some _ => setPoint "finish" pos None
  end.

(** The handler an event runs.  A placemark is dragged only once it
    exists, [clearRoute] is not a method of this file (the call is a
    [TypeError] in the caller), and the provider settles a request once. *)
Definition handler (e : event) : M unit :=
  match e with
  | click pos => _onClick pos
  | dragend isStart pos =>
      self ← get_state;
      match (if isStart then _startPoint self else _finishPoint self) with
      | Some pm =>
          modify ((if isStart then set_startPoint else set_finishPoint)
                    (Some (setCoordinates pos pm)));;
          _setupRoute
      | None => mret tt
      end
  | call_setPoint which pos balloonContent => setPoint which pos balloonContent
  | call_setRoute start finish => setRoute start finish
  | call_clearRoute => throw
  | route_resolved i router =>
      self ← get_state;
      match requests self !! i with
      | Some rq =>
          if settled rq then mret tt
          else modify (mark_settled i);; route_success rq router
      | None => mret tt
      end
  | route_failed i =>
      self ← get_state;
      match requests self !! i with
      | Some rq =>
          if settled rq then mret tt
          else modify (mark_settled i);; route_failure
      | None => mret tt
      end
  end.

(** An exception that leaves a handler ends it; the state stays as the
    handler left it. *)
Definition step (e : event) (s : state) : state := final (handler e s).
End Calculator.

(** The events of a session, each with the calls that throw while its
    handler runs. *)
Definition run {host : Host} (trace : list ((sdk_call -> bool) * event)) (s : state)
  : state :=
  fold_left (fun s fe => step (fst fe) (snd fe) s) trace s.

End ClassJs.
(** ** unnamed/part_000: helpers *)

Module Part000.

Definition DELIVERY_TARIF : Q := 20%Q.
Definition MINIMUM_COST : Q := 500%Q.

Section Helpers.
Context {host : Host}.

(** [formatSecondsToHm], with the exact quotients. *)
Definition formatSecondsToHm (sec : arg) : option string :=
  if nullish_or_nan sec then None
  else
    let sec := Math_max (Finite 0) (Math_floor (ToNumber sec)) in
    let h := Math_floor (num_div sec (Finite 3600)) in
    let m := Math_floor (num_div (num_rem sec (Finite 3600)) (Finite 60)) in
    Some ((if num_ltb (Finite 0) h then number_to_string h ++ " h " else "")
            ++ number_to_string m ++ " min").

(** [formatSecondsToHm] on a value of any type, with the quotients rounded to
    binary64: [isNaN(sec)] converts [sec] to a number, and
    [Math.floor(sec)] converts it once more.  [None] is JavaScript's
    [null]. *)
Definition formatSecondsToHm64 (sec : operand) : outcome (option string) :=
  if loosely_null sec then Returns None
  else
    match to_number false sec with
    | Throws => Throws
    | Returns x =>
        if isNaN x then Returns None
        else
          match to_number true sec with
          | Throws => Throws
          | Returns y =>
              let sec := Math_max (Finite 0) (Math_floor y) in
              let h := Math_floor (div64 sec (Finite 3600)) in
              let m := Math_floor (div64 (num_rem sec (Finite 3600)) (Finite 60)) in
              Returns (Some ((if num_ltb (Finite 0) h
                              then number_to_string h ++ " h " else "")
                               ++ number_to_string m ++ " min"))
          end
    end.

Definition getDurationSeconds (router : router) (lengthMeters : number) : number :=
  or_return
    (seq (* 1) Direct methods *)
         (try_ (seq (probe_accessor (getJamsTime router))
                    (probe_accessor (getTime router))))
         (* 2) Properties blob *)
         (try_ (probe_properties (properties router))))
    (* 3) Fallback: assume 40 km/h average speed *)
    (let avgKmh := Finite 40 in
     let seconds :=
       Math_round (mul64 (div64 (div64 lengthMeters (Finite 1000)) avgKmh)
                         (Finite 3600)) in
     seconds).

Definition buildPrice (kmRounded : number) : number :=
  Math_max (num_mul kmRounded (Finite DELIVERY_TARIF)) (Finite MINIMUM_COST).
End Helpers.

Section Calculator.
Context {host : Host}.
Variable fails : sdk_call -> bool.

Definition updatePanel (distanceText : string) (price seconds : arg) : M unit :=
  try_catch
    (dEl ← getElementById fails "distanceVal";
     tEl ← getElementById fails "timeVal";
     cEl ← getElementById fails "costVal";
     when_ dEl (set_textContent fails "distanceVal" (or_dash distanceText));;
     when_ tEl (set_textContent fails "timeVal"
                  (if arg_truthy seconds || arg_is_zero seconds
                   then or_dash (default "" (formatSecondsToHm seconds))
                   else dash));;
     when_ cEl (set_textContent fails "costVal"
                  (match price with
                   | ArgNull | ArgUndefined => dash
                   | ArgNum x => number_to_string x
                   end ++ " ₾"))).

Definition clearRoute : M unit :=
  self ← get_state;
  match _route self with
  | Some route =>
      try_catch (sdk fails GeoObjectsRemove;; modify (geoObjects_remove route));;
      modify (set_route None)
  | None => mret tt
  end;;
  modify (set_router None).

(** The first callback of [ymaps.route(...).then], closed over the
    request [rq]. *)
Definition route_success (rq : request) (router : router) : M unit :=
  rejected ← isRejected (deferred rq);
  if rejected : bool then mret tt
  else
    (* Remove previous route *)
    clearRoute;;
    (* Save router *)
    modify (set_router (Some router));;
    (* Compute stats *)
    let lengthMeters := getLength router in
    let distanceText := formatter_distance lengthMeters in
    let kmRounded := Math_round (num_div lengthMeters (Finite 1000)) in
    let price := buildPrice kmRounded in
    let seconds := getDurationSeconds router lengthMeters in
    (* Draw route *)
    let route :=
      {| paths := getPaths router;
         options := Some {| strokeWidth := 5; strokeColor := "0000ffff";
                            opacity := 0.5%Q |} |} in
    modify (set_route (Some route));;
    modify (geoObjects_add route);;
    (* Update balloons *)
    let message :=
      "<span>Distance: " ++ distanceText ++ ".</span><br/>"
      ++ "<span style=" ++ dquote ++ "font-weight: bold; font-style: italic" ++ dquote
      ++ ">Cost of delivery: " ++ number_to_string price ++ " ₾</span>" in
    try_catch
      (on_placemark fails true (PropertiesSet true)
         (set_balloonContentBody (startBalloon rq ++ message));;
       on_placemark fails false (PropertiesSet false)
         (set_balloonContentBody (finishBalloon rq ++ message)));;
    (* Open finish balloon; the pan runs once the balloon is open, and
       what it throws stays in its promise *)
    try_catch
      (on_placemark fails false BalloonOpen open_balloon;;
       try_catch (on_placemark fails false BalloonAutoPan autoPan_balloon));;
    (* Update info panel *)
    updatePanel distanceText (ArgNum price) (ArgNum seconds);;
    (* Fit bounds *)
    try_catch (sdk fails SetBounds;; modify (set_bounds (Some (paths route))));;
    resolve (deferred rq).

(** The second callback: route failure. *)
Definition route_failure : M unit :=
  try_catch
    (on_placemark fails false (PropertiesSet false)
       (set_balloonContentBody "Can't build route");;
     on_placemark fails false BalloonOpen open_balloon;;
     on_placemark fails false BalloonAutoPan autoPan_balloon).

Definition _setupRoute : M unit :=
  self ← get_state;
  match _startPoint self, _finishPoint self with
  | Some startPoint, Some finishPoint =>
      let start := geometry startPoint in
      let finish := geometry finishPoint in
      let startBalloon := _startPointBalloonContent self in
      let finishBalloon := _finishPointBalloonContent self in
      (* Cancel previous async if pending *)
      match _deferred self with
      | Some previous =>
          resolved ← isResolved previous;
          when_ (negb resolved) (reject previous)
      | None => mret tt
      end;;
      deferred ← vow_defer;
      modify (set_deferred (Some deferred));;
      ymaps_route {| points := (start, finish); startBalloon := startBalloon;
                     finishBalloon := finishBalloon; deferred := deferred;
                     settled := false |}
  | _, _ => mret tt
  end.

Definition setPoint (role : string) (position : coords)
    (balloonContent : option string) : M unit :=
  let isStart := String.eqb role "start" in
  self ← get_state;
  match (if isStart then _startPoint self else _finishPoint self) with
  | None =>
      let point := new_Placemark position (if isStart then "A" else "B") in
      modify ((if isStart then set_startPoint else set_finishPoint) (Some point))
  | Some point =>
      modify ((if isStart then set_startPoint else set_finishPoint)
                (Some (setCoordinates position point)))
  end;;
  match balloonContent with
  | Some text =>
      modify ((if isStart then set_startPointBalloonContent
               else set_finishPointBalloonContent) text)
  | None => mret tt
  end.

Definition setRoute (start finish : coords) : M unit :=
  setPoint "start" start None;;
  setPoint "finish" finish None;;
  _setupRoute.

Definition _onClick (pos : coords) : M unit :=
  self ← get_state;
  match _startPoint self, _finishPoint self with
  | None, _ => setPoint "start" pos None
  | Some _, None => setPoint "finish" pos None
  | Some _, Some _ => setPoint "finish" pos None
  end;;
  _setupRoute.

(** The handler an event runs.  A placemark is dragged only once it
    exists, and the provider settles a request once. *)
Definition handler (e : event) : M unit :=
  match e with
  | click pos => _onClick pos
  | dragend isStart pos =>
      self ← get_state;
      match (if isStart then _startPoint self else _finishPoint self) with
      | Some point =>
          modify ((if isStart then set_startPoint else set_finishPoint)
                    (Some (setCoordinates pos point)));;
          _setupRoute
      | None => mret tt
      end
  | call_setPoint role pos balloonContent => setPoint role pos balloonContent
  | call_setRoute start finish => setRoute start finish
  | call_clearRoute => clearRoute
  | route_resolved i router =>
      self ← get_state;
      match requests self !! i with
      | Some rq =>
          if settled rq then mret tt
          else modify (mark_settled i);; route_success rq router
      | None => mret tt
      end
  | route_failed i =>
      self ← get_state;
      match requests self !! i with
      | Some rq =>
          if settled rq then mret tt
          else modify (mark_settled i);; route_failure
      | None => mret tt
      end
  end.

(** An exception that leaves a handler ends it; the state stays as the
    handler left it. *)
Definition step (e : event) (s : state) : state := final (handler e s).
End Calculator.

(** The events of a session, each with the calls that throw while its
    handler runs. *)
Definition run {host : Host} (trace : list ((sdk_call -> bool) * event)) (s : state)
  : state :=
  fold_left (fun s fe => step (fst fe) (snd fe) s) trace s.

End Part000.
(** * Vocabulary of the specification *)

Local Open Scope Z_scope.

(** A host for running the model on concrete inputs: its only numeral is
    the empty string. *)
Definition sample_host : Host :=
  {| StringToNumber := fun s => if String.eqb s "" then Finite 0 else NaN;
     formatter_distance := fun x =>
       match x with
       | Finite q => dec (Qfloor q) ++ " m"
       | _ => "?"
       end |}.


(** The text for [s] whole seconds: the hours, written as the language
    writes a number, and the minutes below the hour; no hour part when there
    is no full hour. *)
Definition duration_text (s : Z) : string :=
  let hours := s / 3600 in
  let minutes := s mod 3600 / 60 in
  if 1 <=? hours
  then number_to_string (Finite (inject_Z hours)) ++ " h " ++ dec minutes ++ " min"
  else dec minutes ++ " min".

(** ["<H> h <M> min"], and ["<M> min"] when there is no full hour. *)
Definition hours_and_minutes (H M : Z) : string :=
  if 1 <=? H then dec H ++ " h " ++ dec M ++ " min" else dec M ++ " min".

(** C5 as the specification words it: a result on every input; [null] on
    [null], [undefined] and [NaN], and on every other input the hours and
    minutes of its whole seconds. *)
Definition formats_durations_as_claimed {host : Host}
    (formatDuration : operand -> outcome (option string)) : Prop :=
  forall v, exists r,
    formatDuration v = Returns r
    /\ if loosely_null v then r = None
       else forall x, to_number false v = Returns x ->
              match x with
              | NaN => r = None
              | Finite q =>
                  let s := Z.max 0 (Qfloor q) in
                  r = Some (hours_and_minutes (s / 3600) (s mod 3600 / 60))
              | _ => exists H M, 0 <= H /\ 0 <= M < 60
                                 /\ r = Some (hours_and_minutes H M)
              end.

(** The first binary64 number of seconds whose quotient by [3600] the
    language rounds up to the next hour: 16 seconds short of [2^46 + 1]
    hours. *)
Definition first_lost_hour : Z := 3600 * 2 ^ 46 + 3584.

(** C5 as amended: an exception only from the conversion of the input to a
    number; [null] on [null], [undefined] and what converts to [NaN]; on
    what converts to a binary64 number below [first_lost_hour], the hours
    and minutes of its whole seconds, clamped at zero; ["0 min"] on the
    negative infinity; on the positive infinity a text without minutes; and
    the four results that the specification lists. *)
Definition formats_durations {host : Host}
    (formatDuration : operand -> outcome (option string)) : Prop :=
  (forall v,
     (formatDuration v = Throws <->
        loosely_null v = false
        /\ (to_number false v = Throws
            \/ exists x, to_number false v = Returns x /\ isNaN x = false
                         /\ to_number true v = Throws))
     /\ (loosely_null v = true -> formatDuration v = Returns None)
     /\ (loosely_null v = false -> to_number false v = Returns NaN ->
         formatDuration v = Returns None)
     /\ (forall x y,
           loosely_null v = false -> to_number false v = Returns x -> isNaN x = false ->
           to_number true v = Returns y ->
           match y with
           | Finite q =>
               representable q ->
               Z.max 0 (Qfloor q) < first_lost_hour ->
               formatDuration v
               = Returns (Some (hours_and_minutes (Z.max 0 (Qfloor q) / 3600)
                                                  (Z.max 0 (Qfloor q) mod 3600 / 60)))
           | NegInf => formatDuration v = Returns (Some "0 min")
           | PosInf => formatDuration v = Returns (Some "Infinity h NaN min")
           | NaN => formatDuration v = Returns (Some "NaN min")
           end))
  /\ formatDuration (OpNumber (Finite 0)) = Returns (Some "0 min")
  /\ formatDuration (OpNumber (Finite 3661)) = Returns (Some "1 h 1 min")
  /\ formatDuration (OpNumber (Finite (-5))) = Returns (Some "0 min")
  /\ formatDuration OpNull = Returns None.



(** [k] hundredths written with exactly two decimal digits. *)
Definition money_text (k : Z) : string :=
  (if k <? 0 then "-" else "")
    ++ dec (Z.abs k / 100) ++ "."
    ++ String (digit (Z.abs k mod 100 / 10)) (String (digit (Z.abs k mod 10)) "").


(** The rounding error of the product [q * 100]. *)
Definition one_rounding (q : Q) : Q := (Qabs (q * 100) * epsilon)%Q.

(** [q * 100] is farther than one rounding error from the ties around it. *)
Definition clear_of_ties (q : Q) : Prop :=
  let k := inject_Z (Qfloor (q * 100 + (1 # 2))) in
  (k - (1 # 2) + one_rounding q < q * 100
   /\ q * 100 < k + (1 # 2) - one_rounding q)%Q.




(** An object whose first conversion to a number gives [1] and whose second
    gives [NaN]. *)
Definition fickle : operand := OpObject (Returns (Finite 1)) (Returns NaN).



(** C7 as the specification words it: the probes in their order, the first
    non-negative number among their results, and otherwise the duration of
    the distance at 40 km/h.  A probe that is missing or throws has no
    result. *)
Definition usable (v : value) : option number :=
  match as_number v with
  | Some x => if num_geb x (Finite 0) then Some x else None
  | None => None
  end.

Definition result_of (m : method) : value :=
  match m with
  | Function (Returns v) => v
  | _ => VUndefined
  end.

Definition duration_property (r : router) : value :=
  match properties r with
  | Some get => result_of get
  | None => VUndefined
  end.

Definition probes (r : router) : list value :=
  [ result_of (getJamsTime r);
    result_of (getTime r);
    member (duration_property r) "value";
    member (duration_property r) "duration" ].

Definition at_40_kmh (lengthMeters : number) : number :=
  Math_round (mul64 (div64 (div64 lengthMeters (Finite 1000)) (Finite 40))
                     (Finite 3600)).

Definition duration_as_claimed (r : router) (lengthMeters : number) : number :=
  match omap usable (probes r) with
  | x :: _ => x
  | [] => at_40_kmh lengthMeters
  end.

(** A router whose only duration is the negative [value] of its
    ['duration'] property. *)
Definition router_negative_value : router :=
  {| getJamsTime := NotAFunction;
     getTime := NotAFunction;
     properties := Some (Function (Returns (VObj {[ "value" := VNum (Finite (-5)) ]})));
     getLength := Finite 12345;
     getPaths := 0%nat |}.

(** A router with a working [getTime] behind a throwing [getJamsTime]. *)
Definition router_throwing_jams : router :=
  {| getJamsTime := Function Throws;
     getTime := Function (Returns (VNum (Finite 100)));
     properties := None;
     getLength := Finite 12345;
     getPaths := 0%nat |}.

(** A router whose ['duration'] property has the field [duration], not [value]. *)
Definition router_negative_duration : router :=
  {| getJamsTime := NotAFunction;
     getTime := Function (Returns (VStr "soon"));
     properties := Some (Function (Returns (VObj {[ "duration" := VNum (Finite (-1)) ]})));
     getLength := Finite 2000;
     getPaths := 0%nat |}.

(** The fields of the ['duration'] property hold no negative number and no [NaN]. *)
Definition fields_usable (r : router) : Prop :=
  forall k x, as_number (member (duration_property r) k) = Some x ->
              num_geb x (Finite 0) = true.


(** *** Sessions *)

(** No guarded call throws. *)
Definition no_faults : sdk_call -> bool := fun _ => false.

(** A page with the three slots of the info panel. *)
Definition sample_page : gmap string string :=
  {[ "distanceVal" := dash; "timeVal" := dash; "costVal" := dash ]}.

Definition point_a : coords := (41.70, 44.78)%Q.
Definition point_b : coords := (41.72, 44.80)%Q.
Definition point_c : coords := (41.75, 44.85)%Q.

(** Three clicks: the second issues request 0, the third supersedes it
    with request 1. *)
Definition two_requests : list ((sdk_call -> bool) * event) :=
  [ (no_faults, click point_a); (no_faults, click point_b); (no_faults, click point_c) ].

(** A router for a route of 12345 m that takes 900 s in traffic. *)
Definition sample_router : router :=
  {| getJamsTime := Function (Returns (VNum (Finite 900)));
     getTime := NotAFunction;
     properties := None;
     getLength := Finite 12345;
     getPaths := 7%nat |}.

(** What the user sees: the placemarks with their balloons, the routes on
    the map, the viewport and the page. *)
Definition ui (s : state)
  : option placemark * option placemark * list route_object * option nat
    * gmap string string :=
  (_startPoint s, _finishPoint s, geoObjects s, bounds s, document s).

(** The request [i] is live: the provider has not settled it and its
    deferred is the calculator's current one. *)
Definition live (s : state) (i : nat) : Prop :=
  exists rq, requests s !! i = Some rq
             /\ settled rq = false
             /\ _deferred s = Some (deferred rq).

(** The request [i] is superseded: the provider has not settled it and its
    deferred has been rejected. *)
Definition superseded (s : state) (i : nat) : Prop :=
  exists rq, requests s !! i = Some rq
             /\ settled rq = false
             /\ deferreds s !! deferred rq = Some Rejected.

(** Clicks as events, each with the calls that throw while it is handled. *)
Definition clicks (l : list ((sdk_call -> bool) * coords))
  : list ((sdk_call -> bool) * event) :=
  (fun fp => (fst fp, click (snd fp))) <$> l.

(** What C8 says of the state [s] after the clicks [first :: rest]: the
    start placemark is where the first click was, the finish placemark is
    where the last of the other clicks was (there is none after one click),
    and each click after the first has asked the provider for the route from
    the start to its position. *)
Definition clicked (first : coords) (rest : list coords) (s : state) : Prop :=
  (geometry <$> _startPoint s) = Some first
  /\ (geometry <$> _finishPoint s) = last rest
  /\ (points <$> requests s) = (fun p => (first, p)) <$> rest.

(** A handler keeps [I] when [I] holds where the handler stops, normally
    or by an exception, if it held where it started. *)
Definition keeps (I : state -> Prop) {A} (m : M A) : Prop :=
  forall s, I s -> I (final (m s)).

(** Requests are asked for only between two placemarks. *)
Definition requests_have_points (s : state) : Prop :=
  requests s = [] \/ (is_Some (_startPoint s) /\ is_Some (_finishPoint s)).

(** A state some session reaches from a fresh calculator. *)
Definition reachable_ClassJs {host : Host} (s : state) : Prop :=
  exists page trace, s = ClassJs.run trace (init page).

Definition reachable_Part000 {host : Host} (s : state) : Prop :=
  exists page trace, s = Part000.run trace (init page).

(** C2 for one run of a failure callback, from [s] to [s'] under the
    faults [fails]: the finish balloon has the message and is open as far as
    the SDK took the calls, and nothing else that C2 names has changed. *)
Definition failure_shown (fails : sdk_call -> bool) (s s' : state) : Prop :=
  (exists pm, _finishPoint s' = Some pm
     /\ (fails (PropertiesSet false) = false ->
         balloonContentBody pm = Some "Can't build route"
         /\ (fails BalloonOpen = false -> balloon_open pm = true)))
  /\ length (requests s') = length (requests s)
  /\ _deferred s' = _deferred s
  /\ deferreds s' = deferreds s
  /\ document s' = document s
  /\ geoObjects s' = geoObjects s
  /\ _startPoint s' = _startPoint s.

(** What the calculator relies on to tell a stale result from a live one:
    every request has a deferred of its own among the allocated ones, and a
    request that the provider has not settled either has a rejected deferred
    or is the current request, still pending. *)
Record well_tracked (s : state) : Prop := {
  tracked_allocated :
    forall i rq, requests s !! i = Some rq -> (deferred rq < length (deferreds s))%nat;
  tracked_distinct :
    forall i j rq rq', requests s !! i = Some rq -> requests s !! j = Some rq' ->
                       deferred rq = deferred rq' -> i = j;
  tracked_unsettled :
    forall i rq, requests s !! i = Some rq -> settled rq = false ->
                 deferreds s !! deferred rq = Some Rejected
                 \/ (deferreds s !! deferred rq = Some Pending
                     /\ _deferred s = Some (deferred rq))
}.

(** [well_tracked] while the success callback of the request with the
    deferred [d] runs: that request is settled already. *)
Definition tracked_during (d : nat) (s : state) : Prop :=
  well_tracked s
  /\ forall i rq, requests s !! i = Some rq -> deferred rq = d -> settled rq = true.

(** The part of the state that [well_tracked] reads. *)
Definition tracking (s : state) : list request * list status * option nat :=
  (requests s, deferreds s, _deferred s).

(** The deferreds once [_setupRoute] has cancelled the previous request. *)
Definition after_cancel (s : state) : list status :=
  match _deferred s with
  | Some previous =>
      match deferreds s !! previous with
      | Some Pending => <[previous := Rejected]> (deferreds s)
      | _ => deferreds s
      end
  | None => deferreds s
  end.


(** A handler that ends normally from every state: no exception leaves it. *)
Definition returns {A} (m : M A) : Prop :=
  forall s, exists a s', m s = Done a s'.

(** The request [i] is pending: the provider has not settled it and its
    deferred has not been rejected. *)
Definition pending (s : state) (i : nat) : Prop :=
  exists rq, requests s !! i = Some rq
             /\ settled rq = false
             /\ deferreds s !! deferred rq = Some Pending.

(** From [s] to [s'] the route has been asked for again, [from] one
    position [to] another: one request more, which is live and pending, and
    every request that the provider had not settled is superseded. *)
Definition retriggered (s s' : state) (from to : coords) : Prop :=
  (exists rq, requests s' = (requests s ++ [rq])%list /\ points rq = (from, to))
  /\ live s' (length (requests s))
  /\ pending s' (length (requests s))
  /\ forall i rq, requests s !! i = Some rq -> settled rq = false -> superseded s' i.

(** The ids of the info panel's slots. *)
Definition panel_ids : list string := ["distanceVal"; "timeVal"; "costVal"].

(** From [s] to [s'] nothing has changed but the text of slots of the
    info panel that exist: no element has appeared or disappeared. *)
Definition panel_only (s s' : state) : Prop :=
  s' = set_document (document s') s
  /\ (forall id, id ∉ panel_ids -> document s' !! id = document s !! id)
  /\ (forall id, is_Some (document s' !! id) <-> is_Some (document s !! id)).

(** The collection that the success callback draws for the router [r]. *)
Definition drawn_route (r : router) : route_object :=
  {| paths := getPaths r;
     options := Some {| strokeWidth := 5; strokeColor := "0000ffff"; opacity := 0.5%Q |} |}.

(** The map shows the routes [shown] and the calculator holds [held]. *)
Definition shows (shown : list route_object) (held : option route_object) (s : state)
  : Prop :=
  geoObjects s = shown /\ _route s = held.

(** The map shows the route that the calculator holds, and no other. *)
Definition one_route (s : state) : Prop :=
  geoObjects s = match _route s with Some route => [route] | None => [] end.

(** In no step of the session does [geoObjects.remove] throw. *)
Definition removal_works (trace : list ((sdk_call -> bool) * event)) : Prop :=
  Forall (fun fe => fst fe GeoObjectsRemove = false) trace.

(** The routes on the map once the success callback has tried to remove
    the route that the calculator held. *)
Definition after_removal (fails : sdk_call -> bool) (s : state) : list route_object :=
  match _route s with
  | Some old =>
      if fails GeoObjectsRemove then geoObjects s
      else filter (fun o => paths o <> paths old) (geoObjects s)
  | None => geoObjects s
  end.

(** The text that the success callback appends to the balloons. *)
Definition balloon_message (distanceText cost : string) : string :=
  "<span>Distance: " ++ distanceText ++ ".</span><br/>"
  ++ "<span style=" ++ dquote ++ "font-weight: bold; font-style: italic" ++ dquote
  ++ ">Cost of delivery: " ++ cost ++ " ₾</span>".

(** From [s] to [s'] the result of the request [rq], the router [r], has
    been shown with the cost text [cost]: the deferred of the request is
    fulfilled, the router is kept, the viewport is fitted to its route, both
    balloons end in the message, the finish balloon is open, and the cost
    slot, if the page has one, shows the cost. *)
Definition result_shown {host : Host} (cost : string) (rq : request) (r : router)
    (s s' : state) : Prop :=
  let message := balloon_message (formatter_distance (getLength r)) cost in
  deferreds s' !! deferred rq = Some Fulfilled
  /\ _router s' = Some r
  /\ bounds s' = Some (getPaths r)
  /\ (balloonContentBody <$> _startPoint s') = Some (Some (startBalloon rq ++ message))
  /\ (balloonContentBody <$> _finishPoint s') = Some (Some (finishBalloon rq ++ message))
  /\ (balloon_open <$> _finishPoint s') = Some true
  /\ (is_Some (document s !! "costVal") ->
      document s' !! "costVal" = Some (cost ++ " ₾")).

(** [if (el) el.textContent = text], for an element looked up on [page]. *)
Definition fill (page : gmap string string) (id text : string)
    (doc : gmap string string) : gmap string string :=
  if bool_decide (is_Some (page !! id)) then <[id := text]> doc else doc.
(** * Properties *)

(** ** Arithmetic of the number model *)

Lemma num_leb_refl_finite (q : Q) : num_leb (Finite q) (Finite q) = true.
Proof. cbn. apply Qle_bool_iff. apply Qle_refl. Qed.



(** ** Pricing *)






(** ** Binary64 arithmetic *)

Lemma pow2_pos (e : Z) : (0 < 2 ^ e)%Q.
Proof. apply Qpower_0_lt. reflexivity. Qed.

Lemma pow2_Z (n : Z) : 0 <= n -> (2 ^ n == inject_Z (2 ^ n))%Q.
Proof. intros H. now rewrite (Zpower_Qpower 2 n H). Qed.

Lemma Qabs_fraction (q : Q) :
  (Qabs q == inject_Z (Z.abs (Qnum q)) / inject_Z (Z.pos (Qden q)))%Q.
Proof.
  destruct q as [n d]. unfold Qabs, Qeq, Qdiv, Qmult, Qinv, inject_Z. cbn [Qnum Qden].
  lia.
Qed.

Lemma fraction_lt (a b c d : Z) :
  0 < b -> 0 < d -> a * d < c * b ->
  (inject_Z a / inject_Z b < inject_Z c / inject_Z d)%Q.
Proof.
  intros Hb Hd H. destruct b as [|b|b]; try lia. destruct d as [|d|d]; try lia.
  unfold Qlt, Qdiv, Qmult, Qinv, inject_Z. cbn [Qnum Qden]. lia.
Qed.

Lemma fraction_le (a b c d : Z) :
  0 < b -> 0 < d -> a * d <= c * b ->
  (inject_Z a / inject_Z b <= inject_Z c / inject_Z d)%Q.
Proof.
  intros Hb Hd H. destruct b as [|b|b]; try lia. destruct d as [|d|d]; try lia.
  unfold Qle, Qdiv, Qmult, Qinv, inject_Z. cbn [Qnum Qden]. lia.
Qed.

Lemma floor_log2_spec (q : Q) :
  ~ (q == 0)%Q -> (2 ^ floor_log2 q <= Qabs q /\ Qabs q < 2 ^ (floor_log2 q + 1))%Q.
Proof.
  intros Hq. unfold floor_log2.
  set (a := Z.abs (Qnum q)). set (b := Z.pos (Qden q)).
  assert (Ha : 0 < a).
  { unfold a. destruct q as [n d]. unfold Qeq in Hq. cbn in *. lia. }
  assert (Hb : 0 < b) by (unfold b; lia).
  pose proof (Z.log2_spec a Ha) as [Ha1 Ha2].
  pose proof (Z.log2_spec b Hb) as [Hb1 Hb2].
  pose proof (Z.log2_nonneg a) as Hla. pose proof (Z.log2_nonneg b) as Hlb.
  set (la := Z.log2 a) in *. set (lb := Z.log2 b) in *.
  assert (Eq : (Qabs q == inject_Z a / inject_Z b)%Q) by apply Qabs_fraction.
  assert (P1 : 0 < 2 ^ lb) by (apply Z.pow_pos_nonneg; lia).
  assert (P2 : 0 < 2 ^ (lb + 1)) by (apply Z.pow_pos_nonneg; lia).
  assert (Hup : (Qabs q < 2 ^ (la - lb + 1))%Q).
  { replace (la - lb + 1) with ((la + 1) - lb) by lia.
    rewrite Qpower_minus by discriminate.
    rewrite (pow2_Z (la + 1)), (pow2_Z lb), Eq by lia.
    apply fraction_lt; [lia | lia |].
    replace (Z.succ la) with (la + 1) in Ha2 by lia. nia. }
  assert (Hlo : (2 ^ (la - lb - 1) <= Qabs q)%Q).
  { replace (la - lb - 1) with (la - (lb + 1)) by lia.
    rewrite Qpower_minus by discriminate.
    rewrite (pow2_Z la), (pow2_Z (lb + 1)), Eq by lia.
    apply fraction_le; [lia | lia |].
    replace (Z.succ lb) with (lb + 1) in Hb2 by lia. nia. }
  destruct (Qle_bool (2 ^ (la - lb)) (Qabs q)) eqn:E.
  - apply Qle_bool_iff in E. split; [exact E | exact Hup].
  - split; [exact Hlo|].
    replace (la - lb - 1 + 1) with (la - lb) by lia.
    apply Qnot_le_lt. intros H. apply Qle_bool_iff in H. congruence.
Qed.

Lemma round_half_even_error (x : Q) :
  (Qabs (inject_Z (round_half_even x) - x) <= 1 # 2)%Q.
Proof.
  unfold round_half_even.
  pose proof (Qfloor_le x) as Hlo. pose proof (Qlt_floor x) as Hhi.
  set (f := Qfloor x) in *.
  rewrite inject_Z_plus in Hhi. change (inject_Z 1) with 1%Q in Hhi.
  apply Qabs_Qle_condition.
  destruct (Qcompare_spec (x - inject_Z f) (1 # 2)) as [E|E|E].
  - destruct (Z.even f); rewrite ?inject_Z_plus; change (inject_Z 1) with 1%Q; split; lra.
  - split; lra.
  - rewrite inject_Z_plus. change (inject_Z 1) with 1%Q. split; lra.
Qed.

Lemma tiny_pos : (0 < tiny)%Q.
Proof. apply pow2_pos. Qed.

Lemma scaled_rounding (a P : Q) :
  (0 < P)%Q ->
  (Qabs (inject_Z (round_half_even (a / P)) * P - a) <= (1 # 2) * P)%Q.
Proof.
  intros HP. pose proof (round_half_even_error (a / P)) as H.
  apply Qabs_Qle_condition in H. apply Qabs_Qle_condition.
  set (m := inject_Z (round_half_even (a / P))) in *.
  assert (E : (m * P - a == (m - a / P) * P)%Q) by (field; lra).
  rewrite E. set (d := (m - a / P)%Q) in *. clearbody d. destruct H as [H1 H2].
  assert (Hp : (0 <= P)%Q) by lra.
  pose proof (Qmult_le_compat_r _ _ P H1 Hp) as F1.
  pose proof (Qmult_le_compat_r _ _ P H2 Hp) as F2.
  set (X := (d * P)%Q) in *. clearbody X. split; lra.
Qed.

Lemma rounded_nonneg (a P : Q) :
  (0 <= a)%Q -> (0 < P)%Q -> 0 <= round_half_even (a / P).
Proof.
  intros Ha HP. pose proof (round_half_even_error (a / P)) as H.
  apply Qabs_Qle_condition in H. destruct H as [H _].
  assert (Ht : (0 <= a / P)%Q) by (apply Qle_shift_div_l; lra).
  set (m := round_half_even (a / P)) in *. set (t := (a / P)%Q) in *. clearbody m t.
  assert (Hm : (- (1 # 2) <= inject_Z m)%Q) by lra.
  revert Hm. unfold Qle, inject_Z. cbn [Qnum Qden Qopp]. lia.
Qed.

Lemma binary64_spec (q : Q) :
  ~ (q == 0)%Q ->
  match binary64 q with
  | Finite r =>
      (Qabs (r - q) <= (1 # 2) * 2 ^ last_place q)%Q
      /\ (0 <= q -> 0 <= r)%Q /\ (q <= 0 -> r <= 0)%Q
  | PosInf | NegInf => (2 ^ 1024 <= Qabs q + (1 # 2) * 2 ^ last_place q)%Q
  | NaN => False
  end.
Proof.
  intros Hq. unfold binary64.
  destruct (Qeq_bool q 0) eqn:E0; [apply Qeq_bool_iff in E0; contradiction|].
  set (P := (2 ^ last_place q)%Q).
  assert (HP : (0 < P)%Q) by apply pow2_pos.
  pose proof (scaled_rounding (Qabs q) P HP) as Herr.
  pose proof (rounded_nonneg (Qabs q) P (Qabs_nonneg q) HP) as Hm.
  set (m := round_half_even (Qabs q / P)) in *.
  assert (Hr0 : (0 <= inject_Z m * P)%Q).
  { apply Qmult_le_0_compat; [|lra]. change 0%Q with (inject_Z 0). now rewrite <- Zle_Qle. }
  apply Qabs_Qle_condition in Herr. destruct Herr as [He1 He2].
  set (R := (inject_Z m * P)%Q) in *. set (T := (2 ^ 1024)%Q). clearbody R P T.
  destruct (Qle_bool T R) eqn:Eo.
  - apply Qle_bool_iff in Eo.
    destruct (Qle_bool 0 q); lra.
  - destruct (Qle_bool 0 q) eqn:Es.
    + apply Qle_bool_iff in Es. rewrite Qred_correct.
      rewrite (Qabs_pos q Es) in He1, He2.
      split; [apply Qabs_Qle_condition; split; lra|].
      split; intros; lra.
    + assert (Hneg : (q <= 0)%Q).
      { apply Qlt_le_weak, Qnot_le_lt. intros H. apply Qle_bool_iff in H. congruence. }
      rewrite Qred_correct.
      rewrite (Qabs_neg q Hneg) in He1, He2.
      split; [apply Qabs_Qle_condition; split; lra|].
      split; intros; lra.
Qed.

Lemma last_place_bound (q : Q) :
  ~ (q == 0)%Q -> ((1 # 2) * 2 ^ last_place q <= Qabs q * epsilon + tiny)%Q.
Proof.
  intros Hq. destruct (floor_log2_spec q Hq) as [Hlo _].
  pose proof (Qabs_nonneg q) as Ha. pose proof tiny_pos as Ht.
  unfold last_place. destruct (Z.max_spec (floor_log2 q - 52) (-1074)) as [[_ E]|[_ E]];
    rewrite E.
  - change ((1 # 2) * 2 ^ (-1074))%Q with tiny. unfold epsilon.
    set (A := Qabs q) in *. clearbody A. set (t := tiny) in *. clearbody t. lra.
  - rewrite Qpower_minus by discriminate.
    set (T := (2 ^ floor_log2 q)%Q) in *.
    unfold Qdiv. change (/ 2 ^ 52)%Q with (1 # 4503599627370496)%Q. unfold epsilon.
    set (A := Qabs q) in *. clearbody A T. set (t := tiny) in *. clearbody t. lra.
Qed.

(** The rounding error of [binary64]: half a unit in the last place. *)
Lemma binary64_error (q r : Q) :
  binary64 q = Finite r -> (Qabs (r - q) <= Qabs q * epsilon + tiny)%Q.
Proof.
  intros E. pose proof tiny_pos as Ht. destruct (Qeq_dec q 0) as [Hz|Hq].
  - unfold binary64 in E. rewrite (proj2 (Qeq_bool_iff q 0) Hz) in E.
    injection E as <-. rewrite Hz. change (Qabs (0 - 0)) with 0%Q. change (Qabs 0) with 0%Q.
    set (t := tiny) in *. clearbody t. lra.
  - pose proof (binary64_spec q Hq) as H. rewrite E in H. destruct H as [H _].
    pose proof (last_place_bound q Hq). lra.
Qed.

Lemma binary64_normal_error (q r : Q) :
  (2 ^ (-1022) <= Qabs q)%Q ->
  binary64 q = Finite r -> (Qabs (r - q) <= Qabs q * epsilon)%Q.
Proof.
  intros Hn E.
  assert (Hq : ~ (q == 0)%Q).
  { intros Hz. rewrite Hz in Hn. revert Hn. vm_compute. intros H. now apply H. }
  pose proof (binary64_spec q Hq) as H. rewrite E in H. destruct H as [H _].
  destruct (floor_log2_spec q Hq) as [Hlo Hhi].
  assert (Hl : -1022 <= floor_log2 q).
  { destruct (Z_lt_le_dec (floor_log2 q) (-1022)) as [Hlt|]; [|assumption].
    exfalso.
    assert (2 ^ (floor_log2 q + 1) <= 2 ^ (-1022))%Q
      by (apply Qpower_le_compat_l; [lia | discriminate]).
    lra. }
  unfold last_place in H. rewrite Z.max_l in H by lia.
  rewrite Qpower_minus in H by discriminate.
  set (T := (2 ^ floor_log2 q)%Q) in *.
  unfold Qdiv in H. change (/ 2 ^ 52)%Q with (1 # 4503599627370496)%Q in H. unfold epsilon.
  set (A := Qabs q) in *. set (D := Qabs (r - q)) in *. clearbody A T D. lra.
Qed.

Lemma binary64_sign (q r : Q) :
  binary64 q = Finite r -> ((0 <= q -> 0 <= r) /\ (q <= 0 -> r <= 0))%Q.
Proof.
  intros E. destruct (Qeq_dec q 0) as [Hz|Hq].
  - unfold binary64 in E. rewrite (proj2 (Qeq_bool_iff q 0) Hz) in E.
    injection E as <-. split; intros; lra.
  - pose proof (binary64_spec q Hq) as H. rewrite E in H. tauto.
Qed.

(** No overflow up to [2^1023]. *)
Lemma binary64_finite (q : Q) :
  (Qabs q <= 2 ^ 1023)%Q -> exists r, binary64 q = Finite r.
Proof.
  intros Hb. destruct (Qeq_dec q 0) as [Hz|Hq].
  - exists 0%Q. unfold binary64. now rewrite (proj2 (Qeq_bool_iff q 0) Hz).
  - pose proof (binary64_spec q Hq) as H. pose proof (last_place_bound q Hq) as Hl.
    pose proof (Qabs_nonneg q) as Ha.
    assert (Hc : (2 ^ 1023 + (2 ^ 1023 * epsilon + tiny) < 2 ^ 1024)%Q)
      by (vm_compute; reflexivity).
    unfold epsilon in *.
    set (A := Qabs q) in *. set (L := (2 ^ last_place q)%Q) in *.
    set (T3 := (2 ^ 1023)%Q) in *. set (T4 := (2 ^ 1024)%Q) in *. set (t := tiny) in *.
    clearbody A L T3 T4 t.
    destruct (binary64 q) as [| | |r]; [contradiction | lra | lra | now exists r].
Qed.

(** Below [2^n] the error is at most half of [2^(n - 53)]. *)
Lemma binary64_error_below (q r : Q) (n : Z) :
  -1021 <= n -> (Qabs q < 2 ^ n)%Q ->
  binary64 q = Finite r -> (Qabs (r - q) <= (1 # 2) * 2 ^ (n - 53))%Q.
Proof.
  intros Hn Hq E. pose proof (pow2_pos (n - 53)) as Hp.
  destruct (Qeq_dec q 0) as [Hz|Hnz].
  - unfold binary64 in E. rewrite (proj2 (Qeq_bool_iff q 0) Hz) in E.
    injection E as <-.
    assert (Hd : (Qabs (0 - q) == 0)%Q) by (rewrite Hz; reflexivity).
    rewrite Hd. set (P := (2 ^ (n - 53))%Q) in *. clearbody P. lra.
  - pose proof (binary64_spec q Hnz) as H. rewrite E in H. destruct H as [H _].
    destruct (floor_log2_spec q Hnz) as [Hlo _].
    assert (Hl : floor_log2 q < n).
    { destruct (Z_lt_le_dec (floor_log2 q) n) as [|Hge]; [assumption|].
      exfalso.
      assert (2 ^ n <= 2 ^ floor_log2 q)%Q
        by (apply Qpower_le_compat_l; [lia | discriminate]).
      lra. }
    assert (Hlp : (2 ^ last_place q <= 2 ^ (n - 53))%Q)
      by (apply Qpower_le_compat_l; [unfold last_place; lia | discriminate]).
    set (L := (2 ^ last_place q)%Q) in *. set (P := (2 ^ (n - 53))%Q) in *.
    set (D := Qabs (r - q)) in *. clearbody L P D. lra.
Qed.

(** *** Binary64 values are rounded to themselves *)

Lemma round_half_even_integer (z : Z) : round_half_even (inject_Z z) = z.
Proof.
  unfold round_half_even. rewrite Qfloor_Z.
  destruct (Qcompare_spec (inject_Z z - inject_Z z) (1 # 2)) as [E|E|E];
    [exfalso; lra | reflexivity | exfalso; lra].
Qed.

Lemma round_half_even_comp (x y : Q) : (x == y)%Q -> round_half_even x = round_half_even y.
Proof.
  intros E. unfold round_half_even. rewrite (Qfloor_comp _ _ E).
  assert (Ec : ((x - inject_Z (Qfloor y) ?= 1 # 2) = (y - inject_Z (Qfloor y) ?= 1 # 2))%Q)
    by (apply Qcompare_comp; [rewrite E|]; reflexivity).
  now rewrite Ec.
Qed.

Lemma pow2_lt_inv (a b : Z) : (2 ^ a < 2 ^ b)%Q -> a < b.
Proof.
  intros H. destruct (Z_lt_le_dec a b) as [|Hge]; [assumption|]. exfalso.
  assert (2 ^ b <= 2 ^ a)%Q by (apply Qpower_le_compat_l; [lia | discriminate]).
  lra.
Qed.

Lemma floor_log2_unique (q : Q) (l : Z) :
  (2 ^ l <= Qabs q)%Q -> (Qabs q < 2 ^ (l + 1))%Q -> floor_log2 q = l.
Proof.
  intros Hlo Hhi.
  assert (Hq : ~ (q == 0)%Q).
  { intros E. rewrite E in Hlo. pose proof (pow2_pos l). change (Qabs 0) with 0%Q in Hlo. lra. }
  destruct (floor_log2_spec q Hq) as [Slo Shi].
  assert (floor_log2 q < l + 1) by (apply pow2_lt_inv; lra).
  assert (l < floor_log2 q + 1) by (apply pow2_lt_inv; lra).
  lia.
Qed.

Lemma floor_log2_comp (q q' : Q) : (q == q')%Q -> ~ (q == 0)%Q -> floor_log2 q = floor_log2 q'.
Proof.
  intros E Hq. destruct (floor_log2_spec q Hq) as [Slo Shi].
  symmetry. apply floor_log2_unique; rewrite <- E; assumption.
Qed.

Lemma binary64_comp (q q' : Q) : (q == q')%Q -> binary64 q = binary64 q'.
Proof.
  intros E. unfold binary64.
  assert (E0 : Qeq_bool q 0 = Qeq_bool q' 0).
  { destruct (Qeq_bool q 0) eqn:A; destruct (Qeq_bool q' 0) eqn:B; try reflexivity.
    - apply Qeq_bool_iff in A. apply Qeq_bool_neq in B. rewrite <- E in B. contradiction.
    - apply Qeq_bool_iff in B. apply Qeq_bool_neq in A. rewrite E in A. contradiction. }
  rewrite <- E0. destruct (Qeq_bool q 0) eqn:A; [reflexivity|].
  apply Qeq_bool_neq in A.
  unfold last_place. rewrite <- (floor_log2_comp q q' E A).
  set (lp := Z.max (floor_log2 q - 52) (-1074)).
  assert (Em : round_half_even (Qabs q / 2 ^ lp) = round_half_even (Qabs q' / 2 ^ lp))
    by (apply round_half_even_comp; rewrite E; reflexivity).
  rewrite <- Em.
  assert (Es : Qle_bool 0 q = Qle_bool 0 q').
  { destruct (Qle_bool 0 q) eqn:B; destruct (Qle_bool 0 q') eqn:C; try reflexivity.
    - apply Qle_bool_iff in B. rewrite E in B. apply Qle_bool_iff in B. congruence.
    - apply Qle_bool_iff in C. rewrite <- E in C. apply Qle_bool_iff in C. congruence. }
  now rewrite <- Es.
Qed.

(** A binary64 value is rounded to itself. *)
Lemma binary64_exact (q : Q) :
  representable q -> exists r, binary64 q = Finite r /\ (r == q)%Q.
Proof.
  intros (m & e & Hm & He & Eq).
  destruct (Qeq_dec q 0) as [Hz|Hq].
  { exists 0%Q. unfold binary64. rewrite (proj2 (Qeq_bool_iff q 0) Hz).
    split; [reflexivity | symmetry; exact Hz]. }
  destruct (floor_log2_spec q Hq) as [Slo Shi].
  assert (Ea : (Qabs q == inject_Z (Z.abs m) * 2 ^ e)%Q).
  { rewrite Eq, Qabs_Qmult. rewrite (Qabs_pos (2 ^ e)) by (apply Qlt_le_weak, pow2_pos).
    apply Qmult_comp; [|reflexivity]. unfold Qabs, inject_Z. reflexivity. }
  assert (Hlt : (Qabs q < 2 ^ (53 + e))%Q).
  { rewrite Ea, Qpower_plus by discriminate.
    apply Qmult_lt_compat_r; [apply pow2_pos|].
    rewrite (pow2_Z 53) by lia. rewrite <- Zlt_Qlt. exact Hm. }
  assert (Hl : floor_log2 q < 53 + e) by (apply pow2_lt_inv; lra).
  assert (Hlp : last_place q <= e) by (unfold last_place; lia).
  assert (Hlp0 : -1074 <= last_place q) by (unfold last_place; lia).
  set (lp := last_place q) in *.
  assert (Escaled : (Qabs q / 2 ^ lp == inject_Z (Z.abs m * 2 ^ (e - lp)))%Q).
  { rewrite Ea, inject_Z_mult. rewrite <- (pow2_Z (e - lp)) by lia.
    rewrite Qpower_minus by discriminate. field.
    intros H. pose proof (pow2_pos lp). lra. }
  assert (Er0 : (inject_Z (Z.abs m * 2 ^ (e - lp)) * 2 ^ lp == Qabs q)%Q).
  { rewrite <- Escaled. field. intros H. pose proof (pow2_pos lp). lra. }
  assert (Hover : Qle_bool (2 ^ 1024) (inject_Z (Z.abs m * 2 ^ (e - lp)) * 2 ^ lp) = false).
  { apply not_true_is_false. intros H. apply Qle_bool_iff in H. rewrite Er0 in H.
    assert (2 ^ (53 + e) <= 2 ^ 1024)%Q by (apply Qpower_le_compat_l; [lia | discriminate]).
    lra. }
  unfold binary64. fold lp.
  destruct (Qeq_bool q 0) eqn:E0; [apply Qeq_bool_iff in E0; contradiction|].
  rewrite (round_half_even_comp _ _ Escaled), round_half_even_integer, Hover.
  eexists. split; [reflexivity|]. rewrite Qred_correct.
  destruct (Qle_bool 0 q) eqn:Es.
  - apply Qle_bool_iff in Es. rewrite Er0. now apply Qabs_pos.
  - assert (Hneg : (q <= 0)%Q).
    { apply Qlt_le_weak, Qnot_le_lt. intros H. apply Qle_bool_iff in H. congruence. }
    rewrite Er0, (Qabs_neg q Hneg). ring.
Qed.

Lemma representable_integer (z : Z) : Z.abs z <= 2 ^ 53 -> representable (inject_Z z).
Proof.
  intros Hz. destruct (Z.eq_dec (Z.abs z) (2 ^ 53)) as [E|N].
  - assert (z = 2 ^ 53 \/ z = - 2 ^ 53) as [-> | ->] by lia.
    + exists (2 ^ 52), 1. split; [reflexivity|]. split; [lia | reflexivity].
    + exists (- 2 ^ 52), 1. split; [reflexivity|]. split; [lia | reflexivity].
  - exists z, 0. split; [lia|]. split; [lia|]. change (2 ^ 0)%Q with 1%Q. ring.
Qed.

(** The whole part of a binary64 value is a binary64 value. *)
Lemma representable_floor (q : Q) : representable q -> representable (inject_Z (Qfloor q)).
Proof.
  intros (m & e & Hm & He & Eq).
  destruct (Z_lt_le_dec e 0) as [Hneg|Hpos].
  - apply representable_integer.
    assert (Hb : (- inject_Z (2 ^ 53) <= q /\ q < inject_Z (2 ^ 53))%Q).
    { rewrite Eq.
      assert (H1 : (0 < 2 ^ e /\ 2 ^ e <= 1)%Q).
      { split; [apply pow2_pos|]. change 1%Q with (2 ^ 0)%Q.
        apply Qpower_le_compat_l; [lia | discriminate]. }
      assert (H2 : (- inject_Z (2 ^ 53) < inject_Z m /\ inject_Z m < inject_Z (2 ^ 53))%Q).
      { rewrite <- inject_Z_opp, <- !Zlt_Qlt. lia. }
      change (inject_Z (2 ^ 53)) with 9007199254740992%Q in *.
      set (P := (2 ^ e)%Q) in *. set (M := inject_Z m) in *. clearbody P M.
      destruct H1, H2. split; nra. }
    destruct Hb as [Hlo Hhi].
    assert (F1 : - 2 ^ 53 <= Qfloor q).
    { rewrite <- (Qfloor_Z (- 2 ^ 53)). apply Qfloor_resp_le.
      rewrite inject_Z_opp. exact Hlo. }
    assert (F2 : Qfloor q < 2 ^ 53).
    { rewrite Zlt_Qlt. eapply Qle_lt_trans; [apply Qfloor_le | exact Hhi]. }
    lia.
  - assert (Ez : (q == inject_Z (m * 2 ^ e))%Q)
      by (rewrite Eq, inject_Z_mult, <- (pow2_Z e) by lia; reflexivity).
    exists m, e. split; [exact Hm|]. split; [exact He|].
    rewrite (Qfloor_comp _ _ Ez), Qfloor_Z.
    rewrite inject_Z_mult, <- (pow2_Z e) by lia. reflexivity.
Qed.

(** From [2^(52 + i)] on, the binary64 integers are multiples of [2^i]. *)
Lemma representable_divisible (s i : Z) :
  0 <= i -> representable (inject_Z s) -> 2 ^ (52 + i) <= Z.abs s -> (2 ^ i | s).
Proof.
  intros Hi (m & e & Hm & He & Eq) Hs.
  assert (Hei : i <= e).
  { destruct (Z_lt_le_dec e i) as [Hlt|]; [|assumption]. exfalso.
    assert (Ea : (inject_Z (Z.abs s) == inject_Z (Z.abs m) * 2 ^ e)%Q).
    { assert (E1 : (Qabs (inject_Z s) == Qabs (inject_Z m * 2 ^ e))%Q) by (rewrite Eq; reflexivity).
      rewrite Qabs_Qmult in E1.
      rewrite (Qabs_pos (2 ^ e)) in E1 by (apply Qlt_le_weak, pow2_pos).
      exact E1. }
    assert (H1 : (inject_Z (Z.abs m) < inject_Z (2 ^ 53))%Q) by (rewrite <- Zlt_Qlt; exact Hm).
    assert (H2 : (2 ^ e <= 2 ^ (i - 1))%Q) by (apply Qpower_le_compat_l; [lia | discriminate]).
    assert (H3 : (inject_Z (2 ^ 53) * 2 ^ (i - 1) == inject_Z (2 ^ (52 + i)))%Q).
    { rewrite <- !pow2_Z by lia. rewrite <- Qpower_plus by discriminate.
      replace (53 + (i - 1)) with (52 + i) by lia. reflexivity. }
    assert (H4 : (inject_Z (2 ^ (52 + i)) <= inject_Z (Z.abs s))%Q) by (rewrite <- Zle_Qle; exact Hs).
    assert (H5 : (0 < 2 ^ e)%Q) by apply pow2_pos.
    assert (H6 : (0 <= inject_Z (Z.abs m))%Q)
      by (change 0%Q with (inject_Z 0); rewrite <- Zle_Qle; lia).
    set (A := inject_Z (Z.abs s)) in *. set (M := inject_Z (Z.abs m)) in *.
    set (P := (2 ^ e)%Q) in *. set (P1 := (2 ^ (i - 1))%Q) in *.
    set (T := inject_Z (2 ^ 53)) in *. set (U := inject_Z (2 ^ (52 + i))) in *.
    clearbody A M P P1 T U. nra. }
  assert (Ez : (inject_Z s == inject_Z (m * 2 ^ e))%Q).
  { rewrite inject_Z_mult, <- (pow2_Z e) by lia. exact Eq. }
  apply (proj1 (inject_Z_injective _ _)) in Ez.
  exists (m * 2 ^ (e - i)). rewrite Ez, <- Z.mul_assoc, <- Z.pow_add_r by lia.
  now replace (e - i + i) with e by lia.
Qed.

(** *** Whole quotients *)

Lemma Qfloor_unique (y : Q) (z : Z) :
  (inject_Z z <= y)%Q -> (y < inject_Z z + 1)%Q -> Qfloor y = z.
Proof.
  intros Hlo Hhi. apply Z.le_antisymm.
  - assert (H : (inject_Z (Qfloor y) < inject_Z (z + 1))%Q).
    { rewrite inject_Z_plus. change (inject_Z 1) with 1%Q.
      eapply Qle_lt_trans; [apply Qfloor_le | exact Hhi]. }
    rewrite <- Zlt_Qlt in H. lia.
  - rewrite <- (Qfloor_Z z). now apply Qfloor_resp_le.
Qed.

Lemma quotient_parts (a d : Z) :
  0 < d ->
  (inject_Z a / inject_Z d == inject_Z (a / d) + inject_Z (a mod d) / inject_Z d)%Q.
Proof.
  intros Hd. rewrite (Z.div_mod a d) at 1 by lia.
  rewrite inject_Z_plus, inject_Z_mult. field.
  intros H. apply (proj1 (inject_Z_injective d 0)) in H. lia.
Qed.

(** The floor of a quotient of integers survives the rounding of the
    quotient, when the error [E] of the rounding is less than the distance
    [g / d] between the quotients of the multiples of [g]. *)
Lemma floor_of_quotient (a d g : Z) (E p : Q) :
  0 <= a -> 0 < d -> 0 < g -> (g | a) -> (g | d) -> a / d <= 2 ^ 53 ->
  binary64 (inject_Z a / inject_Z d) = Finite p ->
  (Qabs (p - inject_Z a / inject_Z d) <= E)%Q ->
  (E * inject_Z d < inject_Z g)%Q ->
  Qfloor p = a / d.
Proof.
  intros Ha Hd Hg Hga Hgd Hn Ep Herr HE.
  pose proof (quotient_parts a d Hd) as Ex.
  pose proof (Z.mod_pos_bound a d Hd) as Hr.
  pose proof (Z.div_pos a d Ha Hd) as Hn0.
  assert (Hgr : (g | a mod d)).
  { rewrite Z.mod_eq by lia. apply Z.divide_sub_r; [exact Hga|].
    now apply Z.divide_mul_l. }
  set (n := a / d) in *. set (r := a mod d) in *.
  destruct (Z.eq_dec r 0) as [Hr0|Hrpos].
  - assert (Exn : (inject_Z a / inject_Z d == inject_Z n)%Q).
    { rewrite Ex, Hr0. unfold Qdiv. change (inject_Z 0) with 0%Q. ring. }
    destruct (binary64_exact (inject_Z n)) as (r' & Er' & Eq').
    { apply representable_integer. lia. }
    rewrite (binary64_comp _ _ Exn), Er' in Ep. injection Ep as <-.
    rewrite (Qfloor_comp _ _ Eq'). apply Qfloor_Z.
  - assert (Hg1 : g <= r) by (apply Z.divide_pos_le; [lia | exact Hgr]).
    assert (Hg2 : g <= d - r).
    { apply Z.divide_pos_le; [lia|]. now apply Z.divide_sub_r. }
    assert (HD : (0 < inject_Z d)%Q) by (change 0%Q with (inject_Z 0); rewrite <- Zlt_Qlt; lia).
    assert (HR1 : (inject_Z g <= inject_Z r)%Q) by (rewrite <- Zle_Qle; exact Hg1).
    assert (HR2 : (inject_Z g <= inject_Z d - inject_Z r)%Q).
    { assert (H : (inject_Z g <= inject_Z (d - r))%Q) by (rewrite <- Zle_Qle; exact Hg2).
      unfold Z.sub in H. rewrite inject_Z_plus, inject_Z_opp in H. lra. }
    assert (Et : (inject_Z r == inject_Z r / inject_Z d * inject_Z d)%Q) by (field; lra).
    apply Qabs_Qle_condition in Herr. destruct Herr as [He1 He2].
    rewrite Ex in He1, He2.
    set (t := (inject_Z r / inject_Z d)%Q) in *.
    assert (Ht1 : (E < t)%Q).
    { apply (Qmult_lt_r _ _ (inject_Z d) HD). rewrite <- Et. lra. }
    assert (Ht2 : (E < 1 - t)%Q).
    { apply (Qmult_lt_r _ _ (inject_Z d) HD).
      setoid_replace ((1 - t) * inject_Z d)%Q with (inject_Z d - t * inject_Z d)%Q
        using relation Qeq by ring.
      rewrite <- Et. lra. }
    apply Qfloor_unique; clearbody t; lra.
Qed.

Lemma hours_in_binade (s i : Z) (p : Q) :
  0 <= i <= 4 -> 0 <= s < 3600 * 2 ^ (42 + i) ->
  (i = 0 \/ 3600 * 2 ^ (41 + i) <= s) ->
  representable (inject_Z s) ->
  binary64 (inject_Z s / inject_Z 3600) = Finite p ->
  Qfloor p = s / 3600.
Proof.
  intros Hi Hs Hlow Hrep Ep.
  assert (Hx : (Qabs (inject_Z s / inject_Z 3600) < 2 ^ (42 + i))%Q).
  { rewrite Qabs_pos.
    - rewrite (pow2_Z (42 + i)) by lia.
      apply Qlt_shift_div_r; [reflexivity|]. rewrite <- inject_Z_mult, <- Zlt_Qlt. lia.
    - apply Qle_shift_div_l; [reflexivity|]. rewrite Qmult_0_l.
      change 0%Q with (inject_Z 0). rewrite <- Zle_Qle. lia. }
  pose proof (binary64_error_below _ _ (42 + i) ltac:(lia) Hx Ep) as Herr.
  assert (Hdiv : (2 ^ i | s)).
  { destruct Hlow as [-> | Hlow]; [apply Z.divide_1_l|].
    apply representable_divisible; [lia | exact Hrep |].
    rewrite Z.abs_eq by lia.
    replace (52 + i) with (11 + (41 + i)) by lia. rewrite Z.pow_add_r by lia.
    assert (0 < 2 ^ (41 + i)) by (apply Z.pow_pos_nonneg; lia). nia. }
  assert (Hn : s / 3600 <= 2 ^ 53).
  { assert (s / 3600 < 2 ^ (42 + i)) by (apply Z.div_lt_upper_bound; lia).
    assert (2 ^ (42 + i) <= 2 ^ 53) by (apply Z.pow_le_mono_r; lia). lia. }
  assert (Hg : 0 < 2 ^ i) by (apply Z.pow_pos_nonneg; lia).
  assert (Hd : (2 ^ i | 3600)).
  { assert (i = 0 \/ i = 1 \/ i = 2 \/ i = 3 \/ i = 4) as [-> | [-> | [-> | [-> | ->]]]] by lia.
    - exists 3600. reflexivity.
    - exists 1800. reflexivity.
    - exists 900. reflexivity.
    - exists 450. reflexivity.
    - exists 225. reflexivity. }
  assert (HE : ((1 # 2) * 2 ^ (42 + i - 53) * inject_Z 3600 < inject_Z (2 ^ i))%Q).
  { assert (i = 0 \/ i = 1 \/ i = 2 \/ i = 3 \/ i = 4) as [-> | [-> | [-> | [-> | ->]]]] by lia;
      vm_compute; reflexivity. }
  exact (floor_of_quotient s 3600 (2 ^ i) _ p (proj1 Hs) ltac:(lia) Hg Hdiv Hd Hn Ep Herr HE).
Qed.

(** The hours of a binary64 number of seconds below [2^46] hours. *)
Lemma hours_below (s : Z) (p : Q) :
  0 <= s < 3600 * 2 ^ 46 -> representable (inject_Z s) ->
  binary64 (inject_Z s / inject_Z 3600) = Finite p ->
  Qfloor p = s / 3600.
Proof.
  intros Hs Hrep Ep.
  destruct (Z_lt_le_dec s (3600 * 2 ^ 42)) as [H0|H0];
    [apply (hours_in_binade s 0 p); auto; lia|].
  destruct (Z_lt_le_dec s (3600 * 2 ^ 43)) as [H1|H1];
    [apply (hours_in_binade s 1 p); auto; lia|].
  destruct (Z_lt_le_dec s (3600 * 2 ^ 44)) as [H2|H2];
    [apply (hours_in_binade s 2 p); auto; lia|].
  destruct (Z_lt_le_dec s (3600 * 2 ^ 45)) as [H3|H3];
    [apply (hours_in_binade s 3 p); auto; lia|].
  apply (hours_in_binade s 4 p); auto; lia.
Qed.

(** The minutes below the hour. *)
(** Up to the first quotient that is rounded up to the next hour. *)
Lemma hours_last (s : Z) (p : Q) :
  3600 * 2 ^ 46 <= s < first_lost_hour -> representable (inject_Z s) ->
  binary64 (inject_Z s / inject_Z 3600) = Finite p ->
  Qfloor p = s / 3600.
Proof.
  unfold first_lost_hour. intros Hs Hrep Ep.
  assert (Hdiv : (2 ^ 5 | s)).
  { apply representable_divisible; [lia | exact Hrep |]. rewrite Z.abs_eq by lia. lia. }
  destruct Hdiv as [t Et]. change (2 ^ 5) with 32 in Et.
  assert (Hq : s / 3600 = 2 ^ 46).
  { symmetry. apply (Z.div_unique s 3600 (2 ^ 46) (s - 3600 * 2 ^ 46)); lia. }
  rewrite Hq.
  assert (Hx : (Qabs (inject_Z s / inject_Z 3600) < 2 ^ 47)%Q).
  { rewrite Qabs_pos.
    - rewrite (pow2_Z 47) by lia.
      apply Qlt_shift_div_r; [reflexivity|]. rewrite <- inject_Z_mult, <- Zlt_Qlt. lia.
    - apply Qle_shift_div_l; [reflexivity|]. rewrite Qmult_0_l.
      change 0%Q with (inject_Z 0). rewrite <- Zle_Qle. lia. }
  pose proof (binary64_error_below _ _ 47 ltac:(lia) Hx Ep) as Herr.
  change ((1 # 2) * 2 ^ (47 - 53))%Q with (1 # 128)%Q in Herr.
  apply Qabs_Qle_condition in Herr. destruct Herr as [Hlo Hhi].
  assert (Eq : (inject_Z s / inject_Z 3600 == inject_Z s * (1 # 3600))%Q) by (unfold Qdiv; reflexivity).
  apply Qfloor_unique.
  - destruct (Z.eq_dec s (3600 * 2 ^ 46)) as [E0|Hne].
    + assert (Ez : (inject_Z s / inject_Z 3600 == inject_Z (2 ^ 46))%Q)
        by (rewrite E0; vm_compute; reflexivity).
      rewrite (binary64_comp _ _ Ez) in Ep.
      destruct (binary64_exact (inject_Z (2 ^ 46))) as (r & Er & Hr).
      { apply representable_integer. vm_compute. discriminate. }
      rewrite Er in Ep. injection Ep as <-. rewrite Hr. apply Qle_refl.
    + assert (H32 : (inject_Z (3600 * 2 ^ 46 + 32) <= inject_Z s)%Q) by (rewrite <- Zle_Qle; lia).
      change (inject_Z (3600 * 2 ^ 46 + 32)) with 253327479039590432%Q in H32.
      change (inject_Z (2 ^ 46)) with 70368744177664%Q.
      rewrite Eq in Hlo. set (X := inject_Z s) in *. clearbody X. lra.
  - assert (Hup : (inject_Z s <= inject_Z (3600 * 2 ^ 46 + 3552))%Q) by (rewrite <- Zle_Qle; lia).
    change (inject_Z (3600 * 2 ^ 46 + 3552)) with 253327479039593952%Q in Hup.
    change (inject_Z (2 ^ 46)) with 70368744177664%Q.
    rewrite Eq in Hhi. set (X := inject_Z s) in *. clearbody X. lra.
Qed.

Lemma hours64 (s : Z) (p : Q) :
  0 <= s < first_lost_hour -> representable (inject_Z s) ->
  binary64 (inject_Z s / inject_Z 3600) = Finite p ->
  Qfloor p = s / 3600.
Proof.
  intros Hs Hrep Ep.
  destruct (Z_lt_le_dec s (3600 * 2 ^ 46)) as [H|H].
  - apply hours_below; auto; lia.
  - apply hours_last; auto; lia.
Qed.

Lemma minutes64 (r : Z) (p : Q) :
  0 <= r < 3600 ->
  binary64 (inject_Z r / inject_Z 60) = Finite p ->
  Qfloor p = r / 60.
Proof.
  intros Hr Ep.
  assert (Hx : (Qabs (inject_Z r / inject_Z 60) < 2 ^ 6)%Q).
  { rewrite Qabs_pos.
    - change (2 ^ 6)%Q with (inject_Z 64).
      apply Qlt_shift_div_r; [reflexivity|]. rewrite <- inject_Z_mult, <- Zlt_Qlt. lia.
    - apply Qle_shift_div_l; [reflexivity|]. rewrite Qmult_0_l.
      change 0%Q with (inject_Z 0). rewrite <- Zle_Qle. lia. }
  pose proof (binary64_error_below _ _ 6 ltac:(lia) Hx Ep) as Herr.
  assert (Hn : r / 60 <= 2 ^ 53).
  { assert (r / 60 < 60) by (apply Z.div_lt_upper_bound; lia). lia. }
  assert (HE : ((1 # 2) * 2 ^ (6 - 53) * inject_Z 60 < inject_Z 1)%Q) by (vm_compute; reflexivity).
  exact (floor_of_quotient r 60 1 _ p (proj1 Hr) ltac:(lia) ltac:(lia)
           (Z.divide_1_l r) (Z.divide_1_l 60) Hn Ep Herr HE).
Qed.

(** ** Duration formatting *)


Lemma string_app_assoc (a b c : string) : ((a ++ b) ++ c = a ++ b ++ c)%string.
Proof.
  induction a as [|x a IH]; [reflexivity|].
  change (String x ((a ++ b) ++ c) = String x (a ++ b ++ c))%string. now f_equal.
Qed.

Lemma number_to_string_integer (z : Z) :
  Z.abs z < 2 ^ 53 -> number_to_string (Finite (inject_Z z)) = dec z.
Proof.
  intros Hz. unfold number_to_string, is_integer.
  rewrite Qfloor_Z, Qeq_bool_refl. cbn [andb].
  replace (Qle_bool (inject_Z (2 ^ 53)) (Qabs (inject_Z z))) with false; [reflexivity|].
  symmetry. apply not_true_is_false. intros H. apply Qle_bool_iff in H.
  revert H. unfold Qle. cbn. lia.
Qed.

(** [Number::toString] on a few values: the shortest digits, the exponent
    notation from [10^21] on and below [10^-6], and the digits of an integer
    from [2^53] on, which are not all its own.  On integers below [2^53] the
    digits that are searched for are the digits written in full. *)
Lemma number_to_string_examples :
  number_to_string (Finite 0.1) = "0.1"%string
  /\ number_to_string (Finite (1 # 3)) = "0.3333333333333333"%string
  /\ number_to_string (Finite 123.456) = "123.456"%string
  /\ number_to_string (Finite (15 # 100000000)) = "1.5e-7"%string
  /\ number_to_string (Finite (inject_Z (2 ^ 55))) = "36028797018963970"%string
  /\ number_to_string (Finite (inject_Z (10 ^ 21))) = "1e+21"%string
  /\ to_string64 (inject_Z 1200) = dec 1200
  /\ to_string64 (inject_Z (2 ^ 53 - 1)) = dec (2 ^ 53 - 1)
  /\ to_string64 (inject_Z (-42)) = dec (-42).
Proof. vm_compute. repeat split; reflexivity. Qed.

Lemma clamp_floor (q : Q) :
  Math_max (Finite 0) (Math_floor (Finite q)) = Finite (inject_Z (Z.max 0 (Qfloor q))).
Proof.
  cbn. destruct (Qle_bool (inject_Z (Qfloor q)) 0) eqn:E; cbn.
  - apply Qle_bool_iff in E. unfold Qle in E. cbn in E.
    rewrite Z.max_l by lia. reflexivity.
  - assert (H : ~ (inject_Z (Qfloor q) <= 0)%Q) by (rewrite <- Qle_bool_iff; congruence).
    unfold Qle in H. cbn in H. rewrite Z.max_r by lia. reflexivity.
Qed.

Lemma hours_of (s : Z) :
  Math_floor (num_div (Finite (inject_Z s)) (Finite 3600)) = Finite (inject_Z (s / 3600)).
Proof.
  cbn [num_div]. change (Qeq_bool 3600 0) with false. cbn [Math_floor].
  f_equal. f_equal. symmetry. apply (Zdiv_Qdiv s 3600).
Qed.

Lemma minutes_of (s : Z) :
  0 <= s ->
  Math_floor (num_div (num_rem (Finite (inject_Z s)) (Finite 3600)) (Finite 60))
  = Finite (inject_Z (s mod 3600 / 60)).
Proof.
  intros Hs. cbn [num_rem]. change (Qeq_bool 3600 0) with false.
  cbn [num_div]. change (Qeq_bool 60 0) with false. cbn [Math_floor].
  assert (Ht : Qtrunc (inject_Z s / 3600) = s / 3600).
  { unfold Qtrunc.
    replace (Qle_bool 0 (inject_Z s / 3600)) with true.
    - symmetry. apply (Zdiv_Qdiv s 3600).
    - symmetry. apply Qle_bool_iff. unfold Qle. cbn. lia. }
  rewrite Ht, (Zdiv_Qdiv (s mod 3600) 60).
  f_equal. f_equal.
  apply Qfloor_comp.
  apply Qmult_comp; [|reflexivity].
  rewrite (Z.mod_eq s 3600) by lia.
  unfold Qeq. cbn. lia.
Qed.

Lemma positive_hours (h : Z) :
  num_ltb (Finite 0) (Finite (inject_Z h)) = (1 <=? h).
Proof.
  cbn. destruct (Z.leb_spec 1 h) as [H|H].
  - apply negb_true_iff, not_true_is_false. intros E. apply Qle_bool_iff in E.
    revert E. unfold Qle. cbn. lia.
  - apply negb_false_iff, Qle_bool_iff. unfold Qle. cbn. lia.
Qed.

Lemma minutes_below_the_hour (s : Z) : 0 <= s -> 0 <= s mod 3600 / 60 < 60.
Proof.
  intros Hs. pose proof (Z.mod_pos_bound s 3600 ltac:(lia)) as Hr.
  split; [apply Z.div_pos; lia | apply Z.div_lt_upper_bound; lia].
Qed.

Lemma fmtSeconds_finite (q : Q) :
  ClassJs.fmtSeconds (ArgNum (Finite q)) = Some (duration_text (Z.max 0 (Qfloor q))).
Proof.
  unfold ClassJs.fmtSeconds. cbn [nullish_or_nan isNaN ToNumber].
  set (s := Z.max 0 (Qfloor q)). assert (Hs : 0 <= s) by lia.
  rewrite clamp_floor. fold s. cbv zeta.
  rewrite hours_of, (minutes_of s Hs), positive_hours.
  pose proof (minutes_below_the_hour s Hs) as Hm.
  rewrite (number_to_string_integer (s mod 3600 / 60)) by lia.
  unfold duration_text.
  destruct (Z.leb_spec 1 (s / 3600)) as [Hh|Hh]; [|reflexivity].
  now rewrite string_app_assoc.
Qed.

Lemma rem_of (s : Z) :
  0 <= s ->
  exists R, num_rem (Finite (inject_Z s)) (Finite 3600) = Finite R
            /\ (R == inject_Z (s mod 3600))%Q.
Proof.
  intros Hs. cbn [num_rem]. change (Qeq_bool 3600 0) with false. cbn iota.
  eexists. split; [reflexivity|].
  assert (Ht : Qtrunc (inject_Z s / 3600) = s / 3600).
  { unfold Qtrunc.
    replace (Qle_bool 0 (inject_Z s / 3600)) with true.
    - symmetry. apply (Zdiv_Qdiv s 3600).
    - symmetry. apply Qle_bool_iff. unfold Qle. cbn. lia. }
  rewrite Ht, (Z.mod_eq s 3600) by lia.
  unfold Qeq. cbn. lia.
Qed.

Lemma whole_seconds_representable (q : Q) :
  representable q -> representable (inject_Z (Z.max 0 (Qfloor q))).
Proof.
  intros H. destruct (Z.max_spec 0 (Qfloor q)) as [[_ ->]|[_ ->]].
  - now apply representable_floor.
  - apply representable_integer. vm_compute. discriminate.
Qed.

(** Below [2^53] hours every digit of the hours is written. *)
Lemma duration_text_in_full (s : Z) :
  0 <= s -> s / 3600 < 2 ^ 53 ->
  duration_text s = hours_and_minutes (s / 3600) (s mod 3600 / 60).
Proof.
  intros Hs Hh. unfold duration_text, hours_and_minutes. cbv zeta.
  destruct (Z.leb_spec 1 (s / 3600)) as [H1|H1]; [|reflexivity].
  rewrite number_to_string_integer by lia. reflexivity.
Qed.

(** From [2^53] hours on the hours are written as the language writes
    such a number. *)
Lemma duration_beyond_the_digits :
  @ClassJs.fmtSeconds64 sample_host (OpNumber (Finite (inject_Z (3600 * 2 ^ 55))))
  = Returns (Some "36028797018963970 h 0 min"%string).
Proof. vm_compute. reflexivity. Qed.

Lemma formatSecondsToHm_is_fmtSeconds (sec : arg) :
  Part000.formatSecondsToHm sec = ClassJs.fmtSeconds sec.
Proof. reflexivity. Qed.

(** A decimal numeral does not begin with a letter. *)
Lemma dec_head (z : Z) : exists c rest, dec z = String c rest /\ c <> "I"%char.
Proof.
  unfold dec. destruct z as [|p|p]; cbn.
  - exists "0"%char, ""%string. split; [reflexivity | discriminate].
  - unfold Pos.to_int. cbn. destruct (Pos.to_uint p); cbn;
      eexists; eexists; (split; [reflexivity | discriminate]).
  - eexists; eexists; (split; [reflexivity | discriminate]).
Qed.

Lemma hours_and_minutes_head (H M : Z) :
  hours_and_minutes H M <> "Infinity h NaN min"%string.
Proof.
  unfold hours_and_minutes.
  destruct (1 <=? H);
    [destruct (dec_head H) as (c & rest & E & Hc) | destruct (dec_head M) as (c & rest & E & Hc)];
    rewrite E; intros Heq; injection Heq as Heq _; now apply Hc.
Qed.

Section DurationFormat.
Context {host : Host}.

Lemma fmtSeconds64_finite (q : Q) :
  representable q -> Z.max 0 (Qfloor q) < first_lost_hour ->
  ClassJs.fmtSeconds64 (OpNumber (Finite q))
  = Returns (Some (hours_and_minutes (Z.max 0 (Qfloor q) / 3600)
                                     (Z.max 0 (Qfloor q) mod 3600 / 60))).
Proof.
  intros Hrep Hb. pose proof (whole_seconds_representable q Hrep) as Hs'.
  unfold ClassJs.fmtSeconds64. cbn [loosely_null to_number isNaN].
  set (s := Z.max 0 (Qfloor q)) in *. assert (Hs : 0 <= s) by (unfold s; lia).
  rewrite clamp_floor. fold s. cbv zeta.
  destruct (rem_of s Hs) as (R & ER & EqR). rewrite ER.
  unfold div64. cbn [num_div]. change (Qeq_bool 3600 0) with false.
  change (Qeq_bool 60 0) with false. cbn iota. cbn [round64].
  change 3600%Q with (inject_Z 3600). change 60%Q with (inject_Z 60).
  assert (ER60 : (R / inject_Z 60 == inject_Z (s mod 3600) / inject_Z 60)%Q)
    by (rewrite EqR; reflexivity).
  rewrite (binary64_comp _ _ ER60).
  pose proof (minutes_below_the_hour s Hs) as Hm.
  pose proof (Z.mod_pos_bound s 3600 ltac:(lia)) as Hr.
  assert (Hb' : s < 3600 * 2 ^ 47) by (unfold first_lost_hour in Hb; lia).
  assert (Hh : 0 <= s / 3600 < 2 ^ 47).
  { split; [apply Z.div_pos; lia | apply Z.div_lt_upper_bound; lia]. }
  destruct (binary64_finite (inject_Z s / inject_Z 3600)) as [p Ep].
  { rewrite Qabs_pos.
    - apply Qle_shift_div_r; [reflexivity|].
      assert (H : (inject_Z s <= inject_Z (3600 * 2 ^ 47))%Q) by (rewrite <- Zle_Qle; lia).
      assert (H' : (inject_Z (3600 * 2 ^ 47) <= 2 ^ 1023 * inject_Z 3600)%Q)
        by (vm_compute; discriminate).
      eapply Qle_trans; eassumption.
    - apply Qle_shift_div_l; [reflexivity|]. rewrite Qmult_0_l.
      change 0%Q with (inject_Z 0). rewrite <- Zle_Qle. lia. }
  destruct (binary64_finite (inject_Z (s mod 3600) / inject_Z 60)) as [p' Ep'].
  { rewrite Qabs_pos.
    - apply Qle_shift_div_r; [reflexivity|].
      assert (H : (inject_Z (s mod 3600) <= inject_Z 3600)%Q) by (rewrite <- Zle_Qle; lia).
      assert (H' : (inject_Z 3600 <= 2 ^ 1023 * inject_Z 60)%Q) by (vm_compute; discriminate).
      eapply Qle_trans; eassumption.
    - apply Qle_shift_div_l; [reflexivity|]. rewrite Qmult_0_l.
      change 0%Q with (inject_Z 0). rewrite <- Zle_Qle. lia. }
  rewrite Ep, Ep'. cbn [Math_floor].
  rewrite (hours64 s p ltac:(lia) Hs' Ep), (minutes64 (s mod 3600) p' Hr Ep').
  rewrite positive_hours.
  rewrite (number_to_string_integer (s mod 3600 / 60)) by lia.
  unfold hours_and_minutes.
  destruct (Z.leb_spec 1 (s / 3600)) as [H1|H1]; [|reflexivity].
  rewrite number_to_string_integer by lia. now rewrite string_app_assoc.
Qed.

(** Up to there the exact quotients give the same text, and so they do
    on [null], [undefined], [NaN] and the infinities. *)
Lemma fmtSeconds64_is_fmtSeconds (sec : arg) :
  match sec with
  | ArgNum (Finite q) => representable q /\ Z.max 0 (Qfloor q) < first_lost_hour
  | _ => True
  end ->
  ClassJs.fmtSeconds64 (operand_of_arg sec) = Returns (ClassJs.fmtSeconds sec).
Proof.
  destruct sec as [| |[| | |q]]; try reflexivity.
  intros [Hrep Hb]. cbn [operand_of_arg].
  rewrite (fmtSeconds64_finite q Hrep Hb), fmtSeconds_finite.
  rewrite duration_text_in_full; [reflexivity | lia |].
  assert (Z.max 0 (Qfloor q) / 3600 < 2 ^ 47);
    [apply Z.div_lt_upper_bound; unfold first_lost_hour in Hb; lia | lia].
Qed.

Lemma formatSecondsToHm64_is_fmtSeconds64 (sec : operand) :
  Part000.formatSecondsToHm64 sec = ClassJs.fmtSeconds64 sec.
Proof. reflexivity. Qed.

Lemma fmtSeconds64_as_amended : formats_durations ClassJs.fmtSeconds64.
Proof.
  unfold formats_durations. split; [|repeat split; reflexivity].
  intros v. unfold ClassJs.fmtSeconds64.
  destruct (loosely_null v) eqn:Hn.
  { split; [split; [discriminate | intros [H _]; discriminate]|].
    split; [reflexivity|]. split; intros; discriminate. }
  destruct (to_number false v) as [x|] eqn:H1.
  2: { split; [split; [intros _; split; [reflexivity | left; reflexivity] | reflexivity]|].
       split; [discriminate|]. split; intros; discriminate. }
  destruct (isNaN x) eqn:Hx.
  { split.
    { split; [discriminate|].
      intros [_ [H|(x' & H & Hnan & _)]]; [discriminate | injection H as <-; congruence]. }
    split; [discriminate|]. split; [reflexivity|].
    intros x' y _ H Hnan. injection H as <-. congruence. }
  destruct (to_number true v) as [y|] eqn:H2.
  2: { split.
       { split; [intros _; split; [reflexivity | right; exists x; auto] | reflexivity]. }
       split; [discriminate|].
       split; [intros _ H; injection H as ->; discriminate Hx|].
       intros; discriminate. }
  split.
  { split; [discriminate | intros [_ [H|(x' & _ & _ & H)]]; discriminate]. }
  split; [discriminate|].
  split; [intros _ H; injection H as ->; discriminate Hx|].
  intros x' y' _ _ _ Hy. injection Hy as <-.
  destruct y as [| | |q]; try reflexivity.
  intros Hrep Hb. exact (fmtSeconds64_finite q Hrep Hb).
Qed.

(** C5, amended: the duration formatter of either file throws only where
    the conversion of its argument to a number throws; it returns [null]
    on [null], [undefined] and what converts to [NaN]; on what converts to
    a binary64 number below 253327479039593984 seconds ([2^46] hours, 59
    minutes and 44 seconds) it floors, clamps below at zero and renders
    hours and minutes, with no hour part when the hours are zero; on the
    negative infinity it returns ["0 min"] and on the positive infinity
    ["Infinity h NaN min"]; [0], [3661], [-5] and [null] give the four
    results the specification lists. *)
Theorem duration_is_hours_and_minutes :
  formats_durations ClassJs.fmtSeconds64
  /\ formats_durations Part000.formatSecondsToHm64.
Proof. split; exact fmtSeconds64_as_amended. Qed.
End DurationFormat.

Lemma duration_is_hours_and_minutes_witness :
  representable 7325.5
  /\ Z.max 0 (Qfloor 7325.5) < first_lost_hour
  /\ @ClassJs.fmtSeconds64 sample_host (OpNumber (Finite 7325.5))
     = Returns (Some "2 h 2 min"%string)
  /\ @Part000.formatSecondsToHm64 sample_host (OpNumber (Finite 7325.5))
     = Returns (Some "2 h 2 min"%string).
Proof.
  assert (Hrep : representable 7325.5).
  { exists 14651, (-1). split; [reflexivity|]. split; [lia | reflexivity]. }
  assert (Hb : Z.max 0 (Qfloor 7325.5) < first_lost_hour) by reflexivity.
  split; [exact Hrep|]. split; [exact Hb|].
  destruct (@duration_is_hours_and_minutes sample_host) as ((Hc & _) & (Hp & _)).
  split.
  - destruct (Hc (OpNumber (Finite 7325.5))) as (_ & _ & _ & H).
    exact (H (Finite 7325.5) (Finite 7325.5) eq_refl eq_refl eq_refl eq_refl Hrep Hb).
  - destruct (Hp (OpNumber (Finite 7325.5))) as (_ & _ & _ & H).
    exact (H (Finite 7325.5) (Finite 7325.5) eq_refl eq_refl eq_refl eq_refl Hrep Hb).
Defined.

(** C5 as stated fails at the positive infinity, which is neither [null],
    [undefined] nor [NaN]: the hours are ["Infinity"] and the minutes are
    ["NaN"], in both files.  It fails at the first binary64 number of
    seconds whose quotient by [3600] is rounded up to the next hour: [2^46]
    hours and 59 minutes are written as [2^46 + 1] hours and 59 minutes.  It
    fails at a symbol, which [isNaN] throws on, and at an object that
    converts to a number first and to [NaN] next. *)
Lemma duration_of_infinity_has_no_minutes :
  @ClassJs.fmtSeconds64 sample_host (OpNumber PosInf)
  = Returns (Some "Infinity h NaN min"%string)
  /\ @Part000.formatSecondsToHm64 sample_host (OpNumber PosInf)
     = Returns (Some "Infinity h NaN min"%string)
  /\ representable (inject_Z first_lost_hour)
  /\ hours_and_minutes (first_lost_hour / 3600) (first_lost_hour mod 3600 / 60)
     = "70368744177664 h 59 min"%string
  /\ @ClassJs.fmtSeconds64 sample_host (OpNumber (Finite (inject_Z first_lost_hour)))
     = Returns (Some "70368744177665 h 59 min"%string)
  /\ @Part000.formatSecondsToHm64 sample_host (OpNumber (Finite (inject_Z first_lost_hour)))
     = Returns (Some "70368744177665 h 59 min"%string)
  /\ @ClassJs.fmtSeconds64 sample_host OpSymbol = Throws
  /\ @Part000.formatSecondsToHm64 sample_host OpSymbol = Throws
  /\ @ClassJs.fmtSeconds64 sample_host fickle = Returns (Some "NaN min"%string)
  /\ @Part000.formatSecondsToHm64 sample_host fickle = Returns (Some "NaN min"%string)
  /\ ~ @formats_durations_as_claimed sample_host (@ClassJs.fmtSeconds64 sample_host)
  /\ ~ @formats_durations_as_claimed sample_host (@Part000.formatSecondsToHm64 sample_host).
Proof.
  assert (N : ~ @formats_durations_as_claimed sample_host (@ClassJs.fmtSeconds64 sample_host)).
  { intros H. destruct (H (OpNumber PosInf)) as (r & E & Hr).
    cbn [loosely_null] in Hr. destruct (Hr PosInf eq_refl) as (H' & M & _ & _ & ->).
    change (@ClassJs.fmtSeconds64 sample_host (OpNumber PosInf))
      with (@Returns (option string) (Some "Infinity h NaN min"%string)) in E.
    injection E as E. symmetry in E. now apply hours_and_minutes_head in E. }
  split; [reflexivity|]. split; [reflexivity|].
  split.
  { exists (225 * 2 ^ 41 + 7), 9. split; [reflexivity|]. split; [lia | reflexivity]. }
  split; [vm_compute; reflexivity|].
  split; [vm_compute; reflexivity|]. split; [vm_compute; reflexivity|].
  split; [reflexivity|]. split; [reflexivity|].
  split; [vm_compute; reflexivity|]. split; [vm_compute; reflexivity|].
  split; exact N.
Qed.

(** C10: [fmtSeconds] of DeliveryCalculatorClass.js and [formatSecondsToHm]
    of part_000 return the same result on every input. *)
Theorem duration_formatters_agree (sec : arg) :
  ClassJs.fmtSeconds sec = Part000.formatSecondsToHm sec.
Proof.
  destruct sec as [| |x]; [reflexivity | reflexivity |].
  unfold ClassJs.fmtSeconds, Part000.formatSecondsToHm.
  destruct (nullish_or_nan (ArgNum x)); reflexivity.
Qed.

(** ** Money formatting *)




Lemma Qfloor_half_up (z : Z) : Qfloor (inject_Z z + (1 # 2)) = z.
Proof.
  unfold Qfloor, Qplus, inject_Z. cbn [Qnum Qden].
  change (Z.pos (1 * 2)) with 2.
  symmetry. apply Z.div_unique with (r := 1); lia.
Qed.

Lemma Qabs_hundredths (k : Z) : (Qabs (inject_Z k / 100) == inject_Z (Z.abs k) / 100)%Q.
Proof.
  unfold Qdiv, Qmult, Qinv, Qabs, inject_Z, Qeq. cbn [Qnum Qden].
  rewrite !Z.mul_1_r. reflexivity.
Qed.

Lemma toFixed2_hundredths (k : Z) :
  Z.abs k < 10 ^ 23 -> toFixed2 (Finite (inject_Z k / 100)) = money_text k.
Proof.
  intros Hk. unfold toFixed2, money_text.
  assert (E1 : Qle_bool (inject_Z (10 ^ 21)) (Qabs (inject_Z k / 100)) = false).
  { apply not_true_is_false. intros H. apply Qle_bool_iff in H.
    rewrite Qabs_hundredths in H. revert H.
    unfold Qle, Qdiv, Qmult, Qinv, inject_Z. cbn [Qnum Qden]. lia. }
  rewrite E1.
  assert (E2 : Qfloor (Qabs (inject_Z k / 100) * 100 + (1 # 2)) = Z.abs k).
  { rewrite <- (Qfloor_half_up (Z.abs k)). apply Qfloor_comp.
    rewrite Qabs_hundredths. field. }
  rewrite E2.
  assert (E3 : negb (Qle_bool 0 (inject_Z k / 100)) = (k <? 0)).
  { destruct (Z.ltb_spec k 0) as [Hlt|Hge].
    - apply negb_true_iff, not_true_is_false. intros H. apply Qle_bool_iff in H.
      revert H. unfold Qle, Qdiv, Qmult, Qinv, inject_Z. cbn [Qnum Qden]. lia.
    - apply negb_false_iff, Qle_bool_iff.
      unfold Qle, Qdiv, Qmult, Qinv, inject_Z. cbn [Qnum Qden]. lia. }
  rewrite E3. reflexivity.
Qed.

Lemma fmtMoney_finite (q : Q) :
  Z.abs (Qfloor (q * 100 + (1 # 2))) < 10 ^ 23 ->
  ClassJs.fmtMoney (ArgNum (Finite q)) = money_text (Qfloor (q * 100 + (1 # 2))).
Proof.
  intros Hk. unfold ClassJs.fmtMoney.
  cbn [nullish_or_nan isNaN ToNumber num_mul Math_round num_div].
  change (Qeq_bool 100 0) with false. cbn iota.
  now apply toFixed2_hundredths.
Qed.


(** ** Money formatting in binary64 *)

Lemma tiny_small : (tiny <= 1 # 1000000)%Q.
Proof. vm_compute. discriminate. Qed.

(** The quotient [k / 100], rounded to binary64, is still written as [k]
    hundredths, up to [2^46]. *)
Lemma toFixed2_rounded (k : Z) (r : Q) :
  Z.abs k <= 100 * 2 ^ 46 ->
  binary64 (inject_Z k / 100) = Finite r ->
  toFixed2 (Finite r) = money_text k.
Proof.
  intros Hk E.
  pose proof (binary64_sign _ _ E) as [Hpos Hneg].
  assert (HK : (0 <= inject_Z (Z.abs k) /\ inject_Z (Z.abs k) <= inject_Z (100 * 2 ^ 46))%Q).
  { split; [change 0%Q with (inject_Z 0)|]; rewrite <- Zle_Qle; lia. }
  change (inject_Z (100 * 2 ^ 46)) with 7036874417766400%Q in HK.
  assert (Ex : (inject_Z (Z.abs k) / 100 == inject_Z (Z.abs k) * (1 # 100))%Q) by field.
  assert (Herr : (Qabs (r - inject_Z k / 100) <= 1 # 256)%Q).
  { destruct (Z.eq_dec (Z.abs k) (100 * 2 ^ 46)) as [Heq|Hne].
    - assert (Hrep : representable (inject_Z k / 100)).
      { exists (k / 100), 0. split; [|split; [lia|]].
        - assert (Z.abs (k / 100) = 2 ^ 46); [|lia].
          destruct (Z.abs_spec k) as [[_ Ha]|[_ Ha]]; rewrite Ha in Heq.
          + rewrite Heq. reflexivity.
          + replace k with (- (100 * 2 ^ 46)) by lia. reflexivity.
        - destruct (Z.abs_spec k) as [[_ Ha]|[_ Ha]]; rewrite Ha in Heq.
          + rewrite Heq. reflexivity.
          + replace k with (- (100 * 2 ^ 46)) by lia. reflexivity. }
      destruct (binary64_exact _ Hrep) as (r' & Er' & Hr').
      rewrite Er' in E. injection E as <-.
      assert (Hz : (r' - inject_Z k / 100 == 0)%Q) by (rewrite Hr'; ring).
      rewrite Hz. discriminate.
    - assert (Hx : (Qabs (inject_Z k / 100) < 2 ^ 46)%Q).
      { rewrite Qabs_hundredths, Ex. change (2 ^ 46)%Q with 70368744177664%Q.
        assert (inject_Z (Z.abs k) <= inject_Z (100 * 2 ^ 46 - 1))%Q by (rewrite <- Zle_Qle; lia).
        change (inject_Z (100 * 2 ^ 46 - 1)) with 7036874417766399%Q in *.
        set (K := inject_Z (Z.abs k)) in *. clearbody K. lra. }
      pose proof (binary64_error_below _ _ 46 ltac:(lia) Hx E) as Herr.
      exact Herr. }
  pose proof (Qabs_triangle_reverse r (inject_Z k / 100)) as T1.
  pose proof (Qabs_triangle_reverse (inject_Z k / 100) r) as T2.
  rewrite (Qabs_Qminus (inject_Z k / 100) r) in T2.
  rewrite Qabs_hundredths in T1, T2.
  rewrite Ex in T1, T2.
  set (K := inject_Z (Z.abs k)) in *. set (A := Qabs r) in *.
  set (D := Qabs (r - inject_Z k / 100)) in *.
  assert (Hn : Qfloor (A * 100 + (1 # 2)) = Z.abs k).
  { apply Qfloor_unique; fold K; clearbody K A D; lra. }
  assert (Hbig : Qle_bool (inject_Z (10 ^ 21)) A = false).
  { apply not_true_is_false. intros H. apply Qle_bool_iff in H.
    change (inject_Z (10 ^ 21)) with 1000000000000000000000%Q in H.
    clearbody K A D. lra. }
  assert (Hs : negb (Qle_bool 0 r) = (k <? 0)).
  { destruct (Z.ltb_spec k 0) as [Hlt|Hge].
    - apply negb_true_iff, not_true_is_false. intros H. apply Qle_bool_iff in H.
      assert (Hx0 : (inject_Z k / 100 <= 0)%Q)
        by (unfold Qle, Qdiv, Qmult, Qinv, inject_Z; cbn [Qnum Qden]; lia).
      specialize (Hneg Hx0).
      assert (HK1 : (1 <= K)%Q).
      { unfold K. change 1%Q with (inject_Z 1). rewrite <- Zle_Qle. lia. }
      assert (HA : (A == r)%Q) by (apply Qabs_pos; exact H).
      clearbody K A D. lra.
    - apply negb_false_iff, Qle_bool_iff. apply Hpos.
      unfold Qle, Qdiv, Qmult, Qinv, inject_Z. cbn [Qnum Qden]. lia. }
  unfold toFixed2, money_text. fold A. rewrite Hbig, Hn, Hs. reflexivity.
Qed.

Lemma Qabs_bounds (x b : Q) : (Qabs x <= b)%Q -> (- b <= x /\ x <= b)%Q.
Proof. intros H. now apply Qabs_Qle_condition. Qed.




(** A binary64 value is a whole number of last places. *)
Lemma binary64_grid (x p : Q) :
  ~ (x == 0)%Q -> binary64 x = Finite p ->
  exists m : Z, (p == inject_Z m * 2 ^ last_place x)%Q.
Proof.
  intros Hx. unfold binary64.
  destruct (Qeq_bool x 0) eqn:E0; [apply Qeq_bool_iff in E0; contradiction|].
  cbv zeta. set (m := round_half_even (Qabs x / 2 ^ last_place x)).
  destruct (Qle_bool (2 ^ 1024) (inject_Z m * 2 ^ last_place x));
    [destruct (Qle_bool 0 x); discriminate|].
  intros E. injection E as <-.
  destruct (Qle_bool 0 x).
  - exists m. apply Qred_correct.
  - exists (- m). rewrite Qred_correct, inject_Z_opp. ring.
Qed.



Lemma last_place_in_binade (x : Q) (l : Z) :
  -1022 <= l -> (2 ^ l <= Qabs x)%Q -> (Qabs x < 2 ^ (l + 1))%Q -> last_place x = l - 52.
Proof.
  intros Hl Hlo Hhi. unfold last_place. rewrite (floor_log2_unique x l Hlo Hhi). lia.
Qed.


(** [Math.round(q * 100) / 100] in binary64, written with two decimals. *)
Lemma rounded_hundredths (q : Q) :
  (Qabs q < inject_Z (2 ^ 46))%Q ->
  exists k,
    toFixed2 (div64 (Math_round (mul64 (Finite q) (Finite 100))) (Finite 100))
    = money_text k
    /\ (Qabs (inject_Z k - q * 100) <= (1 # 2) + one_rounding q)%Q
    /\ (clear_of_ties q -> k = Qfloor (q * 100 + (1 # 2)))
    /\ (inject_Z (2 ^ 52) <= Qabs (q * 100) -> Qabs (inject_Z k - q * 100) <= 1 # 2)%Q.
Proof.
  intros Hq. change (inject_Z (2 ^ 46)) with 70368744177664%Q in Hq.
  assert (Hx : (Qabs (q * 100) == Qabs q * 100)%Q) by (rewrite Qabs_Qmult; reflexivity).
  pose proof (Qabs_nonneg q) as Ha.
  assert (Hfin : (Qabs (q * 100) <= 2 ^ 1023)%Q).
  { assert (7036874417766400 <= 2 ^ 1023)%Q by (vm_compute; discriminate).
    rewrite Hx. set (T := (2 ^ 1023)%Q) in *. set (A := Qabs q) in *. clearbody T A. lra. }
  destruct (binary64_finite (q * 100) Hfin) as [p Ep].
  pose proof (binary64_error _ _ Ep) as Herr.
  assert (Hx53 : (Qabs (q * 100) < 2 ^ 53)%Q).
  { rewrite Hx. change (2 ^ 53)%Q with 9007199254740992%Q.
    set (A := Qabs q) in *. clearbody A. lra. }
  pose proof (binary64_error_below _ _ 53 ltac:(lia) Hx53 Ep) as Herr53.
  change ((1 # 2) * 2 ^ (53 - 53))%Q with (1 # 2)%Q in Herr53.
  pose proof tiny_small as Ht. pose proof tiny_pos as Ht0.
  set (k := Qfloor (p + (1 # 2))).
  pose proof (Qfloor_le (p + (1 # 2))) as Hk1. pose proof (Qlt_floor (p + (1 # 2))) as Hk2.
  fold k in Hk1, Hk2. rewrite inject_Z_plus in Hk2. change (inject_Z 1) with 1%Q in Hk2.
  apply Qabs_bounds in Herr. destruct Herr as [He1 He2].
  apply Qabs_bounds in Herr53. destruct Herr53 as [Hf1 Hf2].
  assert (Hxb : (- (Qabs q * 100) <= q * 100 /\ q * 100 <= Qabs q * 100)%Q).
  { rewrite <- Hx. apply Qabs_bounds. apply Qle_refl. }
  assert (Hkb : Z.abs k <= 100 * 2 ^ 46).
  { assert (H : (- inject_Z (100 * 2 ^ 46 + 1) < inject_Z k
                 /\ inject_Z k < inject_Z (100 * 2 ^ 46 + 1))%Q).
    { change (inject_Z (100 * 2 ^ 46 + 1)) with 7036874417766401%Q.
      set (A := Qabs q) in *. set (X := (q * 100)%Q) in *. set (K := inject_Z k) in *.
      clearbody A X K. split; lra. }
    destruct H as [H1 H2]. rewrite <- inject_Z_opp in H1.
    rewrite <- Zlt_Qlt in H1, H2. lia. }
  assert (Hfin2 : (Qabs (inject_Z k / 100) <= 2 ^ 1023)%Q).
  { rewrite Qabs_hundredths.
    assert (inject_Z (Z.abs k) <= inject_Z (100 * 2 ^ 46))%Q by (rewrite <- Zle_Qle; exact Hkb).
    assert (inject_Z (100 * 2 ^ 46) <= 2 ^ 1023)%Q by (vm_compute; discriminate).
    assert (0 <= inject_Z (Z.abs k))%Q
      by (change 0%Q with (inject_Z 0); rewrite <- Zle_Qle; lia).
    assert (E : (inject_Z (Z.abs k) / 100 == inject_Z (Z.abs k) * (1 # 100))%Q) by field.
    rewrite E.
    set (T := (2 ^ 1023)%Q) in *. set (U := inject_Z (100 * 2 ^ 46)) in *.
    set (K := inject_Z (Z.abs k)) in *. clearbody T U K. lra. }
  destruct (binary64_finite (inject_Z k / 100) Hfin2) as [r Er].
  exists k. split; [|split; [|split]].
  - unfold mul64, div64. cbn [num_mul round64]. rewrite Ep. cbn [Math_round]. fold k.
    cbn [num_div]. change (Qeq_bool 100 0) with false. cbn iota. cbn [round64].
    rewrite Er. now apply toFixed2_rounded.
  - (* the error of the product *)
    unfold one_rounding. apply Qabs_Qle_condition.
    destruct (Qlt_le_dec (Qabs (q * 100)) (2 ^ (-1022))) as [Hsub|Hnorm].
    + (* a product too small to be rounded away from zero *)
      assert (Hs : (2 ^ (-1022) <= 1 # 8)%Q) by (vm_compute; discriminate).
      assert (Hk0 : k = 0).
      { unfold k. apply Qfloor_unique; change (inject_Z 0) with 0%Q;
          rewrite Hx in *; unfold epsilon in *;
          set (A := Qabs q) in *; set (X := (q * 100)%Q) in *;
          set (S := (2 ^ (-1022))%Q) in *; set (t := tiny) in *;
          clearbody A X S t; lra. }
      rewrite Hk0. change (inject_Z 0) with 0%Q.
      rewrite Hx in *. unfold epsilon.
      set (A := Qabs q) in *. set (X := (q * 100)%Q) in *.
      set (S := (2 ^ (-1022))%Q) in *. clearbody A X S. split; lra.
    + pose proof (binary64_normal_error _ _ Hnorm Ep) as Hn.
      apply Qabs_bounds in Hn. destruct Hn as [Hn1 Hn2].
      set (E := (Qabs (q * 100) * epsilon)%Q) in *.
      set (X := (q * 100)%Q) in *. set (K := inject_Z k) in *. clearbody E X K.
      split; lra.
  - intros [Hc1 Hc2]. unfold one_rounding in Hc1, Hc2.
    assert (He0 : (0 <= Qabs (q * 100) * epsilon)%Q)
      by (apply Qmult_le_0_compat; [apply Qabs_nonneg | discriminate]).
    destruct (Qlt_le_dec (Qabs (q * 100)) (2 ^ (-1022))) as [Hsub|Hnorm].
    + assert (Hs : (2 ^ (-1022) <= 1 # 8)%Q) by (vm_compute; discriminate).
      pose proof (Qabs_bounds (q * 100) _ (Qle_refl _)) as [Hb1 Hb2].
      assert (HF : Qfloor (q * 100 + (1 # 2)) = 0).
      { apply Qfloor_unique; change (inject_Z 0) with 0%Q;
          set (B := Qabs (q * 100)) in *; set (X := (q * 100)%Q) in *;
          set (S := (2 ^ (-1022))%Q) in *; clearbody B X S; lra. }
      rewrite HF. unfold k. apply Qfloor_unique; change (inject_Z 0) with 0%Q.
      all: unfold epsilon in *.
      all: set (B := Qabs (q * 100)) in *; set (X := (q * 100)%Q) in *.
      all: set (S := (2 ^ (-1022))%Q) in *; set (t := tiny) in *.
      all: clearbody B X S t; lra.
    + pose proof (binary64_normal_error _ _ Hnorm Ep) as Hn.
      apply Qabs_bounds in Hn. destruct Hn as [Hn1 Hn2].
      unfold k. apply Qfloor_unique.
      all: set (E := (Qabs (q * 100) * epsilon)%Q) in *.
      all: set (X := (q * 100)%Q) in *.
      all: set (F := inject_Z (Qfloor (X + (1 # 2)))) in *.
      all: clearbody E X F; lra.
  - (* a product that is rounded to a whole number *)
    intros Hbig. change (inject_Z (2 ^ 52)) with (2 ^ 52)%Q in Hbig.
    assert (Hnz : ~ (q * 100 == 0)%Q).
    { intros Hz. rewrite Hz in Hbig. revert Hbig. vm_compute. intros H. now apply H. }
    destruct (binary64_grid _ _ Hnz Ep) as [m Hm].
    rewrite (last_place_in_binade (q * 100) 52 ltac:(lia) Hbig Hx53) in Hm.
    change (2 ^ (52 - 52))%Q with 1%Q in Hm. rewrite Qmult_1_r in Hm.
    assert (Hkm : k = m).
    { unfold k. apply Qfloor_unique; set (M := inject_Z m) in *; clearbody M; lra. }
    apply Qabs_Qle_condition. rewrite Hkm.
    set (M := inject_Z m) in *. set (X := (q * 100)%Q) in *. clearbody M X. split; lra.
Qed.




(** From [2^52] hundredths on no value is clear of the ties. *)
Lemma clear_of_ties_small (q : Q) : clear_of_ties q -> (Qabs (q * 100) < inject_Z (2 ^ 52))%Q.
Proof.
  intros [Hc1 Hc2]. unfold one_rounding, epsilon in Hc1, Hc2.
  change (inject_Z (2 ^ 52)) with 4503599627370496%Q.
  set (A := Qabs (q * 100)) in *. set (X := (q * 100)%Q) in *.
  set (F := inject_Z (Qfloor (X + (1 # 2)))) in *. clearbody A X F. lra.
Qed.

Section MoneyFormat.
Context {host : Host}.

(** Away from the ties the exact arithmetic writes the same text, and so
    it does on [null], [undefined], [NaN] and the infinities. *)
Lemma fmtMoney64_clear_of_ties (v : arg) :
  match v with
  | ArgNum (Finite q) => clear_of_ties q
  | _ => True
  end ->
  ClassJs.fmtMoney64 (operand_of_arg v) = Returns (ClassJs.fmtMoney v).
Proof.
  destruct v as [| |[| | |q]]; try reflexivity.
  intros Hc. cbn [operand_of_arg]. pose proof (clear_of_ties_small q Hc) as Hx.
  change (inject_Z (2 ^ 52)) with 4503599627370496%Q in Hx.
  assert (Hq : (Qabs q < inject_Z (2 ^ 46))%Q).
  { change (inject_Z (2 ^ 46)) with 70368744177664%Q.
    rewrite Qabs_Qmult in Hx. change (Qabs 100) with 100%Q in Hx.
    set (A := Qabs q) in *. clearbody A. lra. }
  destruct (rounded_hundredths q Hq) as (k & Ek & Hk & Htie & _).
  unfold ClassJs.fmtMoney64. cbn [loosely_null to_number isNaN]. rewrite Ek. f_equal.
  specialize (Htie Hc). subst k. symmetry. apply fmtMoney_finite.
  change (inject_Z (2 ^ 46)) with 70368744177664%Q in Hq.
  apply Qlt_le_weak, Qabs_bounds in Hq.
  pose proof (Qfloor_le (q * 100 + (1 # 2))) as H1.
  pose proof (Qlt_floor (q * 100 + (1 # 2))) as H2.
  rewrite inject_Z_plus in H2. change (inject_Z 1) with 1%Q in H2.
  set (k := Qfloor (q * 100 + (1 # 2))) in *.
  assert (H : (- inject_Z (10 ^ 16) <= inject_Z k /\ inject_Z k <= inject_Z (10 ^ 16))%Q).
  { change (inject_Z (10 ^ 16)) with 10000000000000000%Q.
    set (K := inject_Z k) in *. clearbody K. split; lra. }
  destruct H as [Hlo Hhi]. rewrite <- inject_Z_opp in Hlo.
  rewrite <- Zle_Qle in Hlo, Hhi. lia.
Qed.

End MoneyFormat.



(** ** Duration extraction *)

Lemma getDurationSeconds_same (r : router) (lengthMeters : number) :
  Part000.getDurationSeconds r lengthMeters = ClassJs.getDurationSeconds r lengthMeters.
Proof. reflexivity. Qed.

Lemma probe_accessor_usable (m : method) :
  m <> Function Throws ->
  probe_accessor m = match usable (result_of m) with Some x => Return x | None => Next end.
Proof.
  intros Hm. destruct m as [|[v|]]; [reflexivity| |congruence].
  unfold probe_accessor, usable, result_of.
  destruct (as_number v) as [x|]; [|reflexivity].
  now destruct (num_geb x (Finite 0)).
Qed.

Lemma member_of_falsy (dur : value) (k : string) :
  truthy dur = false -> member dur k = VUndefined.
Proof. destruct dur; try reflexivity. discriminate. Qed.

Lemma probe_properties_fields (r : router) :
  try_ (probe_properties (properties r))
  = seq (probe_field (duration_property r) "value")
        (probe_field (duration_property r) "duration").
Proof.
  unfold duration_property.
  destruct (properties r) as [[|[dur|]]|]; try reflexivity.
  cbn [probe_properties result_of]. unfold probe_field.
  destruct (truthy dur); [|reflexivity].
  destruct (as_number (member dur "value")); [reflexivity|].
  now destruct (as_number (member dur "duration")).
Qed.

(** Where the first accessor does not throw and the property fields are
    usable whenever they are numbers, the code probes as C7 says. *)
Lemma getDurationSeconds_as_claimed (r : router) (lengthMeters : number) :
  getJamsTime r <> Function Throws ->
  (usable (result_of (getJamsTime r)) = None -> getTime r <> Function Throws) ->
  fields_usable r ->
  ClassJs.getDurationSeconds r lengthMeters = duration_as_claimed r lengthMeters.
Proof.
  intros Hj Ht Hf.
  unfold ClassJs.getDurationSeconds, duration_as_claimed, probes.
  fold (at_40_kmh lengthMeters).
  rewrite probe_properties_fields, (probe_accessor_usable _ Hj).
  unfold omap. cbn [list_omap mbind option_bind].
  destruct (usable (result_of (getJamsTime r))) as [x|] eqn:Ej; [reflexivity|].
  rewrite (probe_accessor_usable _ (Ht eq_refl)).
  destruct (usable (result_of (getTime r))) as [x|] eqn:Et; [reflexivity|].
  cbn [seq try_]. unfold probe_field, usable.
  destruct (truthy (duration_property r)) eqn:Hd.
  - destruct (as_number (member (duration_property r) "value")) as [x|] eqn:Ev.
    { rewrite (Hf _ _ Ev). reflexivity. }
    destruct (as_number (member (duration_property r) "duration")) as [x|] eqn:Ed.
    { rewrite (Hf _ _ Ed). reflexivity. }
    reflexivity.
  - rewrite !(member_of_falsy _ _ Hd). reflexivity.
Qed.

(** C7 at a failing input: the ['duration'] property holds the negative
    [value] -5.  The claim skips it and arrives at the duration of 12345 m at
    40 km/h; both files return -5, because the property probes test only
    [typeof ... === 'number'] where the accessor probes also test [>= 0]. *)
Theorem negative_duration_value_is_returned :
  ClassJs.getDurationSeconds router_negative_value (Finite 12345) = Finite (-5)
  /\ Part000.getDurationSeconds router_negative_value (Finite 12345) = Finite (-5)
  /\ duration_as_claimed router_negative_value (Finite 12345) = Finite 1111.
Proof. repeat split; vm_compute; reflexivity. Qed.

(** The two accessor probes share one [try]: a throwing [getJamsTime] hides a
    working [getTime]. *)
Lemma throwing_getJamsTime_skips_getTime :
  ClassJs.getDurationSeconds router_throwing_jams (Finite 12345) = Finite 1111
  /\ duration_as_claimed router_throwing_jams (Finite 12345) = Finite 100.
Proof. split; vm_compute; reflexivity. Qed.

Lemma binary64_nonneg (q : Q) :
  (0 <= q)%Q -> num_leb (Finite 0) (binary64 q) = true.
Proof.
  intros Hq. unfold binary64.
  destruct (Qeq_bool q 0); [reflexivity|]. cbv zeta.
  rewrite (proj2 (Qle_bool_iff 0 q) Hq).
  destruct (Qle_bool (2 ^ 1024) _); [reflexivity|].
  cbn [num_leb]. apply Qle_bool_iff. rewrite Qred_correct.
  apply Qmult_le_0_compat.
  - change 0%Q with (inject_Z 0). rewrite <- Zle_Qle.
    apply rounded_nonneg; [apply Qabs_nonneg | apply pow2_pos].
  - apply Qlt_le_weak, pow2_pos.
Qed.

Lemma round64_nonneg (x : number) :
  num_leb (Finite 0) x = true -> num_leb (Finite 0) (round64 x) = true.
Proof.
  destruct x as [| | |q]; intros H; try exact H.
  cbn [round64]. apply binary64_nonneg. now apply Qle_bool_iff.
Qed.

Lemma div64_nonneg (x : number) (d : Q) :
  (0 < d)%Q -> num_leb (Finite 0) x = true ->
  num_leb (Finite 0) (div64 x (Finite d)) = true.
Proof.
  intros Hd H. apply round64_nonneg.
  destruct x as [| | |q]; try discriminate H.
  - cbn [num_div num_sign]. rewrite (proj2 (Qle_bool_iff 0 d)) by lra. reflexivity.
  - cbn [num_div]. destruct (Qeq_bool d 0) eqn:E; [apply Qeq_bool_iff in E; lra|].
    cbn [num_leb] in *. apply Qle_bool_iff in H. apply Qle_bool_iff.
    apply Qle_shift_div_l; lra.
Qed.

Lemma mul64_nonneg (x : number) (d : Q) :
  (0 < d)%Q -> num_leb (Finite 0) x = true ->
  num_leb (Finite 0) (mul64 x (Finite d)) = true.
Proof.
  intros Hd H. apply round64_nonneg.
  destruct x as [| | |q]; try discriminate H.
  - cbn [num_mul num_sign].
    assert (Hn : 0 < Qnum d) by (revert Hd; unfold Qlt; cbn; lia).
    rewrite Z.sgn_pos by exact Hn. reflexivity.
  - cbn [num_mul num_leb] in *. apply Qle_bool_iff in H. apply Qle_bool_iff.
    apply Qmult_le_0_compat; lra.
Qed.

Lemma Math_round_nonneg (x : number) :
  num_leb (Finite 0) x = true -> num_leb (Finite 0) (Math_round x) = true.
Proof.
  destruct x as [| | |q]; intros H; try exact H.
  cbn [Math_round num_leb] in *. apply Qle_bool_iff in H. apply Qle_bool_iff.
  change 0%Q with (inject_Z 0). rewrite <- Zle_Qle.
  rewrite <- (Qfloor_Z 0). apply Qfloor_resp_le. change (inject_Z 0) with 0%Q. lra.
Qed.

Lemma at_40_kmh_nonnegative (lengthMeters : number) :
  num_leb (Finite 0) lengthMeters = true ->
  num_geb (at_40_kmh lengthMeters) (Finite 0) = true.
Proof.
  intros H. unfold at_40_kmh, num_geb.
  apply Math_round_nonneg, mul64_nonneg; [reflexivity|].
  apply div64_nonneg; [reflexivity|]. apply div64_nonneg; [reflexivity | exact H].
Qed.

(** The three roundings of the fallback: 350 m at 40 km/h are 31.5 s, and
    the language computes a number just below, which rounds to 31. *)
Lemma at_40_kmh_examples :
  at_40_kmh (Finite 350) = Finite 31
  /\ at_40_kmh (Finite 12345) = Finite 1111
  /\ at_40_kmh (Finite 0) = Finite 0
  /\ at_40_kmh PosInf = PosInf.
Proof. repeat split; vm_compute; reflexivity. Qed.

(** Without a ['duration'] property the result is never negative. *)
Lemma getDurationSeconds_nonnegative_without_properties (r : router) (lengthMeters : number) :
  properties r = None ->
  num_leb (Finite 0) lengthMeters = true ->
  num_geb (ClassJs.getDurationSeconds r lengthMeters) (Finite 0) = true.
Proof.
  intros Hp Hl. unfold ClassJs.getDurationSeconds. rewrite Hp.
  fold (at_40_kmh lengthMeters).
  assert (Ha : forall m, match probe_accessor m with
                         | Return x => num_geb x (Finite 0) = true
                         | _ => True
                         end).
  { intros [|[v|]]; unfold probe_accessor; try exact I.
    destruct (as_number v) as [x|]; [|exact I].
    destruct (num_geb x (Finite 0)) eqn:E; [exact E | exact I]. }
  pose proof (Ha (getJamsTime r)) as Hj. pose proof (Ha (getTime r)) as Ht.
  destruct (probe_accessor (getJamsTime r)); cbn [seq try_ or_return probe_properties];
    try exact Hj; try (now apply at_40_kmh_nonnegative).
  destruct (probe_accessor (getTime r)); cbn [seq try_ or_return probe_properties];
    try exact Ht; now apply at_40_kmh_nonnegative.
Qed.

(** C9 at a failing input: a route of 2000 m whose ['duration'] property
    holds the field [duration] = -1.  Both files return -1, a negative
    number, where the claim promises a non-negative one; the property probes
    lack the [>= 0] test of the accessor probes. *)
Theorem negative_duration_field_is_returned :
  num_leb (Finite 0) (Finite 2000) = true
  /\ ClassJs.getDurationSeconds router_negative_duration (Finite 2000) = Finite (-1)
  /\ Part000.getDurationSeconds router_negative_duration (Finite 2000) = Finite (-1)
  /\ num_geb (ClassJs.getDurationSeconds router_negative_duration (Finite 2000)) (Finite 0) = false.
Proof. repeat split; vm_compute; reflexivity. Qed.

(** ** Superseded requests *)

Section Superseded.
Context {host : Host}.
Variable fails : sdk_call -> bool.

(** The success callback of a superseded request changes nothing but the
    request's own [settled] mark. *)
Lemma superseded_success_is_silent (s : state) (i : nat) (r : router) :
  superseded s i ->
  ClassJs.step fails (route_resolved i r) s = mark_settled i s
  /\ Part000.step fails (route_resolved i r) s = mark_settled i s
  /\ ui (mark_settled i s) = ui s.
Proof.
  intros (rq & Hrq & Hs & Hd).
  unfold ClassJs.step, Part000.step, ClassJs.handler, Part000.handler.
  unfold mbind, M_bind, get_state. rewrite Hrq, Hs.
  unfold modify, ClassJs.route_success, Part000.route_success, mbind, M_bind, isRejected.
  cbn [mark_settled set_requests deferreds]. rewrite Hd.
  repeat split.
Qed.
End Superseded.

(** C1 at a failing input: after three clicks request 0 is superseded by
    request 1 and is still with the provider; no balloon has a text.  When
    the provider then fails request 0, either file writes the failure message
    into the finish balloon and opens it: the failure callback does not look
    at the deferred, which the success callback does. *)
Theorem superseded_failure_reaches_the_balloon :
  let before := @ClassJs.run sample_host two_requests (init sample_page) in
  let after := @ClassJs.step sample_host no_faults (route_failed 0) before in
  let before' := @Part000.run sample_host two_requests (init sample_page) in
  let after' := @Part000.step sample_host no_faults (route_failed 0) before' in
  (superseded before 0 /\ live before 1
   /\ (balloonContentBody <$> _finishPoint before) = Some None
   /\ (balloonContentBody <$> _finishPoint after) = Some (Some "Can't build route")
   /\ (balloon_open <$> _finishPoint after) = Some true
   /\ ui after <> ui before)
  /\ (superseded before' 0 /\ live before' 1
      /\ (balloonContentBody <$> _finishPoint before') = Some None
      /\ (balloonContentBody <$> _finishPoint after') = Some (Some "Can't build route")
      /\ (balloon_open <$> _finishPoint after') = Some true
      /\ ui after' <> ui before').
Proof.
  cbv zeta. split.
  - split; [eexists; repeat split; vm_compute; reflexivity|].
    split; [eexists; repeat split; vm_compute; reflexivity|].
    repeat split; try (vm_compute; reflexivity).
    intros H. apply (f_equal (fun u => balloon_open <$> snd (fst (fst (fst u))))) in H.
    vm_compute in H. discriminate H.
  - split; [eexists; repeat split; vm_compute; reflexivity|].
    split; [eexists; repeat split; vm_compute; reflexivity|].
    repeat split; try (vm_compute; reflexivity).
    intros H. apply (f_equal (fun u => balloon_open <$> snd (fst (fst (fst u))))) in H.
    vm_compute in H. discriminate H.
Qed.

(** ** Clicks *)

Ltac run_handler :=
  repeat (cbv beta iota zeta delta
            [mbind M_bind mret M_ret get_state modify when_ vow_defer ymaps_route
             isResolved isRejected reject resolve settle_deferred negb];
          cbn [_startPoint _finishPoint _route _router _startPointBalloonContent
               _finishPointBalloonContent _deferred deferreds requests geoObjects
               bounds document set_startPoint set_finishPoint set_route set_router
               set_startPointBalloonContent set_finishPointBalloonContent
               set_deferred set_deferreds set_requests set_geoObjects set_bounds
               set_document String.eqb Ascii.eqb Bool.eqb final]).

Section Clicks.
Context {host : Host}.
Variable fails : sdk_call -> bool.

Lemma ClassJs_setupRoute_requests (s : state) (sp fp : placemark) :
  _startPoint s = Some sp -> _finishPoint s = Some fp ->
  let s' := final (ClassJs._setupRoute s) in
  _startPoint s' = Some sp /\ _finishPoint s' = Some fp
  /\ (points <$> requests s') = ((points <$> requests s) ++ [(geometry sp, geometry fp)])%list.
Proof.
  intros Hs Hf. unfold ClassJs._setupRoute. run_handler. rewrite Hs, Hf.
  destruct (_deferred s) as [d|]; run_handler.
  - destruct (deferreds s !! d) as [[]|] eqn:E; run_handler; rewrite ?E; run_handler;
      rewrite fmap_app; repeat split; assumption.
  - rewrite fmap_app; repeat split; assumption.
Qed.



Lemma Part000_setupRoute_same : Part000._setupRoute = ClassJs._setupRoute.
Proof. reflexivity. Qed.

Lemma ClassJs_first_click (s : state) (p : coords) :
  _startPoint s = None -> _finishPoint s = None ->
  let s' := ClassJs.step fails (click p) s in
  (geometry <$> _startPoint s') = Some p
  /\ _finishPoint s' = None
  /\ requests s' = requests s.
Proof.
  intros Hs Hf. unfold ClassJs.step, ClassJs.handler, ClassJs._onClick, ClassJs.setPoint.
  run_handler. rewrite Hs. run_handler. rewrite Hs. run_handler. rewrite Hf.
  run_handler. repeat split. exact Hf.
Qed.

Lemma ClassJs_next_click (s : state) (sp : placemark) (p : coords) :
  _startPoint s = Some sp ->
  let s' := ClassJs.step fails (click p) s in
  _startPoint s' = Some sp
  /\ (geometry <$> _finishPoint s') = Some p
  /\ (points <$> requests s') = ((points <$> requests s) ++ [(geometry sp, p)])%list.
Proof.
  intros Hs. unfold ClassJs.step, ClassJs.handler, ClassJs._onClick, ClassJs.setPoint.
  run_handler. rewrite Hs.
  destruct (_finishPoint s) as [fp|] eqn:Hf; run_handler; rewrite ?Hs, ?Hf; run_handler;
    rewrite ?Hs; run_handler.
  - destruct (ClassJs_setupRoute_requests
                (set_finishPoint (Some (setCoordinates p fp)) s) sp (setCoordinates p fp)
                Hs eq_refl) as (H1 & H2 & H3).
    rewrite H1, H2, H3. repeat split.
  - destruct (ClassJs_setupRoute_requests
                (set_finishPoint (Some (new_Placemark p "B")) s) sp (new_Placemark p "B")
                Hs eq_refl) as (H1 & H2 & H3).
    rewrite H1, H2, H3. repeat split.
Qed.

Lemma Part000_first_click (s : state) (p : coords) :
  _startPoint s = None -> _finishPoint s = None ->
  let s' := Part000.step fails (click p) s in
  (geometry <$> _startPoint s') = Some p
  /\ _finishPoint s' = None
  /\ requests s' = requests s.
Proof.
  intros Hs Hf.
  unfold Part000.step, Part000.handler, Part000._onClick, Part000.setPoint,
    Part000._setupRoute.
  run_handler. rewrite Hs. run_handler. rewrite Hs. run_handler. rewrite Hf.
  run_handler. repeat split. exact Hf.
Qed.

Lemma Part000_next_click (s : state) (sp : placemark) (p : coords) :
  _startPoint s = Some sp ->
  let s' := Part000.step fails (click p) s in
  _startPoint s' = Some sp
  /\ (geometry <$> _finishPoint s') = Some p
  /\ (points <$> requests s') = ((points <$> requests s) ++ [(geometry sp, p)])%list.
Proof.
  intros Hs. unfold Part000.step, Part000.handler, Part000._onClick, Part000.setPoint.
  rewrite Part000_setupRoute_same.
  run_handler. rewrite Hs.
  destruct (_finishPoint s) as [fp|] eqn:Hf; run_handler; rewrite ?Hs, ?Hf; run_handler.
  - destruct (ClassJs_setupRoute_requests
                (set_finishPoint (Some (setCoordinates p fp)) s) sp (setCoordinates p fp)
                Hs eq_refl) as (H1 & H2 & H3).
    rewrite H1, H2, H3. repeat split.
  - destruct (ClassJs_setupRoute_requests
                (set_finishPoint (Some (new_Placemark p "B")) s) sp (new_Placemark p "B")
                Hs eq_refl) as (H1 & H2 & H3).
    rewrite H1, H2, H3. repeat split.
Qed.
End Clicks.

Lemma run_snoc_ClassJs {host : Host} trace fe (s : state) :
  ClassJs.run (trace ++ [fe]) s = ClassJs.step (fst fe) (snd fe) (ClassJs.run trace s).
Proof. unfold ClassJs.run. now rewrite fold_left_app. Qed.

Lemma run_snoc_Part000 {host : Host} trace fe (s : state) :
  Part000.run (trace ++ [fe]) s = Part000.step (fst fe) (snd fe) (Part000.run trace s).
Proof. unfold Part000.run. now rewrite fold_left_app. Qed.

Lemma clicked_snoc (first : coords) (rest : list coords) (p : coords) (s s' : state)
    (sp : placemark) :
  clicked first rest s ->
  _startPoint s = Some sp ->
  _startPoint s' = Some sp ->
  (geometry <$> _finishPoint s') = Some p ->
  (points <$> requests s') = ((points <$> requests s) ++ [(geometry sp, p)])%list ->
  clicked first (rest ++ [p]) s'.
Proof.
  intros (Hs & _ & Hr) Hsp Hsp' Hf' Hr'. unfold clicked.
  rewrite Hsp in Hs. cbn in Hs. injection Hs as Hg.
  rewrite Hsp', Hf', Hr', Hr, last_snoc, fmap_app. cbn. rewrite Hg. repeat split.
Qed.

(** C8: whatever the clicks are, the first puts the start placemark where
    it was, the second puts the finish placemark, and every later one moves
    the finish placemark and never the start; from the second click on, each
    click asks the provider for the route from the start to where it was. *)
Theorem clicks_set_start_then_move_finish {host : Host} (page : gmap string string)
    (first : (sdk_call -> bool) * coords) (rest : list ((sdk_call -> bool) * coords)) :
  clicked (snd first) (snd <$> rest) (ClassJs.run (clicks (first :: rest)) (init page))
  /\ clicked (snd first) (snd <$> rest) (Part000.run (clicks (first :: rest)) (init page)).
Proof.
  induction rest as [|x rest IH] using rev_ind.
  - unfold clicks, ClassJs.run, Part000.run. cbn [fmap list_fmap fold_left fst snd].
    destruct (ClassJs_first_click (fst first) (init page) (snd first) eq_refl eq_refl)
      as (H1 & H2 & H3).
    destruct (Part000_first_click (fst first) (init page) (snd first) eq_refl eq_refl)
      as (H1' & H2' & H3').
    unfold clicked. rewrite H1, H2, H3, H1', H2', H3'. repeat split.
  - destruct IH as [IHc IHp].
    unfold clicks in *. rewrite app_comm_cons, !fmap_app.
    cbn [fmap list_fmap] in *.
    rewrite run_snoc_ClassJs, run_snoc_Part000. cbn [fst snd].
    split.
    + set (s := ClassJs.run _ _) in *.
      destruct (_startPoint s) as [sp|] eqn:Hsp;
        [|destruct IHc as [Hs _]; rewrite Hsp in Hs; discriminate Hs].
      destruct (ClassJs_next_click (fst x) s sp (snd x) Hsp) as (H1 & H2 & H3).
      exact (clicked_snoc _ _ _ _ _ _ IHc Hsp H1 H2 H3).
    + set (s := Part000.run _ _) in *.
      destruct (_startPoint s) as [sp|] eqn:Hsp;
        [|destruct IHp as [Hs _]; rewrite Hsp in Hs; discriminate Hs].
      destruct (Part000_next_click (fst x) s sp (snd x) Hsp) as (H1 & H2 & H3).
      exact (clicked_snoc _ _ _ _ _ _ IHp Hsp H1 H2 H3).
Qed.

(** ** Handlers and what they keep *)

Section Keeps.
Variable I : state -> Prop.

Lemma keeps_ret {A} (a : A) : keeps I (mret a).
Proof. intros s H. exact H. Qed.

Lemma keeps_throw {A} : keeps I (@throw A).
Proof. intros s H. exact H. Qed.

Lemma keeps_bind {A B} (m : M A) (k : A -> M B) :
  keeps I m -> (forall a, keeps I (k a)) -> keeps I (m ≫= k).
Proof.
  intros Hm Hk s H. specialize (Hm s H).
  unfold mbind, M_bind. destruct (m s) as [a s'|s']; [apply Hk|]; exact Hm.
Qed.

Lemma keeps_try_catch (m : M unit) : keeps I m -> keeps I (try_catch m).
Proof.
  intros Hm s H. specialize (Hm s H). unfold try_catch. now destruct (m s).
Qed.

Lemma keeps_when (b : bool) (m : M unit) : keeps I m -> keeps I (when_ b m).
Proof. intros Hm. destruct b; [exact Hm | apply keeps_ret]. Qed.

Lemma keeps_get_state : keeps I get_state.
Proof. intros s H. exact H. Qed.

Lemma keeps_modify (f : state -> state) :
  (forall s, I s -> I (f s)) -> keeps I (modify f).
Proof. intros Hf s H. apply Hf, H. Qed.

Lemma keeps_sdk fails (c : sdk_call) : keeps I (sdk fails c).
Proof. intros s H. unfold sdk. now destruct (fails c). Qed.

Lemma keeps_isRejected (d : nat) : keeps I (isRejected d).
Proof. intros s H. exact H. Qed.

Lemma keeps_isResolved (d : nat) : keeps I (isResolved d).
Proof. intros s H. exact H. Qed.

Lemma keeps_getElementById fails (id : string) : keeps I (getElementById fails id).
Proof.
  unfold getElementById.
  apply keeps_bind; [apply keeps_sdk|]. intros _.
  apply keeps_bind; [apply keeps_get_state|]. intros self. apply keeps_ret.
Qed.

Lemma keeps_on_placemark fails (isStart : bool) (c : sdk_call) (f : placemark -> placemark) :
  (forall s pm, I s -> I (set_startPoint (Some pm) s)) ->
  (forall s pm, I s -> I (set_finishPoint (Some pm) s)) ->
  keeps I (on_placemark fails isStart c f).
Proof.
  intros Hs Hf s H. unfold on_placemark.
  destruct (if isStart then _startPoint s else _finishPoint s); [|exact H].
  destruct (fails c); [exact H|]. destruct isStart; [apply Hs | apply Hf]; exact H.
Qed.

Lemma keeps_set_textContent fails (id text : string) :
  (forall s v, I s -> I (set_document v s)) ->
  keeps I (set_textContent fails id text).
Proof.
  intros Hd. unfold set_textContent.
  apply keeps_bind; [apply keeps_sdk|]. intros _.
  apply keeps_modify. intros s H. apply Hd, H.
Qed.

Lemma keeps_settle_deferred (d : nat) (to : status) :
  (forall s v, I s -> I (set_deferreds v s)) ->
  keeps I (settle_deferred d to).
Proof.
  intros Hd s H. unfold settle_deferred.
  destruct (deferreds s !! d) as [[]|]; try exact H. apply Hd, H.
Qed.

Lemma keeps_vow_defer :
  (forall s v, I s -> I (set_deferreds v s)) -> keeps I vow_defer.
Proof. intros Hd s H. apply Hd, H. Qed.
End Keeps.

Ltac solve_stable :=
  intros;
  unfold geoObjects_add, geoObjects_remove, mark_settled in *;
  match goal with
  | H : requests_have_points _ |- requests_have_points _ =>
      destruct H as [H|[? ?]];
      [ left; cbn; solve [assumption | rewrite H; reflexivity]
      | right; cbn; split; solve [assumption | eexists; reflexivity] ]
  end.

Ltac keeps_step :=
  lazymatch goal with
  | |- keeps _ (mbind _ _) => apply keeps_bind; [|intros ?]
  | |- keeps _ (mret _) => apply keeps_ret
  | |- keeps _ throw => apply keeps_throw
  | |- keeps _ (try_catch _) => apply keeps_try_catch
  | |- keeps _ (when_ _ _) => apply keeps_when
  | |- keeps _ get_state => apply keeps_get_state
  | |- keeps _ (modify _) => apply keeps_modify
  | |- keeps _ (sdk _ _) => apply keeps_sdk
  | |- keeps _ (isRejected _) => apply keeps_isRejected
  | |- keeps _ (isResolved _) => apply keeps_isResolved
  | |- keeps _ (on_placemark _ _ _ _) => apply keeps_on_placemark
  | |- keeps _ (getElementById _ _) => apply keeps_getElementById
  | |- keeps _ (set_textContent _ _ _) => apply keeps_set_textContent
  | |- keeps _ (resolve _) => apply keeps_settle_deferred
  | |- keeps _ (reject _) => apply keeps_settle_deferred
  | |- keeps _ vow_defer => apply keeps_vow_defer
  | |- keeps _ (match ?x with _ => _ end) => destruct x
  end.

Ltac keeps_auto := cbv zeta; repeat keeps_step; try solve_stable.

Section PointsInvariant.
Context {host : Host}.
Variable fails : sdk_call -> bool.

Lemma setupRoute_without_points (s : state) :
  _startPoint s = None \/ _finishPoint s = None -> ClassJs._setupRoute s = Done tt s.
Proof.
  intros H. unfold ClassJs._setupRoute. run_handler.
  destruct (_startPoint s); [|reflexivity].
  destruct (_finishPoint s); [|reflexivity].
  destruct H; discriminate.
Qed.

Lemma setupRoute_keeps_points : keeps requests_have_points ClassJs._setupRoute.
Proof.
  intros s H.
  destruct (_startPoint s) as [sp|] eqn:Hs;
    [|rewrite setupRoute_without_points by (now left); exact H].
  destruct (_finishPoint s) as [fp|] eqn:Hf;
    [|rewrite setupRoute_without_points by (now right); exact H].
  destruct (ClassJs_setupRoute_requests s sp fp Hs Hf) as (H1 & H2 & _).
  right. rewrite H1, H2. split; eexists; reflexivity.
Qed.

Lemma ClassJs_updatePanel_keeps_points distanceText seconds price :
  keeps requests_have_points (ClassJs.updatePanel fails distanceText seconds price).
Proof. unfold ClassJs.updatePanel. keeps_auto. Qed.

Lemma ClassJs_route_success_keeps_points rq r :
  keeps requests_have_points (ClassJs.route_success fails rq r).
Proof.
  unfold ClassJs.route_success. keeps_auto.
  apply ClassJs_updatePanel_keeps_points.
Qed.

Lemma ClassJs_setPoint_keeps_points which pos balloonContent :
  keeps requests_have_points (ClassJs.setPoint which pos balloonContent).
Proof.
  unfold ClassJs.setPoint. cbv zeta. destruct (String.eqb which "start").
  all: keeps_auto; apply setupRoute_keeps_points.
Qed.

Lemma ClassJs_handler_keeps_points (e : event) :
  keeps requests_have_points (ClassJs.handler fails e).
Proof.
  destruct e as [pos|[] pos|which pos balloonContent|start finish| |i r|i];
    unfold ClassJs.handler, ClassJs._onClick, ClassJs.setRoute, ClassJs.route_failure.
  all: keeps_auto.
  all: first [ apply ClassJs_setPoint_keeps_points
             | apply setupRoute_keeps_points
             | apply ClassJs_route_success_keeps_points ].
Qed.

Lemma Part000_updatePanel_keeps_points distanceText price seconds :
  keeps requests_have_points (Part000.updatePanel fails distanceText price seconds).
Proof. unfold Part000.updatePanel. keeps_auto. Qed.

Lemma Part000_clearRoute_keeps_points :
  keeps requests_have_points (Part000.clearRoute fails).
Proof. unfold Part000.clearRoute. keeps_auto. Qed.

Lemma Part000_route_success_keeps_points rq r :
  keeps requests_have_points (Part000.route_success fails rq r).
Proof.
  unfold Part000.route_success. keeps_auto.
  - apply Part000_clearRoute_keeps_points.
  - apply Part000_updatePanel_keeps_points.
Qed.

Lemma Part000_setPoint_keeps_points role pos balloonContent :
  keeps requests_have_points (Part000.setPoint role pos balloonContent).
Proof.
  unfold Part000.setPoint. cbv zeta. destruct (String.eqb role "start").
  all: keeps_auto.
Qed.

Lemma Part000_handler_keeps_points (e : event) :
  keeps requests_have_points (Part000.handler fails e).
Proof.
  destruct e as [pos|[] pos|role pos balloonContent|start finish| |i r|i];
    unfold Part000.handler, Part000._onClick, Part000.setRoute, Part000.route_failure.
  all: keeps_auto.
  all: first [ apply Part000_setPoint_keeps_points
             | rewrite Part000_setupRoute_same; apply setupRoute_keeps_points
             | apply Part000_route_success_keeps_points
             | apply Part000_clearRoute_keeps_points ].
Qed.
End PointsInvariant.

Lemma reachable_ClassJs_has_points {host : Host} (s : state) :
  reachable_ClassJs s -> requests_have_points s.
Proof.
  intros (page & trace & ->).
  induction trace as [|fe trace IH] using rev_ind.
  - left. reflexivity.
  - rewrite run_snoc_ClassJs. apply ClassJs_handler_keeps_points, IH.
Qed.

Lemma reachable_Part000_has_points {host : Host} (s : state) :
  reachable_Part000 s -> requests_have_points s.
Proof.
  intros (page & trace & ->).
  induction trace as [|fe trace IH] using rev_ind.
  - left. reflexivity.
  - rewrite run_snoc_Part000. apply Part000_handler_keeps_points, IH.
Qed.


(** ** The failure callback *)

Section Failure.
Context {host : Host}.
Variable fails : sdk_call -> bool.

Lemma Part000_route_failure_same : Part000.route_failure fails = ClassJs.route_failure fails.
Proof. reflexivity. Qed.

(** One run of the failure callback where the finish placemark exists. *)
Lemma route_failure_shown (s : state) (pm : placemark) :
  _finishPoint s = Some pm ->
  exists s', ClassJs.route_failure fails s = Done tt s' /\ failure_shown fails s s'.
Proof.
  intros Hf. unfold ClassJs.route_failure, try_catch, on_placemark, failure_shown.
  run_handler. rewrite Hf.
  destruct (fails (PropertiesSet false)) eqn:E1; run_handler.
  { eexists. split; [reflexivity|]. rewrite Hf. repeat split.
    exists pm. split; [reflexivity|]. discriminate. }
  destruct (fails BalloonOpen) eqn:E2; run_handler.
  { eexists. split; [reflexivity|]. run_handler. repeat split.
    eexists. split; [reflexivity|]. intros _. split; [reflexivity|]. discriminate. }
  destruct (fails BalloonAutoPan) eqn:E3; run_handler.
  all: eexists; (split; [reflexivity|]); run_handler; repeat split;
    eexists; (split; [reflexivity|]); intros _; split; [reflexivity|]; reflexivity.
Qed.

Lemma live_failure_handler (handler : M unit) (s : state) (i : nat) :
  handler = (self ← get_state;
             match requests self !! i with
             | Some rq =>
                 if settled rq then mret tt
                 else modify (mark_settled i);; ClassJs.route_failure fails
             | None => mret tt
             end) ->
  requests_have_points s ->
  live s i ->
  exists s', handler s = Done tt s' /\ failure_shown fails s s'.
Proof.
  intros -> Hinv (rq & Hrq & Hs & Hd).
  destruct Hinv as [Hnil|[_ [pm Hpm]]]; [rewrite Hnil in Hrq; discriminate Hrq|].
  destruct (route_failure_shown (mark_settled i s) pm Hpm) as (s' & Hrun & Hshown).
  exists s'. split.
  - unfold mbind, M_bind, get_state. rewrite Hrq, Hs. unfold modify. exact Hrun.
  - unfold failure_shown in *. cbn [mark_settled set_requests requests _deferred deferreds
      document geoObjects _startPoint _finishPoint] in Hshown.
    rewrite length_alter in Hshown. exact Hshown.
Qed.

(** C2: when the provider fails the live request of a reachable state, the
    failure callback of either file ends without an exception; it has
    written the fixed message into the finish balloon and opened the
    balloon, as far as the SDK took those calls; it has asked the provider
    for nothing and left the deferreds, the page and the map as they were. *)
Theorem live_failure_shows_the_message (s : state) (i : nat) :
  live s i ->
  (reachable_ClassJs s ->
   exists s', ClassJs.handler fails (route_failed i) s = Done tt s'
              /\ failure_shown fails s s')
  /\ (reachable_Part000 s ->
      exists s', Part000.handler fails (route_failed i) s = Done tt s'
                 /\ failure_shown fails s s').
Proof.
  intros Hlive. split; intros Hreach.
  - apply (live_failure_handler _ s i); [reflexivity | | exact Hlive].
    now apply reachable_ClassJs_has_points.
  - apply (live_failure_handler _ s i); [reflexivity | | exact Hlive].
    now apply reachable_Part000_has_points.
Qed.
End Failure.

Lemma live_failure_shows_the_message_witness :
  let s := @ClassJs.run sample_host two_requests (init sample_page) in
  live s 1
  /\ @reachable_ClassJs sample_host s
  /\ @reachable_Part000 sample_host s
  /\ (exists s', @ClassJs.handler sample_host no_faults (route_failed 1) s = Done tt s'
                 /\ failure_shown no_faults s s')
  /\ (exists s', @Part000.handler sample_host no_faults (route_failed 1) s = Done tt s'
                 /\ failure_shown no_faults s s').
Proof.
  cbv zeta.
  assert (Hlive : live (@ClassJs.run sample_host two_requests (init sample_page)) 1).
  { eexists. repeat split; vm_compute; reflexivity. }
  assert (Hc : @reachable_ClassJs sample_host
                 (@ClassJs.run sample_host two_requests (init sample_page))).
  { exists sample_page, two_requests. reflexivity. }
  assert (Hp : @reachable_Part000 sample_host
                 (@ClassJs.run sample_host two_requests (init sample_page))).
  { exists sample_page, two_requests. vm_compute. reflexivity. }
  split; [exact Hlive|]. split; [exact Hc|]. split; [exact Hp|].
  destruct (@live_failure_shows_the_message sample_host no_faults _ 1 Hlive) as [H1 H2].
  split; [exact (H1 Hc) | exact (H2 Hp)].
Defined.

(** ** Every stale request is a rejected one *)

Lemma well_tracked_tracking (s s' : state) :
  tracking s' = tracking s -> well_tracked s -> well_tracked s'.
Proof.
  unfold tracking. intros E [H1 H2 H3]. injection E as Er Ed Ec.
  split; rewrite ?Er, ?Ed, ?Ec; assumption.
Qed.

Lemma tracked_during_tracking (d : nat) (s s' : state) :
  tracking s' = tracking s -> tracked_during d s -> tracked_during d s'.
Proof.
  intros E [H1 H2]. split; [now apply (well_tracked_tracking s)|].
  unfold tracking in E. injection E as Er _ _. now rewrite Er.
Qed.

Lemma well_tracked_init (page : gmap string string) : well_tracked (init page).
Proof. split; cbn; intros; discriminate. Qed.

Lemma lookup_alter_settle (l : list request) (i j : nat) (rq : request) :
  alter settle i l !! j = Some rq ->
  exists rq0, l !! j = Some rq0 /\ deferred rq = deferred rq0
              /\ (settled rq = false -> settled rq0 = false /\ i <> j).
Proof.
  destruct (decide (i = j)) as [->|Hne].
  - rewrite list_lookup_alter_eq. destruct (l !! j) as [rq0|]; [|discriminate].
    cbn. intros [= <-]. exists rq0.
    split; [reflexivity|]. split; [reflexivity|]. cbn. discriminate.
  - rewrite list_lookup_alter_ne by exact Hne. intros H. exists rq.
    split; [exact H|]. split; [reflexivity|]. intros Hs. split; [exact Hs | exact Hne].
Qed.

(** Settling a request keeps the tracking, and opens the window of its callbacks. *)
Lemma well_tracked_mark_settled (s : state) (i : nat) (rq : request) :
  requests s !! i = Some rq ->
  well_tracked s -> tracked_during (deferred rq) (mark_settled i s).
Proof.
  intros Hrq [H1 H2 H3]. split; [split|]; cbn [mark_settled set_requests requests deferreds _deferred].
  - intros j rq' Hj. destruct (lookup_alter_settle _ _ _ _ Hj) as (rq0 & Hj0 & -> & _).
    exact (H1 j rq0 Hj0).
  - intros j k rq1 rq2 Hj Hk.
    destruct (lookup_alter_settle _ _ _ _ Hj) as (rj & Hj0 & -> & _).
    destruct (lookup_alter_settle _ _ _ _ Hk) as (rk & Hk0 & -> & _).
    exact (H2 j k rj rk Hj0 Hk0).
  - intros j rq' Hj Hs.
    destruct (lookup_alter_settle _ _ _ _ Hj) as (rq0 & Hj0 & -> & Hu).
    destruct (Hu Hs) as [Hs0 _]. exact (H3 j rq0 Hj0 Hs0).
  - intros j rq' Hj Hd.
    destruct (lookup_alter_settle _ _ _ _ Hj) as (rq0 & Hj0 & Hd0 & Hu).
    destruct (settled rq') eqn:Hs; [reflexivity|].
    destruct (Hu eq_refl) as [_ Hne]. exfalso. apply Hne.
    apply (H2 i j rq rq0 Hrq Hj0). congruence.
Qed.

(** Fulfilling the deferred of a settled request closes the window. *)
Lemma tracked_during_resolve (d : nat) (s : state) :
  tracked_during d s -> well_tracked (final (resolve d s)).
Proof.
  intros [[H1 H2 H3] Hd]. unfold resolve, settle_deferred.
  destruct (deferreds s !! d) as [[]|] eqn:E; cbn [final]; try (split; assumption).
  split; cbn [set_deferreds requests deferreds _deferred].
  - intros i rq Hi. rewrite length_insert. exact (H1 i rq Hi).
  - exact H2.
  - intros i rq Hi Hs.
    assert (Hne : d <> deferred rq).
    { intros ->. rewrite (Hd i rq Hi eq_refl) in Hs. discriminate Hs. }
    rewrite list_lookup_insert_ne by exact Hne. exact (H3 i rq Hi Hs).
Qed.

Lemma setupRoute_tracking (s : state) (sp fp : placemark) :
  _startPoint s = Some sp -> _finishPoint s = Some fp ->
  tracking (final (ClassJs._setupRoute s))
  = ((requests s ++ [ {| points := (geometry sp, geometry fp);
                        startBalloon := _startPointBalloonContent s;
                        finishBalloon := _finishPointBalloonContent s;
                        deferred := length (after_cancel s);
                        settled := false |} ])%list,
     (after_cancel s ++ [Pending])%list,
     Some (length (after_cancel s))).
Proof.
  intros Hs Hf. unfold ClassJs._setupRoute, tracking, after_cancel. run_handler.
  rewrite Hs, Hf.
  destruct (_deferred s) as [d|]; run_handler; [|reflexivity].
  destruct (deferreds s !! d) as [[]|] eqn:E; run_handler; rewrite ?E; run_handler;
    reflexivity.
Qed.

Lemma after_cancel_length (s : state) : length (after_cancel s) = length (deferreds s).
Proof.
  unfold after_cancel. destruct (_deferred s) as [d|]; [|reflexivity].
  destruct (deferreds s !! d) as [[]|]; try reflexivity. apply length_insert.
Qed.

(** After the cancellation no unsettled request is pending. *)
Lemma after_cancel_rejected (s : state) (i : nat) (rq : request) :
  well_tracked s ->
  requests s !! i = Some rq -> settled rq = false ->
  after_cancel s !! deferred rq = Some Rejected.
Proof.
  intros [H1 H2 H3] Hi Hs. unfold after_cancel.
  destruct (H3 i rq Hi Hs) as [Hr|[Hp Hc]].
  - destruct (_deferred s) as [d|]; [|exact Hr].
    destruct (deferreds s !! d) as [[]|] eqn:E; try exact Hr.
    destruct (decide (d = deferred rq)) as [->|Hne]; [congruence|].
    rewrite list_lookup_insert_ne by exact Hne. exact Hr.
  - rewrite Hc, Hp. apply list_lookup_insert_eq. exact (H1 i rq Hi).
Qed.

Lemma setupRoute_keeps_tracking : keeps well_tracked ClassJs._setupRoute.
Proof.
  intros s H.
  destruct (_startPoint s) as [sp|] eqn:Hs;
    [|rewrite setupRoute_without_points by (now left); exact H].
  destruct (_finishPoint s) as [fp|] eqn:Hf;
    [|rewrite setupRoute_without_points by (now right); exact H].
  pose proof (setupRoute_tracking s sp fp Hs Hf) as E.
  unfold tracking in E. injection E as Er Ed Ec.
  pose proof (after_cancel_length s) as Hlen.
  pose proof H as [H1 H2 H3].
  assert (Hold : forall i rq, requests s !! i = Some rq ->
                              (deferred rq < length (after_cancel s))%nat).
  { intros i rq Hi. rewrite Hlen. exact (H1 i rq Hi). }
  split; rewrite ?Er, ?Ed, ?Ec.
  - intros i rq Hi. rewrite length_app. cbn [length].
    apply lookup_app_Some in Hi as [Hi|[_ Hi]].
    + specialize (Hold i rq Hi). lia.
    + apply list_lookup_singleton_Some in Hi as [_ <-]. cbn. lia.
  - intros i j rq rq' Hi Hj Hd.
    apply lookup_app_Some in Hi as [Hi|[Hli Hi]];
      apply lookup_app_Some in Hj as [Hj|[Hlj Hj]].
    + exact (H2 i j rq rq' Hi Hj Hd).
    + apply list_lookup_singleton_Some in Hj as [_ <-]. cbn in Hd.
      specialize (Hold i rq Hi). lia.
    + apply list_lookup_singleton_Some in Hi as [_ <-]. cbn in Hd.
      specialize (Hold j rq' Hj). lia.
    + apply list_lookup_singleton_Some in Hi as [Hi _].
      apply list_lookup_singleton_Some in Hj as [Hj _]. lia.
  - intros i rq Hi Hu.
    apply lookup_app_Some in Hi as [Hi|[_ Hi]].
    + left. rewrite lookup_app_l by exact (Hold i rq Hi).
      exact (after_cancel_rejected s i rq H Hi Hu).
    + apply list_lookup_singleton_Some in Hi as [_ <-]. cbn [deferred].
      right. split; [|reflexivity].
      rewrite lookup_app_r by lia. now rewrite Nat.sub_diag.
Qed.

Ltac solve_tracking :=
  solve [ intros;
          first [ eapply well_tracked_tracking | eapply tracked_during_tracking ];
          [|eassumption]; reflexivity ].

Ltac keeps_tracking := cbv zeta; repeat keeps_step; try solve_tracking.

Lemma hoare_bind {A B} (P Q : state -> Prop) (m : M A) (k : A -> M B) :
  keeps P m ->
  (forall s, P s -> Q s) ->
  (forall a s, P s -> Q (final (k a s))) ->
  forall s, P s -> Q (final ((m ≫= k) s)).
Proof.
  intros Hm HPQ Hk s H. specialize (Hm s H). unfold mbind, M_bind.
  destruct (m s) as [a s'|s']; [apply Hk | apply HPQ]; exact Hm.
Qed.

Lemma tracked_during_well_tracked (d : nat) (s : state) :
  tracked_during d s -> well_tracked s.
Proof. now intros [H _]. Qed.

Ltac closes_window :=
  repeat first
    [ apply tracked_during_resolve
    | apply tracked_during_well_tracked
    | apply hoare_bind; [ | apply tracked_during_well_tracked | intros ? ]
    | match goal with
      | |- forall s, _ -> _ (final (match ?x with _ => _ end s)) => destruct x
      | |- forall s, _ -> _ (final (mret _ s)) => intros ? ?; cbn [final mret M_ret]
      end ].

Section Tracking.
Context {host : Host}.
Variable fails : sdk_call -> bool.

Lemma ClassJs_updatePanel_keeps_window d distanceText seconds price :
  keeps (tracked_during d) (ClassJs.updatePanel fails distanceText seconds price).
Proof. unfold ClassJs.updatePanel. keeps_tracking. Qed.

Lemma ClassJs_route_success_closes_window (rq : request) (r : router) (s : state) :
  tracked_during (deferred rq) s ->
  well_tracked (final (ClassJs.route_success fails rq r s)).
Proof.
  revert s. unfold ClassJs.route_success. cbv zeta.
  closes_window.
  all: keeps_tracking; apply ClassJs_updatePanel_keeps_window.
Qed.

Lemma Part000_updatePanel_keeps_window d distanceText price seconds :
  keeps (tracked_during d) (Part000.updatePanel fails distanceText price seconds).
Proof. unfold Part000.updatePanel. keeps_tracking. Qed.

Lemma Part000_clearRoute_keeps_window d : keeps (tracked_during d) (Part000.clearRoute fails).
Proof. unfold Part000.clearRoute. keeps_tracking. Qed.

Lemma Part000_clearRoute_keeps_tracking : keeps well_tracked (Part000.clearRoute fails).
Proof. unfold Part000.clearRoute. keeps_tracking. Qed.

Lemma Part000_route_success_closes_window (rq : request) (r : router) (s : state) :
  tracked_during (deferred rq) s ->
  well_tracked (final (Part000.route_success fails rq r s)).
Proof.
  revert s. unfold Part000.route_success. cbv zeta.
  closes_window.
  all: keeps_tracking;
    first [ apply Part000_updatePanel_keeps_window | apply Part000_clearRoute_keeps_window ].
Qed.

Lemma route_failure_keeps_tracking : keeps well_tracked (ClassJs.route_failure fails).
Proof. unfold ClassJs.route_failure. keeps_tracking. Qed.

Lemma ClassJs_setPoint_keeps_tracking which pos balloonContent :
  keeps well_tracked (ClassJs.setPoint which pos balloonContent).
Proof.
  unfold ClassJs.setPoint. cbv zeta. destruct (String.eqb which "start").
  all: keeps_tracking; apply setupRoute_keeps_tracking.
Qed.

Lemma Part000_setPoint_keeps_tracking role pos balloonContent :
  keeps well_tracked (Part000.setPoint role pos balloonContent).
Proof.
  unfold Part000.setPoint. cbv zeta. destruct (String.eqb role "start").
  all: keeps_tracking.
Qed.

(** The provider settles the request [i]: its callback runs in the window
    that the settling opens. *)
Lemma settling_keeps_tracking (callback : request -> M unit) (i : nat) :
  (forall rq s, tracked_during (deferred rq) s -> well_tracked (final (callback rq s))) ->
  keeps well_tracked
    (self ← get_state;
     match requests self !! i with
     | Some rq => if settled rq then mret tt else modify (mark_settled i);; callback rq
     | None => mret tt
     end).
Proof.
  intros Hcb s H. unfold mbind, M_bind, get_state.
  destruct (requests s !! i) as [rq|] eqn:Hrq; [|exact H].
  destruct (settled rq); [exact H|].
  unfold modify. apply Hcb. now apply well_tracked_mark_settled.
Qed.

Lemma ClassJs_handler_keeps_tracking (e : event) :
  keeps well_tracked (ClassJs.handler fails e).
Proof.
  destruct e as [pos|[] pos|which pos balloonContent|start finish| |i r|i];
    unfold ClassJs.handler, ClassJs._onClick, ClassJs.setRoute.
  7: { apply (settling_keeps_tracking (fun rq => ClassJs.route_success fails rq r)).
       intros rq s. apply ClassJs_route_success_closes_window. }
  7: { apply (settling_keeps_tracking (fun _ => ClassJs.route_failure fails)).
       intros rq s Hs. apply route_failure_keeps_tracking.
       exact (tracked_during_well_tracked _ _ Hs). }
  all: keeps_tracking.
  all: first [ apply ClassJs_setPoint_keeps_tracking | apply setupRoute_keeps_tracking ].
Qed.

Lemma Part000_handler_keeps_tracking (e : event) :
  keeps well_tracked (Part000.handler fails e).
Proof.
  destruct e as [pos|[] pos|role pos balloonContent|start finish| |i r|i];
    unfold Part000.handler, Part000._onClick, Part000.setRoute.
  7: { apply (settling_keeps_tracking (fun rq => Part000.route_success fails rq r)).
       intros rq s. apply Part000_route_success_closes_window. }
  7: { apply (settling_keeps_tracking (fun _ => Part000.route_failure fails)).
       intros rq s Hs. apply route_failure_keeps_tracking.
       exact (tracked_during_well_tracked _ _ Hs). }
  all: keeps_tracking.
  all: first [ apply Part000_setPoint_keeps_tracking
             | rewrite Part000_setupRoute_same; apply setupRoute_keeps_tracking
             | apply Part000_clearRoute_keeps_tracking ].
Qed.
End Tracking.

Lemma reachable_ClassJs_well_tracked {host : Host} (s : state) :
  reachable_ClassJs s -> well_tracked s.
Proof.
  intros (page & trace & ->).
  induction trace as [|fe trace IH] using rev_ind.
  - apply well_tracked_init.
  - rewrite run_snoc_ClassJs. apply ClassJs_handler_keeps_tracking, IH.
Qed.

Lemma reachable_Part000_well_tracked {host : Host} (s : state) :
  reachable_Part000 s -> well_tracked s.
Proof.
  intros (page & trace & ->).
  induction trace as [|fe trace IH] using rev_ind.
  - apply well_tracked_init.
  - rewrite run_snoc_Part000. apply Part000_handler_keeps_tracking, IH.
Qed.

(** In a reachable state, a request that the provider has not settled and
    that is not the current one is superseded: when the provider resolves it,
    nothing changes but its [settled] mark.  This is the half of C1 that the
    code keeps. *)
Lemma stale_success_is_discarded {host : Host} (fails : sdk_call -> bool)
    (s : state) (i : nat) (rq : request) (r : router) :
  requests s !! i = Some rq -> settled rq = false ->
  _deferred s <> Some (deferred rq) ->
  (reachable_ClassJs s ->
   ClassJs.step fails (route_resolved i r) s = mark_settled i s)
  /\ (reachable_Part000 s ->
      Part000.step fails (route_resolved i r) s = mark_settled i s)
  /\ ui (mark_settled i s) = ui s.
Proof.
  intros Hrq Hs Hc.
  assert (Hsup : well_tracked s -> superseded s i).
  { intros [_ _ H3]. exists rq. split; [exact Hrq|]. split; [exact Hs|].
    destruct (H3 i rq Hrq Hs) as [Hr|[_ Hcur]]; [exact Hr | contradiction]. }
  split; [|split].
  - intros Hreach.
    pose proof (Hsup (reachable_ClassJs_well_tracked s Hreach)) as Hi.
    exact (proj1 (superseded_success_is_silent fails s i r Hi)).
  - intros Hreach.
    pose proof (Hsup (reachable_Part000_well_tracked s Hreach)) as Hi.
    exact (proj1 (proj2 (superseded_success_is_silent fails s i r Hi))).
  - reflexivity.
Qed.

(** * Further properties of the code *)

(** ** Pricing below and across the break-even distance *)

Lemma Math_max_floor_active (x m : Q) :
  (x <= m)%Q -> num_eq (Math_max (Finite x) (Finite m)) (Finite m).
Proof.
  intros H. cbn [Math_max num_ltb].
  destruct (Qle_bool m x) eqn:E; cbn [negb num_eq]; [|reflexivity].
  apply Qle_bool_iff in E. now apply Qle_antisym.
Qed.

Lemma Math_max_monotone (x y m : Q) :
  (x <= y)%Q ->
  num_leb (Math_max (Finite x) (Finite m)) (Math_max (Finite y) (Finite m)) = true.
Proof.
  intros H. cbn [Math_max num_ltb].
  destruct (Qle_bool m x) eqn:Ex; destruct (Qle_bool m y) eqn:Ey;
    cbn [negb num_leb]; apply Qle_bool_iff.
  - exact H.
  - apply Qle_bool_iff in Ex.
    assert (Hn : ~ (m <= y)%Q) by (rewrite <- Qle_bool_iff; congruence).
    exfalso. apply Hn. now apply Qle_trans with x.
  - now apply Qle_bool_iff.
  - apply Qle_refl.
Qed.

(** X1: a longer route never costs less: [priceForKm] and [buildPrice] are
    monotone in the distance. *)
Theorem price_is_monotone (d1 d2 : Q) :
  (d1 <= d2)%Q ->
  num_leb (ClassJs.priceForKm (Finite d1)) (ClassJs.priceForKm (Finite d2)) = true
  /\ num_leb (Part000.buildPrice (Finite d1)) (Part000.buildPrice (Finite d2)) = true.
Proof.
  intros H. unfold ClassJs.priceForKm, Part000.buildPrice. cbn [num_mul].
  split; apply Math_max_monotone; apply Qmult_le_compat_r; try exact H; discriminate.
Qed.

Lemma price_is_monotone_witness :
  (3 <= 40)%Q
  /\ num_leb (ClassJs.priceForKm (Finite 3)) (ClassJs.priceForKm (Finite 40)) = true
  /\ num_leb (Part000.buildPrice (Finite 3)) (Part000.buildPrice (Finite 40)) = true.
Proof.
  split; [discriminate | apply (price_is_monotone 3 40); discriminate].
Defined.

(** X2: up to the break-even distance the floor decides: every distance
    from minus infinity to [MINIMUM_COST / DELIVERY_TARIF] costs exactly the
    minimum, a negative distance included. *)
Theorem price_below_break_even (d : number) :
  (num_leb d (Finite (ClassJs.MINIMUM_COST / ClassJs.DELIVERY_TARIF)) = true ->
   num_eq (ClassJs.priceForKm d) (Finite ClassJs.MINIMUM_COST))
  /\ (num_leb d (Finite (Part000.MINIMUM_COST / Part000.DELIVERY_TARIF)) = true ->
      num_eq (Part000.buildPrice d) (Finite Part000.MINIMUM_COST)).
Proof.
  unfold ClassJs.priceForKm, Part000.buildPrice.
  split; intros Hd; (destruct d as [| | |q]; try discriminate Hd; [reflexivity|]);
    cbn [num_leb] in Hd; apply Qle_bool_iff in Hd;
    cbn [num_mul]; apply Math_max_floor_active;
    revert Hd; unfold Qle; cbn; lia.
Qed.

Lemma price_below_break_even_witness :
  (num_leb (Finite 1) (Finite (ClassJs.MINIMUM_COST / ClassJs.DELIVERY_TARIF)) = true
   /\ num_eq (ClassJs.priceForKm (Finite 1)) (Finite ClassJs.MINIMUM_COST))
  /\ (num_leb (Finite 1) (Finite (Part000.MINIMUM_COST / Part000.DELIVERY_TARIF)) = true
      /\ num_eq (Part000.buildPrice (Finite 1)) (Finite Part000.MINIMUM_COST)).
Proof.
  split; (split; [reflexivity | apply (price_below_break_even (Finite 1)); reflexivity]).
Defined.

(** ** Durations are shown in whole minutes *)

Lemma whole_minutes_text {host : Host} (s : Z) :
  0 <= s -> duration_text (60 * (s / 60)) = duration_text s.
Proof.
  intros Hs. unfold duration_text.
  assert (Hh : 60 * (s / 60) / 3600 = s / 3600)
    by (Z.div_mod_to_equations; lia).
  assert (Hm : (60 * (s / 60)) mod 3600 / 60 = s mod 3600 / 60)
    by (Z.div_mod_to_equations; lia).
  cbv zeta. now rewrite Hh, Hm.
Qed.

(** X3: the duration formatters drop the seconds: a duration and the
    whole minutes below it (after the clamp at zero) have the same text. *)
Theorem duration_shows_whole_minutes {host : Host} (q : Q) :
  let whole := Finite (inject_Z (60 * (Z.max 0 (Qfloor q) / 60))) in
  ClassJs.fmtSeconds (ArgNum (Finite q)) = ClassJs.fmtSeconds (ArgNum whole)
  /\ Part000.formatSecondsToHm (ArgNum (Finite q)) = Part000.formatSecondsToHm (ArgNum whole).
Proof.
  cbv zeta.
  assert (H : ClassJs.fmtSeconds (ArgNum (Finite q))
              = ClassJs.fmtSeconds
                  (ArgNum (Finite (inject_Z (60 * (Z.max 0 (Qfloor q) / 60)))))).
  { rewrite !fmtSeconds_finite, Qfloor_Z.
    set (s := Z.max 0 (Qfloor q)).
    assert (Hs : 0 <= s) by (unfold s; lia).
    assert (Hw : 0 <= 60 * (s / 60)) by (pose proof (Z.div_pos s 60); lia).
    rewrite (Z.max_r 0 (60 * (s / 60))) by exact Hw.
    now rewrite whole_minutes_text by exact Hs. }
  split; exact H.
Qed.

(** X4: below one minute, and so for every negative duration, the text is
    ["0 min"]. *)
Theorem duration_below_a_minute {host : Host} (q : Q) :
  (q < 60)%Q ->
  ClassJs.fmtSeconds (ArgNum (Finite q)) = Some "0 min"
  /\ Part000.formatSecondsToHm (ArgNum (Finite q)) = Some "0 min".
Proof.
  intros Hq.
  change Part000.formatSecondsToHm with ClassJs.fmtSeconds.
  rewrite fmtSeconds_finite.
  assert (Hf : Qfloor q < 60).
  { rewrite Zlt_Qlt. eapply Qle_lt_trans; [apply Qfloor_le | exact Hq]. }
  set (s := Z.max 0 (Qfloor q)).
  assert (Hs : 0 <= s < 60) by (unfold s; lia).
  unfold duration_text.
  rewrite (Z.div_small s 3600), (Z.mod_small s 3600), (Z.div_small s 60) by lia.
  split; reflexivity.
Qed.

Lemma duration_below_a_minute_witness :
  (59.9 < 60)%Q
  /\ ClassJs.fmtSeconds (ArgNum (Finite 59.9)) = Some "0 min"
  /\ Part000.formatSecondsToHm (ArgNum (Finite 59.9)) = Some "0 min".
Proof.
  split; [reflexivity | apply (@duration_below_a_minute sample_host 59.9%Q); reflexivity].
Defined.

(** ** Money around zero *)

(** X5: a value that rounds to zero is written ["0.00"], without a sign:
    from minus half a hundredth up to, but not including, half a hundredth. *)
Theorem money_around_zero {host : Host} (q : Q) :
  (- (1 # 200) <= q)%Q -> (q < 1 # 200)%Q ->
  ClassJs.fmtMoney (ArgNum (Finite q)) = "0.00".
Proof.
  intros Hlo Hhi.
  assert (Hk : Qfloor (q * 100 + (1 # 2)) = 0).
  { assert (H0 : (0 <= q * 100 + (1 # 2))%Q) by lra.
    assert (H1 : (q * 100 + (1 # 2) < 1)%Q) by lra.
    apply Qfloor_resp_le in H0. change (Qfloor 0) with 0 in H0.
    assert (Qfloor (q * 100 + (1 # 2)) < 1); [|lia].
    rewrite Zlt_Qlt. eapply Qle_lt_trans; [apply Qfloor_le | exact H1]. }
  rewrite fmtMoney_finite; rewrite Hk; [reflexivity | reflexivity].
Qed.

Lemma money_around_zero_witness :
  (- (1 # 200) <= - (0.004))%Q /\ (- (0.004) < 1 # 200)%Q
  /\ ClassJs.fmtMoney (ArgNum (Finite (- (0.004))%Q)) = "0.00".
Proof.
  split; [discriminate|]. split; [reflexivity|].
  apply (@money_around_zero sample_host (- (0.004))%Q); [discriminate | reflexivity].
Defined.

(** ** Duration extraction: order, exceptions and sign *)

(** X6: the probes in their order.  When [getJamsTime] does not throw,
    [getTime] does not throw where it is reached, and the fields of the
    ['duration'] property hold no negative number and no [NaN], the result is
    the first usable one of [getJamsTime()], [getTime()], [duration.value]
    and [duration.duration], and the duration at 40 km/h when there is none. *)
Theorem duration_probes_in_order (r : router) (lengthMeters : number) :
  getJamsTime r <> Function Throws ->
  (usable (result_of (getJamsTime r)) = None -> getTime r <> Function Throws) ->
  fields_usable r ->
  ClassJs.getDurationSeconds r lengthMeters = duration_as_claimed r lengthMeters
  /\ Part000.getDurationSeconds r lengthMeters = duration_as_claimed r lengthMeters.
Proof.
  intros Hj Ht Hf.
  pose proof (getDurationSeconds_as_claimed r lengthMeters Hj Ht Hf) as H.
  split; exact H.
Qed.

Lemma duration_probes_in_order_witness :
  getJamsTime sample_router <> Function Throws
  /\ fields_usable sample_router
  /\ ClassJs.getDurationSeconds sample_router (Finite 12345) = Finite 900
  /\ Part000.getDurationSeconds sample_router (Finite 12345) = Finite 900.
Proof.
  assert (Hj : getJamsTime sample_router <> Function Throws) by discriminate.
  assert (Hf : fields_usable sample_router) by (intros k x H; discriminate H).
  split; [exact Hj|]. split; [exact Hf|].
  destruct (duration_probes_in_order sample_router (Finite 12345) Hj
              ltac:(discriminate) Hf) as [H1 H2].
  rewrite H1, H2. split; reflexivity.
Defined.

(** X7: the two accessor probes share one [try], so a throwing
    [getJamsTime] hides [getTime]: the result is then the same whatever
    [getTime] is. *)
Theorem throwing_getJamsTime_hides_getTime (r r' : router) (lengthMeters : number) :
  getJamsTime r = Function Throws ->
  getJamsTime r' = Function Throws ->
  properties r = properties r' ->
  ClassJs.getDurationSeconds r lengthMeters = ClassJs.getDurationSeconds r' lengthMeters
  /\ Part000.getDurationSeconds r lengthMeters = Part000.getDurationSeconds r' lengthMeters.
Proof.
  intros Hj Hj' Hp.
  unfold Part000.getDurationSeconds, ClassJs.getDurationSeconds.
  rewrite Hj, Hj', Hp. split; reflexivity.
Qed.

Lemma throwing_getJamsTime_hides_getTime_witness :
  let without_getTime :=
    {| getJamsTime := Function Throws; getTime := NotAFunction; properties := None;
       getLength := Finite 12345; getPaths := 0%nat |} in
  getJamsTime router_throwing_jams = Function Throws
  /\ getTime router_throwing_jams = Function (Returns (VNum (Finite 100)))
  /\ ClassJs.getDurationSeconds router_throwing_jams (Finite 12345)
     = ClassJs.getDurationSeconds without_getTime (Finite 12345)
  /\ Part000.getDurationSeconds router_throwing_jams (Finite 12345)
     = Part000.getDurationSeconds without_getTime (Finite 12345).
Proof.
  cbv zeta. split; [reflexivity|]. split; [reflexivity|].
  apply throwing_getJamsTime_hides_getTime; reflexivity.
Defined.

Lemma probe_accessor_nonnegative (m : method) (x : number) :
  probe_accessor m = Return x -> num_geb x (Finite 0) = true.
Proof.
  destruct m as [|[v|]]; unfold probe_accessor; try discriminate.
  destruct (as_number v) as [y|]; [|discriminate].
  destruct (num_geb y (Finite 0)) eqn:E; [|discriminate].
  now intros [= <-].
Qed.

Lemma probe_field_nonnegative (r : router) (k : string) (x : number) :
  fields_usable r ->
  probe_field (duration_property r) k = Return x -> num_geb x (Finite 0) = true.
Proof.
  intros Hf. unfold probe_field.
  destruct (truthy (duration_property r)); [|discriminate].
  destruct (as_number (member (duration_property r) k)) as [y|] eqn:E; [|discriminate].
  intros [= <-]. exact (Hf k y E).
Qed.

(** X8: the sign of the result.  For a non-negative length, and with no
    negative number and no [NaN] in the fields of the ['duration'] property,
    the duration is a non-negative number, whatever the accessors return or
    throw. *)
Theorem duration_is_nonnegative (r : router) (lengthMeters : number) :
  fields_usable r ->
  num_leb (Finite 0) lengthMeters = true ->
  num_geb (ClassJs.getDurationSeconds r lengthMeters) (Finite 0) = true
  /\ num_geb (Part000.getDurationSeconds r lengthMeters) (Finite 0) = true.
Proof.
  intros Hf Hl.
  assert (H : num_geb (ClassJs.getDurationSeconds r lengthMeters) (Finite 0) = true).
  { unfold ClassJs.getDurationSeconds. fold (at_40_kmh lengthMeters).
    rewrite probe_properties_fields.
    pose proof (at_40_kmh_nonnegative lengthMeters Hl) as Hfall.
    pose proof (probe_accessor_nonnegative (getJamsTime r)) as Hj.
    pose proof (probe_accessor_nonnegative (getTime r)) as Ht.
    pose proof (probe_field_nonnegative r "value") as Hv.
    pose proof (probe_field_nonnegative r "duration") as Hd.
    destruct (probe_accessor (getJamsTime r)) as [x| |];
      destruct (probe_accessor (getTime r)) as [y| |];
      destruct (probe_field (duration_property r) "value") as [v| |];
      destruct (probe_field (duration_property r) "duration") as [d| |];
      cbn [seq try_ or_return]; auto. }
  split; exact H.
Qed.

Lemma duration_is_nonnegative_witness :
  fields_usable router_throwing_jams
  /\ num_leb (Finite 0) (Finite 12345) = true
  /\ num_geb (ClassJs.getDurationSeconds router_throwing_jams (Finite 12345)) (Finite 0) = true
  /\ num_geb (Part000.getDurationSeconds router_throwing_jams (Finite 12345)) (Finite 0) = true.
Proof.
  assert (Hf : fields_usable router_throwing_jams) by (intros k x H; discriminate H).
  split; [exact Hf|]. split; [reflexivity|].
  apply (duration_is_nonnegative router_throwing_jams (Finite 12345) Hf). reflexivity.
Defined.

(** ** [_setupRoute] ends normally *)

Lemma returns_ret {A} (a : A) : returns (mret a).
Proof. intros s. now exists a, s. Qed.

Lemma returns_bind {A B} (m : M A) (k : A -> M B) :
  returns m -> (forall a, returns (k a)) -> returns (m ≫= k).
Proof.
  intros Hm Hk s. destruct (Hm s) as (a & s' & E).
  unfold mbind, M_bind. rewrite E. apply Hk.
Qed.

Lemma returns_try_catch (m : M unit) : returns (try_catch m).
Proof. intros s. unfold try_catch. destruct (m s) as [a s'|s']; eauto. Qed.

Lemma returns_when (b : bool) (m : M unit) : returns m -> returns (when_ b m).
Proof. intros Hm. destruct b; [exact Hm | apply returns_ret]. Qed.

Lemma returns_get_state : returns get_state.
Proof. intros s. now exists s, s. Qed.

Lemma returns_modify (f : state -> state) : returns (modify f).
Proof. intros s. now exists tt, (f s). Qed.

Lemma returns_isRejected (d : nat) : returns (isRejected d).
Proof. intros s. unfold isRejected. eauto. Qed.

Lemma returns_isResolved (d : nat) : returns (isResolved d).
Proof. intros s. unfold isResolved. eauto. Qed.

Lemma returns_settle_deferred (d : nat) (to : status) : returns (settle_deferred d to).
Proof. intros s. unfold settle_deferred. destruct (deferreds s !! d) as [[]|]; eauto. Qed.

Lemma returns_vow_defer : returns vow_defer.
Proof. intros s. unfold vow_defer. eauto. Qed.

Lemma returns_ymaps_route (rq : request) : returns (ymaps_route rq).
Proof. apply returns_modify. Qed.

Ltac returns_step :=
  lazymatch goal with
  | |- returns (mbind _ _) => apply returns_bind; [|intros ?]
  | |- returns (mret _) => apply returns_ret
  | |- returns (try_catch _) => apply returns_try_catch
  | |- returns (when_ _ _) => apply returns_when
  | |- returns get_state => apply returns_get_state
  | |- returns (modify _) => apply returns_modify
  | |- returns (isRejected _) => apply returns_isRejected
  | |- returns (isResolved _) => apply returns_isResolved
  | |- returns (resolve _) => apply returns_settle_deferred
  | |- returns (reject _) => apply returns_settle_deferred
  | |- returns vow_defer => apply returns_vow_defer
  | |- returns (ymaps_route _) => apply returns_ymaps_route
  | |- returns (match ?x with _ => _ end) => destruct x
  end.

Ltac returns_auto := cbv zeta; repeat returns_step.

Section Returns.
Context {host : Host}.
Variable fails : sdk_call -> bool.

Lemma setupRoute_returns : returns ClassJs._setupRoute.
Proof. unfold ClassJs._setupRoute. returns_auto. Qed.
End Returns.

(** ** One live request *)

(** X10: a stale result never reaches the user.  In a reachable state,
    when the provider resolves a request that it had not settled and that is
    not the current one, the placemarks with their balloons, the routes on
    the map, the viewport and the page stay as they are. *)
Theorem stale_result_never_reaches_the_ui {host : Host} (fails : sdk_call -> bool)
    (s : state) (i : nat) (rq : request) (r : router) :
  requests s !! i = Some rq -> settled rq = false ->
  _deferred s <> Some (deferred rq) ->
  (reachable_ClassJs s -> ui (ClassJs.step fails (route_resolved i r) s) = ui s)
  /\ (reachable_Part000 s -> ui (Part000.step fails (route_resolved i r) s) = ui s).
Proof.
  intros Hrq Hs Hc.
  destruct (stale_success_is_discarded fails s i rq r Hrq Hs Hc) as (H1 & H2 & H3).
  split; intros Hreach; [rewrite (H1 Hreach) | rewrite (H2 Hreach)]; exact H3.
Qed.

Lemma stale_result_never_reaches_the_ui_witness :
  let s := @ClassJs.run sample_host two_requests (init sample_page) in
  exists rq,
    requests s !! 0%nat = Some rq /\ settled rq = false
    /\ _deferred s <> Some (deferred rq)
    /\ @reachable_ClassJs sample_host s
    /\ ui (@ClassJs.step sample_host no_faults (route_resolved 0 sample_router) s) = ui s.
Proof.
  cbv zeta. eexists.
  split; [vm_compute; reflexivity|]. split; [reflexivity|].
  split; [vm_compute; discriminate|].
  assert (Hc : @reachable_ClassJs sample_host
                 (@ClassJs.run sample_host two_requests (init sample_page)))
    by (exists sample_page, two_requests; reflexivity).
  split; [exact Hc|].
  refine (proj1 (@stale_result_never_reaches_the_ui sample_host no_faults _ 0%nat _
                   sample_router _ _ _) Hc).
  - vm_compute; reflexivity.
  - reflexivity.
  - vm_compute; discriminate.
Defined.

Lemma pending_is_live (s : state) (i : nat) :
  well_tracked s -> pending s i -> live s i.
Proof.
  intros [_ _ H3] (rq & Hrq & Hs & Hp). exists rq.
  split; [exact Hrq|]. split; [exact Hs|].
  destruct (H3 i rq Hrq Hs) as [Hr|[_ Hc]]; [congruence | exact Hc].
Qed.

Lemma pending_unique (s : state) (i j : nat) :
  well_tracked s -> pending s i -> pending s j -> i = j.
Proof.
  intros H Hi Hj.
  destruct (pending_is_live s i H Hi) as (rq & Hrq & _ & Hc).
  destruct (pending_is_live s j H Hj) as (rq' & Hrq' & _ & Hc').
  destruct H as [_ H2 _]. apply (H2 i j rq rq' Hrq Hrq'). congruence.
Qed.

(** X11: at most one request is pending at a time, and it is the
    calculator's current one: in a reachable state of either file, two
    requests that the provider has not settled and whose deferreds are
    pending are the same request. *)
Theorem at_most_one_pending_request {host : Host} (s : state) (i j : nat) :
  reachable_ClassJs s \/ reachable_Part000 s ->
  pending s i -> pending s j ->
  i = j /\ live s i.
Proof.
  intros Hreach Hi Hj.
  assert (H : well_tracked s).
  { destruct Hreach as [Hc|Hp];
      [now apply reachable_ClassJs_well_tracked | now apply reachable_Part000_well_tracked]. }
  split; [exact (pending_unique s i j H Hi Hj) | exact (pending_is_live s i H Hi)].
Qed.

Lemma at_most_one_pending_request_witness :
  let s := @ClassJs.run sample_host two_requests (init sample_page) in
  (@reachable_ClassJs sample_host s \/ @reachable_Part000 sample_host s)
  /\ pending s 1 /\ (1 = 1 /\ live s 1)%nat.
Proof.
  cbv zeta.
  assert (Hc : @reachable_ClassJs sample_host
                 (@ClassJs.run sample_host two_requests (init sample_page)))
    by (exists sample_page, two_requests; reflexivity).
  assert (Hp : pending (@ClassJs.run sample_host two_requests (init sample_page)) 1).
  { eexists. repeat split; vm_compute; reflexivity. }
  split; [left; exact Hc|]. split; [exact Hp|].
  exact (@at_most_one_pending_request sample_host _ 1%nat 1%nat (or_introl Hc) Hp Hp).
Defined.

(** X12: the provider is asked only between two placemarks: in a
    reachable state of either file with a request, the start and the finish
    placemark both exist. *)
Theorem requests_need_both_placemarks {host : Host} (s : state) :
  reachable_ClassJs s \/ reachable_Part000 s ->
  requests s <> [] ->
  is_Some (_startPoint s) /\ is_Some (_finishPoint s).
Proof.
  intros Hreach Hne.
  assert (H : requests_have_points s).
  { destruct Hreach as [Hc|Hp];
      [now apply reachable_ClassJs_has_points | now apply reachable_Part000_has_points]. }
  destruct H as [Hnil|H]; [contradiction | exact H].
Qed.

Lemma requests_need_both_placemarks_witness :
  let s := @Part000.run sample_host two_requests (init sample_page) in
  (@reachable_ClassJs sample_host s \/ @reachable_Part000 sample_host s)
  /\ requests s <> []
  /\ is_Some (_startPoint s) /\ is_Some (_finishPoint s).
Proof.
  cbv zeta.
  assert (Hp : @reachable_Part000 sample_host
                 (@Part000.run sample_host two_requests (init sample_page)))
    by (exists sample_page, two_requests; reflexivity).
  assert (Hne : requests (@Part000.run sample_host two_requests (init sample_page)) <> [])
    by (vm_compute; discriminate).
  split; [right; exact Hp|]. split; [exact Hne|].
  exact (@requests_need_both_placemarks sample_host _ (or_intror Hp) Hne).
Defined.

(** ** Asking again supersedes *)

Lemma after_cancel_tracking (s s1 : state) :
  tracking s1 = tracking s -> after_cancel s1 = after_cancel s.
Proof.
  unfold tracking, after_cancel. intros [= _ Hd Hc]. now rewrite Hd, Hc.
Qed.

(** [_setupRoute] between two placemarks, from a state [s1] that tracks
    its requests as [s] does. *)
Lemma setupRoute_retriggers (s s1 : state) (sp fp : placemark) :
  well_tracked s -> tracking s1 = tracking s ->
  _startPoint s1 = Some sp -> _finishPoint s1 = Some fp ->
  retriggered s (final (ClassJs._setupRoute s1)) (geometry sp) (geometry fp).
Proof.
  intros H Ht Hs Hf.
  pose proof (setupRoute_tracking s1 sp fp Hs Hf) as E.
  rewrite (after_cancel_tracking s s1 Ht) in E.
  pose proof Ht as Ht'. unfold tracking in Ht'. injection Ht' as Hr _ _.
  rewrite Hr in E. unfold tracking in E. injection E as Er Ed Ec.
  pose proof (after_cancel_length s) as Hlen.
  set (rq := {| points := (geometry sp, geometry fp);
                startBalloon := _startPointBalloonContent s1;
                finishBalloon := _finishPointBalloonContent s1;
                deferred := length (after_cancel s); settled := false |}) in *.
  assert (Hnew : requests (final (ClassJs._setupRoute s1)) !! length (requests s) = Some rq).
  { rewrite Er, lookup_app_r by lia. now rewrite Nat.sub_diag. }
  assert (Hpend : deferreds (final (ClassJs._setupRoute s1)) !! deferred rq = Some Pending).
  { rewrite Ed. cbn [rq deferred]. rewrite lookup_app_r by lia. now rewrite Nat.sub_diag. }
  split; [exists rq; split; [exact Er | reflexivity]|].
  split; [exists rq; repeat split; [exact Hnew | exact Ec]|].
  split; [exists rq; repeat split; [exact Hnew | exact Hpend]|].
  intros i old Hi Hu. exists old.
  split; [rewrite Er; apply lookup_app_l_Some; exact Hi|].
  split; [exact Hu|].
  rewrite Ed, lookup_app_l.
  - exact (after_cancel_rejected s i old H Hi Hu).
  - rewrite Hlen. destruct H as [H1 _ _]. exact (H1 i old Hi).
Qed.

Section Retrigger.
Context {host : Host}.
Variable fails : sdk_call -> bool.



Lemma dragend_retriggers (s : state) (sp fp : placemark) (isStart : bool) (p : coords) :
  well_tracked s -> _startPoint s = Some sp -> _finishPoint s = Some fp ->
  let from := if isStart then p else geometry sp in
  let to := if isStart then geometry fp else p in
  retriggered s (ClassJs.step fails (dragend isStart p) s) from to
  /\ retriggered s (Part000.step fails (dragend isStart p) s) from to.
Proof.
  intros H Hs Hf. cbv zeta.
  unfold ClassJs.step, Part000.step, ClassJs.handler, Part000.handler.
  rewrite Part000_setupRoute_same.
  destruct isStart; run_handler; rewrite ?Hs, ?Hf; run_handler.
  - split;
      exact (setupRoute_retriggers s (set_startPoint (Some (setCoordinates p sp)) s)
               (setCoordinates p sp) fp H eq_refl eq_refl Hf).
  - split;
      exact (setupRoute_retriggers s (set_finishPoint (Some (setCoordinates p fp)) s)
               sp (setCoordinates p fp) H eq_refl Hs eq_refl).
Qed.
End Retrigger.



(** X14: dropping either placemark of a calculator that has both asks for
    the route again, between the dropped placemark's new position and the
    other placemark, and supersedes every request that the provider had not
    settled. *)
Theorem dragend_asks_again_and_supersedes {host : Host} (fails : sdk_call -> bool)
    (s : state) (sp fp : placemark) (isStart : bool) (p : coords) :
  _startPoint s = Some sp -> _finishPoint s = Some fp ->
  let from := if isStart then p else geometry sp in
  let to := if isStart then geometry fp else p in
  (reachable_ClassJs s -> retriggered s (ClassJs.step fails (dragend isStart p) s) from to)
  /\ (reachable_Part000 s ->
      retriggered s (Part000.step fails (dragend isStart p) s) from to).
Proof.
  intros Hs Hf. cbv zeta. split; intros Hreach.
  - apply (dragend_retriggers fails s sp fp isStart p); try assumption.
    now apply reachable_ClassJs_well_tracked.
  - apply (dragend_retriggers fails s sp fp isStart p); try assumption.
    now apply reachable_Part000_well_tracked.
Qed.

Lemma dragend_asks_again_and_supersedes_witness :
  let s := @ClassJs.run sample_host two_requests (init sample_page) in
  exists sp fp,
    _startPoint s = Some sp /\ _finishPoint s = Some fp
    /\ @reachable_ClassJs sample_host s
    /\ retriggered s (@ClassJs.step sample_host no_faults (dragend true point_b) s)
         point_b (geometry fp).
Proof.
  cbv zeta.
  assert (Hc : @reachable_ClassJs sample_host
                 (@ClassJs.run sample_host two_requests (init sample_page)))
    by (exists sample_page, two_requests; reflexivity).
  eexists. eexists. split; [vm_compute; reflexivity|].
  split; [vm_compute; reflexivity|]. split; [exact Hc|].
  refine (proj1 (@dragend_asks_again_and_supersedes sample_host no_faults _ _ _ true
                   point_b _ _) Hc).
  - vm_compute; reflexivity.
  - vm_compute; reflexivity.
Defined.

(** ** The info panel *)

Lemma insert_existing_is_Some (m : gmap string string) (k t id : string) :
  is_Some (m !! k) -> is_Some (<[k := t]> m !! id) <-> is_Some (m !! id).
Proof.
  intros Hk. rewrite lookup_insert_is_Some'. split.
  - intros [<-|H]; assumption.
  - intros H. now right.
Qed.

Ltac run_panel :=
  repeat (cbv beta iota zeta delta
            [mbind M_bind mret M_ret get_state modify when_ try_catch sdk
             getElementById set_textContent];
          cbn [_startPoint _finishPoint _route _router _startPointBalloonContent
               _finishPointBalloonContent _deferred deferreds requests geoObjects
               bounds document set_document]).

Ltac explore_panel fails :=
  run_panel;
  repeat match goal with
         | |- context [fails ?c] => destruct (fails c) eqn:?; run_panel
         | |- context [bool_decide ?P] => destruct (bool_decide P) eqn:?; run_panel
         end.

Ltac slot_exists :=
  repeat (rewrite insert_existing_is_Some);
  match goal with
  | H : bool_decide (is_Some _) = true |- is_Some _ => exact (bool_decide_eq_true_1 _ H)
  end.

Ltac solve_panel_only :=
  eexists; split; [reflexivity|];
  cbn [document set_document];
  split; [reflexivity|];
  split;
  [ intros id Hid;
    rewrite ?lookup_insert_ne; [reflexivity | ..];
    intros <-; apply Hid; unfold panel_ids; repeat constructor
  | intros id; rewrite ?insert_existing_is_Some; [reflexivity | ..]; slot_exists ].

Section Panel.
Context {host : Host}.
Variable fails : sdk_call -> bool.

Lemma ClassJs_updatePanel_panel_only distanceText seconds price (s : state) :
  exists s', ClassJs.updatePanel fails distanceText seconds price s = Done tt s'
             /\ panel_only s s'.
Proof.
  destruct s. unfold ClassJs.updatePanel, panel_only.
  explore_panel fails.
  all: solve_panel_only.
Qed.

Lemma Part000_updatePanel_panel_only distanceText price seconds (s : state) :
  exists s', Part000.updatePanel fails distanceText price seconds s = Done tt s'
             /\ panel_only s s'.
Proof.
  destruct s. unfold Part000.updatePanel, panel_only.
  explore_panel fails.
  all: solve_panel_only.
Qed.

(** X15: [updatePanel] tolerates a page without the panel and calls that
    throw.  Whatever it is given and whatever throws, it ends normally and
    changes nothing but the text of slots of the panel that exist; it never
    adds an element to the page. *)
Theorem updatePanel_changes_only_existing_slots
    (distanceText : string) (seconds price : arg) (s : state) :
  (exists s', ClassJs.updatePanel fails distanceText seconds price s = Done tt s'
              /\ panel_only s s')
  /\ (exists s', Part000.updatePanel fails distanceText price seconds s = Done tt s'
                 /\ panel_only s s').
Proof.
  split; [apply ClassJs_updatePanel_panel_only | apply Part000_updatePanel_panel_only].
Qed.

(** The time text of either file. *)
Lemma time_text_same (seconds : arg) :
  match seconds with
  | ArgNull | ArgUndefined => dash
  | _ => or_dash (default "" (ClassJs.fmtSeconds seconds))
  end
  = if arg_truthy seconds || arg_is_zero seconds
    then or_dash (default "" (Part000.formatSecondsToHm seconds))
    else dash.
Proof.
  destruct seconds as [| |[| | |q]]; try reflexivity.
  cbn [arg_truthy arg_is_zero]. now destruct (Qeq_bool q 0).
Qed.

(** X16: the two files fill the distance slot and the time slot alike,
    whatever throws: the same text for the same distance text and seconds,
    although one tests [seconds != null] and the other
    [(seconds || seconds === 0)].  Only the cost slot is written differently. *)
Theorem updatePanel_agrees_on_distance_and_time
    (distanceText : string) (seconds price price' : arg) (s : state) (id : string) :
  id <> "costVal" ->
  document (final (ClassJs.updatePanel fails distanceText seconds price s)) !! id
  = document (final (Part000.updatePanel fails distanceText price' seconds s)) !! id.
Proof.
  intros Hid. destruct s. unfold ClassJs.updatePanel, Part000.updatePanel.
  rewrite time_text_same.
  explore_panel fails; cbn [final document set_document]; try reflexivity.
  all: rewrite !(lookup_insert_ne _ "costVal") by (intros E; apply Hid; now rewrite E).
  all: reflexivity.
Qed.
End Panel.

Lemma updatePanel_agrees_on_distance_and_time_witness :
  "timeVal" <> "costVal"
  /\ document
       (final (ClassJs.updatePanel no_faults "12 km" (ArgNum (Finite 900))
                 (ArgNum (Finite 16)) (init sample_page))) !! "timeVal"
     = document
         (final (Part000.updatePanel no_faults "12 km" (ArgNum (Finite 240))
                   (ArgNum (Finite 900)) (init sample_page))) !! "timeVal".
Proof.
  assert (H : "timeVal" <> "costVal") by discriminate.
  split; [exact H|].
  exact (@updatePanel_agrees_on_distance_and_time no_faults "12 km"
           (ArgNum (Finite 900)) (ArgNum (Finite 16)) (ArgNum (Finite 240))
           (init sample_page) "timeVal" H).
Defined.

(** ** The public methods *)

Lemma setupRoute_done (s : state) :
  ClassJs._setupRoute s = Done tt (final (ClassJs._setupRoute s)).
Proof.
  destruct (setupRoute_returns s) as ([] & s' & E). now rewrite E.
Qed.

Section Methods.
Context {host : Host}.
Variable fails : sdk_call -> bool.

Lemma Part000_setRoute_retriggers (s : state) (a b : coords) :
  well_tracked s ->
  retriggered s (Part000.step fails (call_setRoute a b) s) a b.
Proof.
  intros H. unfold Part000.step, Part000.handler, Part000.setRoute, Part000.setPoint.
  rewrite Part000_setupRoute_same. run_handler.
  destruct (_startPoint s) as [sp|] eqn:Hs; destruct (_finishPoint s) as [fp|] eqn:Hf;
    run_handler; rewrite ?Hs, ?Hf; run_handler.
  all: match goal with
       | |- retriggered _ (final (ClassJs._setupRoute ?s1)) _ _ =>
           exact (setupRoute_retriggers s s1 _ _ H eq_refl eq_refl eq_refl)
       end.
Qed.

Lemma ClassJs_setRoute_once (s : state) (a b : coords) :
  well_tracked s -> _finishPoint s = None ->
  retriggered s (ClassJs.step fails (call_setRoute a b) s) a b.
Proof.
  intros H Hf. unfold ClassJs.step, ClassJs.handler, ClassJs.setRoute, ClassJs.setPoint.
  run_handler. rewrite ?Hf.
  destruct (_startPoint s) as [sp|] eqn:Hs;
    repeat (run_handler; first [rewrite Hf | rewrite Hs]); run_handler.
  all: match goal with
       | |- retriggered _ (final (ClassJs._setupRoute ?s1)) _ _ =>
           exact (setupRoute_retriggers s s1 _ _ H eq_refl eq_refl eq_refl)
       end.
Qed.

Lemma ClassJs_setRoute_twice (s : state) (fp : placemark) (a b : coords) :
  well_tracked s -> _finishPoint s = Some fp ->
  exists s1, retriggered s s1 a (geometry fp)
             /\ retriggered s1 (ClassJs.step fails (call_setRoute a b) s) a b.
Proof.
  intros H Hf.
  destruct (_startPoint s) as [sp|] eqn:Hs;
    [set (sp' := setCoordinates a sp) | set (sp' := new_Placemark a "A")].
  all: set (s0 := set_startPoint (Some sp') s).
  all: set (s1 := final (ClassJs._setupRoute s0)).
  all: assert (H01 : retriggered s s1 a (geometry fp))
         by exact (setupRoute_retriggers s s0 sp' fp H eq_refl eq_refl Hf).
  all: assert (Hw1 : well_tracked s1)
         by (apply setupRoute_keeps_tracking; now apply (well_tracked_tracking s)).
  all: destruct (ClassJs_setupRoute_requests s0 sp' fp eq_refl Hf) as (Hs1 & Hf1 & _).
  all: fold s1 in Hs1, Hf1.
  all: exists s1; split; [exact H01|].
  all: assert (E : ClassJs.step fails (call_setRoute a b) s
                   = final (ClassJs._setupRoute
                              (set_finishPoint (Some (setCoordinates b fp)) s1))).
  1, 3: unfold ClassJs.step, ClassJs.handler, ClassJs.setRoute, ClassJs.setPoint;
    repeat (run_handler; first [rewrite Hf | rewrite Hs]); run_handler;
    match goal with
    | |- context [ClassJs._setupRoute ?x] => change x with s0
    end;
    rewrite (setupRoute_done s0); fold s1;
    repeat (run_handler; first [rewrite Hf1 | rewrite Hs1]); run_handler; reflexivity.
  all: rewrite E.
  all: exact (setupRoute_retriggers s1 (set_finishPoint (Some (setCoordinates b fp)) s1)
                sp' (setCoordinates b fp) Hw1 eq_refl Hs1 eq_refl).
Qed.
End Methods.

(** X17: [setRoute] asks the provider once in part_000, at its end.  In
    DeliveryCalculatorClass.js each of its two [setPoint] calls asks as soon
    as both placemarks exist: on a calculator that has a finish placemark it
    asks twice, first for the route to the old finish position, a request
    that the second one supersedes at once. *)
Theorem setRoute_asks_once_or_twice {host : Host} (fails : sdk_call -> bool)
    (s : state) (a b : coords) :
  (reachable_Part000 s -> retriggered s (Part000.step fails (call_setRoute a b) s) a b)
  /\ (reachable_ClassJs s ->
      match _finishPoint s with
      | None => retriggered s (ClassJs.step fails (call_setRoute a b) s) a b
      | Some fp =>
          exists s1, retriggered s s1 a (geometry fp)
                     /\ retriggered s1 (ClassJs.step fails (call_setRoute a b) s) a b
      end).
Proof.
  split; intros Hreach.
  - apply Part000_setRoute_retriggers. now apply reachable_Part000_well_tracked.
  - pose proof (reachable_ClassJs_well_tracked s Hreach) as H.
    destruct (_finishPoint s) as [fp|] eqn:Hf.
    + now apply ClassJs_setRoute_twice.
    + now apply ClassJs_setRoute_once.
Qed.

Lemma setRoute_asks_once_or_twice_witness :
  let s := @ClassJs.run sample_host two_requests (init sample_page) in
  @reachable_Part000 sample_host s /\ @reachable_ClassJs sample_host s
  /\ retriggered s (@Part000.step sample_host no_faults (call_setRoute point_a point_b) s)
       point_a point_b
  /\ exists s1, retriggered s s1 point_a point_c
                /\ retriggered s1
                     (@ClassJs.step sample_host no_faults (call_setRoute point_a point_b) s)
                     point_a point_b.
Proof.
  cbv zeta.
  assert (Hc : @reachable_ClassJs sample_host
                 (@ClassJs.run sample_host two_requests (init sample_page)))
    by (exists sample_page, two_requests; reflexivity).
  assert (Hp : @reachable_Part000 sample_host
                 (@ClassJs.run sample_host two_requests (init sample_page)))
    by (exists sample_page, two_requests; vm_compute; reflexivity).
  split; [exact Hp|]. split; [exact Hc|].
  destruct (@setRoute_asks_once_or_twice sample_host no_faults
              (@ClassJs.run sample_host two_requests (init sample_page)) point_a point_b)
    as [H1 H2].
  split; [exact (H1 Hp) | exact (H2 Hc)].
Defined.

Section SetPoint.
Context {host : Host}.
Variable fails : sdk_call -> bool.

Lemma Part000_setPoint_tracking role pos balloonContent (s : state) :
  tracking (Part000.step fails (call_setPoint role pos balloonContent) s) = tracking s.
Proof.
  unfold Part000.step, Part000.handler, Part000.setPoint. run_handler.
  destruct (String.eqb role "start"), (_startPoint s), (_finishPoint s), balloonContent;
    reflexivity.
Qed.

Lemma ClassJs_setPoint_retriggers which pos balloonContent (s : state)
    (sp fp : placemark) :
  well_tracked s -> _startPoint s = Some sp -> _finishPoint s = Some fp ->
  retriggered s (ClassJs.step fails (call_setPoint which pos balloonContent) s)
    (if String.eqb which "start" then pos else geometry sp)
    (if String.eqb which "start" then geometry fp else pos).
Proof.
  intros H Hs Hf. unfold ClassJs.step, ClassJs.handler, ClassJs.setPoint.
  destruct (String.eqb which "start"), balloonContent;
    repeat (run_handler; first [rewrite Hf | rewrite Hs]); run_handler.
  all: match goal with
       | |- retriggered _ (final (ClassJs._setupRoute ?s1)) _ _ =>
           first
             [ exact (setupRoute_retriggers s s1 (setCoordinates pos sp) fp
                        H eq_refl eq_refl Hf)
             | exact (setupRoute_retriggers s s1 sp (setCoordinates pos fp)
                        H eq_refl Hs eq_refl) ]
       end.
Qed.

(** X18: [setPoint] of part_000 only places the placemark: it asks the
    provider for nothing and cancels nothing, so a pending request goes on
    for the old position.  [setPoint] of DeliveryCalculatorClass.js asks for
    the route again when both placemarks exist. *)
Theorem setPoint_asks_in_one_file_only
    (which : string) (pos : coords) (balloonContent : option string)
    (s : state) (sp fp : placemark) :
  _startPoint s = Some sp -> _finishPoint s = Some fp ->
  tracking (Part000.step fails (call_setPoint which pos balloonContent) s) = tracking s
  /\ (reachable_ClassJs s ->
      retriggered s (ClassJs.step fails (call_setPoint which pos balloonContent) s)
        (if String.eqb which "start" then pos else geometry sp)
        (if String.eqb which "start" then geometry fp else pos)).
Proof.
  intros Hs Hf. split; [apply Part000_setPoint_tracking|].
  intros Hreach. apply ClassJs_setPoint_retriggers; try assumption.
  now apply reachable_ClassJs_well_tracked.
Qed.
End SetPoint.

Lemma setPoint_asks_in_one_file_only_witness :
  let s := @ClassJs.run sample_host two_requests (init sample_page) in
  exists sp fp,
    _startPoint s = Some sp /\ _finishPoint s = Some fp
    /\ tracking (@Part000.step sample_host no_faults (call_setPoint "finish" point_a None) s)
       = tracking s
    /\ @reachable_ClassJs sample_host s
    /\ retriggered s
         (@ClassJs.step sample_host no_faults (call_setPoint "finish" point_a None) s)
         (geometry sp) point_a.
Proof.
  cbv zeta.
  assert (Hc : @reachable_ClassJs sample_host
                 (@ClassJs.run sample_host two_requests (init sample_page)))
    by (exists sample_page, two_requests; reflexivity).
  eexists. eexists. split; [vm_compute; reflexivity|].
  split; [vm_compute; reflexivity|].
  refine (let H := @setPoint_asks_in_one_file_only sample_host no_faults "finish" point_a
                     None _ _ _ _ _ in
          conj (proj1 H) (conj Hc (proj2 H Hc))).
  - vm_compute; reflexivity.
  - vm_compute; reflexivity.
Defined.

(** ** The route on the map *)

Ltac solve_shows :=
  solve [ intros; unfold shows in *; cbn; assumption ].

Ltac keeps_shows := cbv zeta; repeat keeps_step; try solve_shows.

Section Drawing.
Context {host : Host}.
Variable fails : sdk_call -> bool.

Lemma setupRoute_keeps_shows shown held : keeps (shows shown held) ClassJs._setupRoute.
Proof. unfold ClassJs._setupRoute, ymaps_route. keeps_shows. Qed.

Lemma ClassJs_updatePanel_keeps_shows shown held distanceText seconds price :
  keeps (shows shown held) (ClassJs.updatePanel fails distanceText seconds price).
Proof. unfold ClassJs.updatePanel. keeps_shows. Qed.

Lemma Part000_updatePanel_keeps_shows shown held distanceText price seconds :
  keeps (shows shown held) (Part000.updatePanel fails distanceText price seconds).
Proof. unfold Part000.updatePanel. keeps_shows. Qed.

(** The success callback of a request whose deferred is not rejected
    removes the held route, if the SDK lets it, and draws the new one. *)
Lemma ClassJs_route_success_draws (rq : request) (r : router) (s : state) :
  deferreds s !! deferred rq <> Some Rejected ->
  shows (after_removal fails s ++ [drawn_route r])%list (Some (drawn_route r))
    (final (ClassJs.route_success fails rq r s)).
Proof.
  intros Hd. unfold ClassJs.route_success. cbv zeta.
  match goal with
  | |- context [mbind (fun _ => ?rest) (modify (geoObjects_add _))] =>
      set (REST := rest)
  end.
  assert (Hrest : forall shown held, keeps (shows shown held) REST).
  { intros shown held. unfold REST. keeps_shows.
    apply ClassJs_updatePanel_keeps_shows. }
  unfold after_removal.
  cbv beta iota delta [mbind M_bind isRejected get_state modify try_catch sdk mret M_ret].
  destruct (deferreds s !! deferred rq) as [[]|]; try contradiction.
  all: destruct (_route s) as [old|]; [destruct (fails GeoObjectsRemove)|].
  all: cbv beta iota; apply Hrest; split; reflexivity.
Qed.

Lemma Part000_route_success_draws (rq : request) (r : router) (s : state) :
  deferreds s !! deferred rq <> Some Rejected ->
  shows (after_removal fails s ++ [drawn_route r])%list (Some (drawn_route r))
    (final (Part000.route_success fails rq r s)).
Proof.
  intros Hd. unfold Part000.route_success, Part000.clearRoute. cbv zeta.
  match goal with
  | |- context [mbind (fun _ => ?rest) (modify (geoObjects_add _))] =>
      set (REST := rest)
  end.
  assert (Hrest : forall shown held, keeps (shows shown held) REST).
  { intros shown held. unfold REST. keeps_shows.
    apply Part000_updatePanel_keeps_shows. }
  unfold after_removal.
  cbv beta iota delta [mbind M_bind isRejected get_state modify try_catch sdk mret M_ret].
  destruct (deferreds s !! deferred rq) as [[]|]; try contradiction.
  all: destruct (_route s) as [old|]; [destruct (fails GeoObjectsRemove)|].
  all: cbv beta iota; apply Hrest; split; reflexivity.
Qed.

Lemma rejected_success_changes_nothing (rq : request) (r : router) (s : state) :
  deferreds s !! deferred rq = Some Rejected ->
  final (ClassJs.route_success fails rq r s) = s
  /\ final (Part000.route_success fails rq r s) = s.
Proof.
  intros Hd. unfold ClassJs.route_success, Part000.route_success, mbind, M_bind, isRejected.
  rewrite Hd. split; reflexivity.
Qed.

Lemma rejected_or_not (d : nat) (s : state) :
  deferreds s !! d = Some Rejected \/ deferreds s !! d <> Some Rejected.
Proof. destruct (deferreds s !! d) as [[]|]; (now left) || (right; discriminate). Qed.

Lemma one_route_after_removal (s : state) :
  one_route s -> fails GeoObjectsRemove = false -> after_removal fails s = [].
Proof.
  unfold one_route, after_removal. intros H Hf. rewrite Hf.
  destruct (_route s) as [old|]; rewrite H; [|reflexivity].
  cbn. rewrite decide_False by (intros Hne; now apply Hne). reflexivity.
Qed.

Lemma shows_one_route (r : route_object) (s : state) :
  shows [r] (Some r) s -> one_route s.
Proof. intros [Hg Hr]. unfold one_route. now rewrite Hg, Hr. Qed.

Lemma keeps_shows_one_route {A} (m : M A) :
  (forall shown held, keeps (shows shown held) m) -> keeps one_route m.
Proof.
  intros Hm s H. destruct (Hm (geoObjects s) (_route s) s (conj eq_refl eq_refl)) as [Hg Hr].
  unfold one_route. now rewrite Hg, Hr.
Qed.

Lemma settling_keeps_one_route (callback : request -> M unit) (i : nat) :
  (forall rq, keeps one_route (callback rq)) ->
  keeps one_route
    (self ← get_state;
     match requests self !! i with
     | Some rq => if settled rq then mret tt else modify (mark_settled i);; callback rq
     | None => mret tt
     end).
Proof.
  intros Hcb. keeps_auto; try apply Hcb. intros s H. exact H.
Qed.

Lemma ClassJs_route_success_keeps_one_route (rq : request) (r : router) :
  fails GeoObjectsRemove = false -> keeps one_route (ClassJs.route_success fails rq r).
Proof.
  intros Hf s H.
  destruct (rejected_or_not (deferred rq) s) as [Hd|Hd].
  - now rewrite (proj1 (rejected_success_changes_nothing rq r s Hd)).
  - pose proof (ClassJs_route_success_draws rq r s Hd) as Hs.
    rewrite (one_route_after_removal s H Hf) in Hs. exact (shows_one_route _ _ Hs).
Qed.

Lemma Part000_route_success_keeps_one_route (rq : request) (r : router) :
  fails GeoObjectsRemove = false -> keeps one_route (Part000.route_success fails rq r).
Proof.
  intros Hf s H.
  destruct (rejected_or_not (deferred rq) s) as [Hd|Hd].
  - now rewrite (proj2 (rejected_success_changes_nothing rq r s Hd)).
  - pose proof (Part000_route_success_draws rq r s Hd) as Hs.
    rewrite (one_route_after_removal s H Hf) in Hs. exact (shows_one_route _ _ Hs).
Qed.

Lemma Part000_clearRoute_keeps_one_route :
  fails GeoObjectsRemove = false -> keeps one_route (Part000.clearRoute fails).
Proof.
  intros Hf s H. pose proof (one_route_after_removal s H Hf) as Ha.
  unfold after_removal in Ha. rewrite Hf in Ha.
  unfold Part000.clearRoute.
  cbv beta iota delta [mbind M_bind get_state modify try_catch sdk mret M_ret].
  rewrite Hf. destruct (_route s) as [old|] eqn:Hr; cbn.
  - unfold one_route. cbn. exact Ha.
  - unfold one_route. cbn. rewrite Hr. exact Ha.
Qed.

Lemma ClassJs_setPoint_keeps_shows shown held which pos balloonContent :
  keeps (shows shown held) (ClassJs.setPoint which pos balloonContent).
Proof.
  unfold ClassJs.setPoint. cbv zeta. destruct (String.eqb which "start").
  all: keeps_shows; apply setupRoute_keeps_shows.
Qed.

Lemma Part000_setPoint_keeps_shows shown held role pos balloonContent :
  keeps (shows shown held) (Part000.setPoint role pos balloonContent).
Proof.
  unfold Part000.setPoint. cbv zeta. destruct (String.eqb role "start").
  all: keeps_shows.
Qed.

Lemma ClassJs_handler_keeps_one_route (e : event) :
  fails GeoObjectsRemove = false -> keeps one_route (ClassJs.handler fails e).
Proof.
  intros Hf.
  destruct e as [pos|[] pos|which pos balloonContent|start finish| |i r|i];
    unfold ClassJs.handler, ClassJs._onClick, ClassJs.setRoute.
  7: { apply (settling_keeps_one_route (fun rq => ClassJs.route_success fails rq r)).
       intros rq. now apply ClassJs_route_success_keeps_one_route. }
  7: { apply (settling_keeps_one_route (fun _ => ClassJs.route_failure fails)).
       intros _. apply keeps_shows_one_route. intros shown held.
       unfold ClassJs.route_failure. keeps_shows. }
  all: apply keeps_shows_one_route; intros shown held; keeps_shows.
  all: first [ apply ClassJs_setPoint_keeps_shows | apply setupRoute_keeps_shows ].
Qed.

Lemma Part000_handler_keeps_one_route (e : event) :
  fails GeoObjectsRemove = false -> keeps one_route (Part000.handler fails e).
Proof.
  intros Hf.
  destruct e as [pos|[] pos|role pos balloonContent|start finish| |i r|i];
    unfold Part000.handler, Part000._onClick, Part000.setRoute.
  6: { now apply Part000_clearRoute_keeps_one_route. }
  6: { apply (settling_keeps_one_route (fun rq => Part000.route_success fails rq r)).
       intros rq. now apply Part000_route_success_keeps_one_route. }
  6: { apply (settling_keeps_one_route (fun _ => Part000.route_failure fails)).
       intros _. apply keeps_shows_one_route. intros shown held.
       unfold Part000.route_failure. keeps_shows. }
  all: apply keeps_shows_one_route; intros shown held; keeps_shows.
  all: first [ apply Part000_setPoint_keeps_shows
             | rewrite Part000_setupRoute_same; apply setupRoute_keeps_shows ].
Qed.
End Drawing.

(** X19: the map shows one route at most, the one that the calculator
    holds.  After every session of either file in which [geoObjects.remove]
    never throws, the routes on the map are exactly the held route, or none. *)
Theorem map_shows_the_held_route_only {host : Host} (page : gmap string string)
    (trace : list ((sdk_call -> bool) * event)) :
  removal_works trace ->
  one_route (ClassJs.run trace (init page)) /\ one_route (Part000.run trace (init page)).
Proof.
  induction trace as [|fe trace IH] using rev_ind; intros Hw.
  - split; reflexivity.
  - apply Forall_app in Hw as [Hw Hfe]. rewrite Forall_singleton in Hfe.
    destruct (IH Hw) as [IHc IHp].
    rewrite run_snoc_ClassJs, run_snoc_Part000. split.
    + apply ClassJs_handler_keeps_one_route; [exact Hfe | exact IHc].
    + apply Part000_handler_keeps_one_route; [exact Hfe | exact IHp].
Qed.

Lemma map_shows_the_held_route_only_witness :
  let trace := (two_requests ++ [(no_faults, route_resolved 1 sample_router)])%list in
  removal_works trace
  /\ one_route (@ClassJs.run sample_host trace (init sample_page))
  /\ one_route (@Part000.run sample_host trace (init sample_page)).
Proof.
  cbv zeta.
  assert (H : removal_works
                (two_requests ++ [(no_faults, route_resolved 1 sample_router)])%list)
    by (repeat constructor).
  split; [exact H|].
  exact (@map_shows_the_held_route_only sample_host sample_page _ H).
Defined.

(** ** A live request resolves *)

Section Resolution.
Context {host : Host}.
Variable fails : sdk_call -> bool.

Lemma resolved_step (s : state) (i : nat) (rq : request) (r : router) :
  requests s !! i = Some rq -> settled rq = false ->
  ClassJs.step fails (route_resolved i r) s
  = final (ClassJs.route_success fails rq r (mark_settled i s))
  /\ Part000.step fails (route_resolved i r) s
     = final (Part000.route_success fails rq r (mark_settled i s)).
Proof.
  intros Hrq Hs. unfold ClassJs.step, Part000.step, ClassJs.handler, Part000.handler.
  unfold mbind, M_bind, get_state, modify. rewrite Hrq, Hs. split; reflexivity.
Qed.

End Resolution.


(** *** Handlers step by step, where nothing throws *)

Lemma bind_eq {A B} (m : M A) (k : A -> M B) (s s' : state) (a : A) :
  m s = Done a s' -> (m ≫= k) s = k a s'.
Proof. intros E. unfold mbind, M_bind. now rewrite E. Qed.

Lemma try_catch_eq (m : M unit) (s s' : state) :
  m s = Done tt s' -> try_catch m s = Done tt s'.
Proof. intros E. unfold try_catch. now rewrite E. Qed.

Lemma on_placemark_eq (isStart : bool) (c : sdk_call) (f : placemark -> placemark)
    (s : state) (pm : placemark) :
  (if isStart then _startPoint s else _finishPoint s) = Some pm ->
  on_placemark no_faults isStart c f s
  = Done tt ((if isStart then set_startPoint else set_finishPoint) (Some (f pm)) s).
Proof. intros E. unfold on_placemark. now rewrite E. Qed.

Lemma try_balloons_eq (a b : string) (s : state) (sp fp : placemark) :
  _startPoint s = Some sp -> _finishPoint s = Some fp ->
  try_catch
    (on_placemark no_faults true (PropertiesSet true) (set_balloonContentBody a);;
     on_placemark no_faults false (PropertiesSet false) (set_balloonContentBody b)) s
  = Done tt (set_finishPoint (Some (set_balloonContentBody b fp))
               (set_startPoint (Some (set_balloonContentBody a sp)) s)).
Proof.
  intros Hs Hf. apply try_catch_eq.
  rewrite (bind_eq _ _ s _ tt (on_placemark_eq true _ _ s sp Hs)).
  exact (on_placemark_eq false _ _
           (set_startPoint (Some (set_balloonContentBody a sp)) s) fp Hf).
Qed.

Lemma try_open_eq (s : state) (fp : placemark) :
  _finishPoint s = Some fp ->
  try_catch
    (on_placemark no_faults false BalloonOpen open_balloon;;
     try_catch (on_placemark no_faults false BalloonAutoPan autoPan_balloon)) s
  = Done tt (set_finishPoint (Some (autoPan_balloon (open_balloon fp)))
               (set_finishPoint (Some (open_balloon fp)) s)).
Proof.
  intros Hf. apply try_catch_eq.
  rewrite (bind_eq _ _ s _ tt (on_placemark_eq false _ _ s fp Hf)).
  apply try_catch_eq.
  exact (on_placemark_eq false _ _ (set_finishPoint (Some (open_balloon fp)) s)
           (open_balloon fp) eq_refl).
Qed.

Lemma try_bounds_eq (p : nat) (s : state) :
  try_catch (sdk no_faults SetBounds;; modify (set_bounds (Some p))) s
  = Done tt (set_bounds (Some p) s).
Proof. reflexivity. Qed.

Lemma bind_modify {B} (f : state -> state) (k : unit -> M B) (s : state) :
  (modify f ≫= k) s = k tt (f s).
Proof. reflexivity. Qed.

Lemma resolve_eq (d : nat) (s : state) :
  deferreds s !! d = Some Pending ->
  resolve d s = Done tt (set_deferreds (<[d := Fulfilled]> (deferreds s)) s).
Proof. intros E. unfold resolve, settle_deferred. now rewrite E. Qed.

Lemma isRejected_eq (d : nat) (s : state) :
  deferreds s !! d = Some Pending -> isRejected d s = Done false s.
Proof. intros E. unfold isRejected. now rewrite E. Qed.

Lemma fill_cost (page : gmap string string) (text : string) (doc : gmap string string) :
  is_Some (page !! "costVal") -> fill page "costVal" text doc !! "costVal" = Some text.
Proof.
  intros H. unfold fill. rewrite bool_decide_eq_true_2 by exact H. apply lookup_insert_eq.
Qed.

Section Sunny.
Context {host : Host}.

Lemma ClassJs_updatePanel_eq distanceText seconds price (s : state) :
  ClassJs.updatePanel no_faults distanceText seconds price s
  = Done tt
      (set_document
         (fill (document s) "costVal"
            (match price with
             | ArgNull | ArgUndefined => dash
             | _ => ClassJs.fmtMoney price
             end ++ " ₾")
            (fill (document s) "timeVal"
               match seconds with
               | ArgNull | ArgUndefined => dash
               | _ => or_dash (default "" (ClassJs.fmtSeconds seconds))
               end
               (fill (document s) "distanceVal" (or_dash distanceText) (document s))))
         s).
Proof.
  destruct s. unfold ClassJs.updatePanel, fill.
  generalize (match price with
              | ArgNull | ArgUndefined => dash
              | _ => ClassJs.fmtMoney price
              end ++ " ₾").
  generalize (match seconds with
              | ArgNull | ArgUndefined => dash
              | _ => or_dash (default "" (ClassJs.fmtSeconds seconds))
              end).
  intros timeText costText.
  cbv beta iota zeta delta
    [mbind M_bind mret M_ret get_state modify when_ try_catch sdk getElementById
     set_textContent no_faults].
  cbn [document set_document].
  destruct (bool_decide (is_Some (document0 !! "distanceVal")));
    destruct (bool_decide (is_Some (document0 !! "timeVal")));
    destruct (bool_decide (is_Some (document0 !! "costVal"))); reflexivity.
Qed.

Lemma Part000_updatePanel_eq distanceText price seconds (s : state) :
  Part000.updatePanel no_faults distanceText price seconds s
  = Done tt
      (set_document
         (fill (document s) "costVal"
            (match price with
             | ArgNull | ArgUndefined => dash
             | ArgNum x => number_to_string x
             end ++ " ₾")
            (fill (document s) "timeVal"
               (if arg_truthy seconds || arg_is_zero seconds
                then or_dash (default "" (Part000.formatSecondsToHm seconds))
                else dash)
               (fill (document s) "distanceVal" (or_dash distanceText) (document s))))
         s).
Proof.
  destruct s. unfold Part000.updatePanel, fill.
  generalize (match price with
              | ArgNull | ArgUndefined => dash
              | ArgNum x => number_to_string x
              end ++ " ₾").
  generalize (if arg_truthy seconds || arg_is_zero seconds
              then or_dash (default "" (Part000.formatSecondsToHm seconds))
              else dash).
  intros timeText costText.
  cbv beta iota zeta delta
    [mbind M_bind mret M_ret get_state modify when_ try_catch sdk getElementById
     set_textContent no_faults].
  cbn [document set_document].
  destruct (bool_decide (is_Some (document0 !! "distanceVal")));
    destruct (bool_decide (is_Some (document0 !! "timeVal")));
    destruct (bool_decide (is_Some (document0 !! "costVal"))); reflexivity.
Qed.

Lemma ClassJs_success_shown (s : state) (rq : request) (r : router) (sp fp : placemark) :
  deferreds s !! deferred rq = Some Pending ->
  _startPoint s = Some sp -> _finishPoint s = Some fp ->
  result_shown
    (ClassJs.fmtMoney
       (ArgNum (ClassJs.priceForKm (Math_round (num_div (getLength r) (Finite 1000))))))
    rq r s (final (ClassJs.route_success no_faults rq r s)).
Proof.
  intros Hp Hs Hf. pose proof (lookup_lt_Some _ _ _ Hp) as Hlt.
  unfold ClassJs.route_success. cbv zeta.
  rewrite (bind_eq _ _ s s false (isRejected_eq _ s Hp)).
  rewrite (bind_eq get_state _ s s s eq_refl).
  assert (exists objs, forall (k : unit -> M unit),
            (match _route s with
             | Some route =>
                 try_catch (sdk no_faults GeoObjectsRemove;;
                            modify (geoObjects_remove route));;
                 modify (set_route None)
             | None => mret tt
             end ≫= k) s
            = k tt (set_route None (set_geoObjects objs s))) as [objs E].
  { destruct s as [? ? [old|] ? ? ? ? ? ? ? ? ?]; eexists; intros k; reflexivity. }
  rewrite E. clear E.
  rewrite !bind_modify.
  erewrite bind_eq by (apply (try_balloons_eq _ _ _ sp fp); [exact Hs | exact Hf]).
  erewrite bind_eq by apply ClassJs_updatePanel_eq.
  erewrite bind_eq by apply try_bounds_eq.
  erewrite bind_eq by (apply try_open_eq; reflexivity).
  rewrite resolve_eq by exact Hp.
  unfold result_shown, balloon_message, ClassJs.calculate.
  cbn [_startPoint _finishPoint _router deferreds bounds document set_startPoint
       set_finishPoint set_route set_router set_deferreds set_geoObjects set_bounds
       set_document geoObjects_add final fmap option_fmap option_map paths
       balloonContentBody balloon_open set_balloonContentBody open_balloon
       autoPan_balloon].
  rewrite list_lookup_insert_eq by exact Hlt.
  repeat split. apply fill_cost.
Qed.

Lemma Part000_success_shown (s : state) (rq : request) (r : router) (sp fp : placemark) :
  deferreds s !! deferred rq = Some Pending ->
  _startPoint s = Some sp -> _finishPoint s = Some fp ->
  result_shown
    (number_to_string
       (Part000.buildPrice (Math_round (num_div (getLength r) (Finite 1000)))))
    rq r s (final (Part000.route_success no_faults rq r s)).
Proof.
  intros Hp Hs Hf. pose proof (lookup_lt_Some _ _ _ Hp) as Hlt.
  unfold Part000.route_success. cbv zeta.
  rewrite (bind_eq _ _ s s false (isRejected_eq _ s Hp)).
  assert (exists objs, forall (k : unit -> M unit),
            (Part000.clearRoute no_faults ≫= k) s
            = k tt (set_router None (set_route None (set_geoObjects objs s))))
    as [objs E].
  { destruct s as [? ? [old|] ? ? ? ? ? ? ? ? ?]; eexists; intros k; reflexivity. }
  rewrite E. clear E.
  rewrite !bind_modify.
  erewrite bind_eq by (apply (try_balloons_eq _ _ _ sp fp); [exact Hs | exact Hf]).
  erewrite bind_eq by (apply try_open_eq; reflexivity).
  erewrite bind_eq by apply Part000_updatePanel_eq.
  erewrite bind_eq by apply try_bounds_eq.
  rewrite resolve_eq by exact Hp.
  unfold result_shown, balloon_message.
  cbn [_startPoint _finishPoint _router deferreds bounds document set_startPoint
       set_finishPoint set_route set_router set_deferreds set_geoObjects set_bounds
       set_document geoObjects_add final fmap option_fmap option_map paths
       balloonContentBody balloon_open set_balloonContentBody open_balloon
       autoPan_balloon].
  rewrite list_lookup_insert_eq by exact Hlt.
  repeat split. apply fill_cost.
Qed.

(** X21: a pending request resolves.  When no guarded call throws and
    both placemarks exist, the result is shown for the length of the route
    rounded to whole kilometres: the deferred is fulfilled, the router kept,
    the viewport fitted, both balloons end in the distance and the cost, the
    finish balloon is open, and the cost slot of the page shows the cost,
    written by [fmtMoney] in DeliveryCalculatorClass.js and as the bare
    number in part_000. *)
Theorem pending_request_resolves (s : state) (i : nat) (rq : request) (r : router)
    (sp fp : placemark) :
  requests s !! i = Some rq -> settled rq = false ->
  deferreds s !! deferred rq = Some Pending ->
  _startPoint s = Some sp -> _finishPoint s = Some fp ->
  let kmRounded := Math_round (num_div (getLength r) (Finite 1000)) in
  result_shown (ClassJs.fmtMoney (ArgNum (ClassJs.priceForKm kmRounded))) rq r s
    (ClassJs.step no_faults (route_resolved i r) s)
  /\ result_shown (number_to_string (Part000.buildPrice kmRounded)) rq r s
       (Part000.step no_faults (route_resolved i r) s).
Proof.
  intros Hrq Hu Hp Hs Hf. cbv zeta.
  destruct (resolved_step no_faults s i rq r Hrq Hu) as [Ec Ep]. rewrite Ec, Ep.
  split.
  - exact (ClassJs_success_shown (mark_settled i s) rq r sp fp Hp Hs Hf).
  - exact (Part000_success_shown (mark_settled i s) rq r sp fp Hp Hs Hf).
Qed.
End Sunny.

Lemma pending_request_resolves_witness :
  let s := @ClassJs.run sample_host two_requests (init sample_page) in
  let kmRounded := Math_round (num_div (getLength sample_router) (Finite 1000)) in
  exists rq sp fp,
    requests s !! 1%nat = Some rq /\ settled rq = false
    /\ deferreds s !! deferred rq = Some Pending
    /\ _startPoint s = Some sp /\ _finishPoint s = Some fp
    /\ @result_shown sample_host
         (ClassJs.fmtMoney (ArgNum (ClassJs.priceForKm kmRounded)))
         rq sample_router s
         (@ClassJs.step sample_host no_faults (route_resolved 1 sample_router) s)
    /\ @result_shown sample_host
         (number_to_string (Part000.buildPrice kmRounded))
         rq sample_router s
         (@Part000.step sample_host no_faults (route_resolved 1 sample_router) s).
Proof.
  cbv zeta. eexists. eexists. eexists.
  split; [vm_compute; reflexivity|]. split; [reflexivity|].
  split; [vm_compute; reflexivity|].
  split; [vm_compute; reflexivity|]. split; [vm_compute; reflexivity|].
  refine (@pending_request_resolves sample_host _ 1%nat _ sample_router _ _ _ _ _ _ _).
  - vm_compute; reflexivity.
  - reflexivity.
  - vm_compute; reflexivity.
  - vm_compute; reflexivity.
  - vm_compute; reflexivity.
Defined.

(** ** Clearing the route *)

Section ClearRoute.
Context {host : Host}.
Variables fails fails' : sdk_call -> bool.

Lemma clearRoute_effect (s : state) :
  final (Part000.clearRoute fails s)
  = set_router None (set_route None (set_geoObjects (after_removal fails s) s)).
Proof.
  unfold Part000.clearRoute, after_removal.
  cbv beta iota delta [mbind M_bind get_state modify try_catch sdk mret M_ret].
  destruct s as [? ? [old|] ? ? ? ? ? ? ? ? ?]; cbn;
    destruct (fails GeoObjectsRemove); reflexivity.
Qed.

(** X22: [clearRoute] of part_000 forgets the route and the router and
    takes the route off the map ([geoObjects.remove] permitting), and that is
    all: the placemarks and the page stay, and no request is cancelled.  So a
    request that was pending is still pending, and when the provider resolves
    it the route is drawn after all. *)
Theorem clearRoute_cancels_nothing (s : state) (i : nat) (r : router) :
  pending s i ->
  let s' := Part000.step fails call_clearRoute s in
  _route s' = None /\ _router s' = None
  /\ geoObjects s' = after_removal fails s
  /\ _startPoint s' = _startPoint s /\ _finishPoint s' = _finishPoint s
  /\ document s' = document s
  /\ tracking s' = tracking s
  /\ pending s' i
  /\ shows (geoObjects s' ++ [drawn_route r])%list (Some (drawn_route r))
       (Part000.step fails' (route_resolved i r) s').
Proof.
  intros Hp. cbv zeta.
  assert (E : Part000.step fails call_clearRoute s
              = set_router None (set_route None (set_geoObjects (after_removal fails s) s)))
    by apply clearRoute_effect.
  rewrite E. clear E.
  destruct Hp as (rq & Hrq & Hu & Hd).
  repeat (split; [reflexivity|]).
  split; [exists rq; repeat split; assumption|].
  match goal with |- shows _ _ (Part000.step _ _ ?s1) => set (s' := s1) end.
  destruct (resolved_step fails' s' i rq r Hrq Hu) as [_ Ep]. rewrite Ep.
  assert (Hd' : deferreds (mark_settled i s') !! deferred rq <> Some Rejected).
  { cbn. rewrite Hd. discriminate. }
  exact (Part000_route_success_draws fails' rq r (mark_settled i s') Hd').
Qed.
End ClearRoute.

Lemma clearRoute_cancels_nothing_witness :
  let s := @Part000.run sample_host two_requests (init sample_page) in
  let s' := @Part000.step sample_host no_faults call_clearRoute s in
  pending s 1
  /\ _route s' = None /\ _router s' = None
  /\ geoObjects s' = after_removal no_faults s
  /\ _startPoint s' = _startPoint s /\ _finishPoint s' = _finishPoint s
  /\ document s' = document s
  /\ tracking s' = tracking s
  /\ pending s' 1
  /\ shows (geoObjects s' ++ [drawn_route sample_router])%list
       (Some (drawn_route sample_router))
       (@Part000.step sample_host no_faults (route_resolved 1 sample_router) s').
Proof.
  cbv zeta.
  assert (Hp : pending (@Part000.run sample_host two_requests (init sample_page)) 1).
  { eexists. repeat split; vm_compute; reflexivity. }
  split; [exact Hp|].
  exact (@clearRoute_cancels_nothing sample_host no_faults no_faults _ 1%nat
           sample_router Hp).
Defined.
